(** * MARL_CAV_FLOW: the multi-agent PPO learner and the lane-change environment

    A shallow embedding of [MARL/MAPPO.py] (the constructor, [interact],
    [train], the action and value methods, the discounting, the soft update
    and the checkpoints [load] and [save]), of the training loop of
    [MARL/run_mappo.py] and of [LaneChnageMARL] from
    [highway_env/envs/lanechange_env.py] ([step], the reward, the cost, the
    termination tests, the road test and the initial vehicles).

    Conventions.
    - A Python/NumPy/Torch float is a real number ([R]); the environment, whose
      NaN handling is the subject of one property, uses [np_float], which adds
      a NaN value.
    - A raised Python exception is the [Raise] case of [result].
    - One-dimensional arrays are [list R], two-dimensional ones are lists of
      rows; Torch broadcasting is written out in [broadcast].
    - Everything that lives outside the three source files (the network
      forward passes, autograd, the optimizers, the gym environment behind
      [reset]/[step], the replay memory and the random generators) is an
      operation of the class [Collaborators]; the file system, [th.save],
      [th.load] and [int] are operations of the class [Storage]. *)

From Stdlib Require Import Ascii String.
From Stdlib Require DecimalString.
From Stdlib Require Import Reals List ZArith Lra Lia Bool.
Import ListNotations.
Open Scope R_scope.

(** ** Python exceptions and fallible computations *)

Inductive exn : Type :=
| TypeError | AttributeError | IndexError | KeyError | ValueError
| ZeroDivisionError | RuntimeError | UnboundLocalError | AssertionError.

Inductive result (A : Type) : Type :=
| Ok (a : A)
| Raise (e : exn).

Arguments Ok {A} a.
Arguments Raise {A} e.

Definition bind {A B : Type} (c : result A) (k : A -> result B) : result B :=
  match c with
  | Ok a => k a
  | Raise e => Raise e
  end.

Notation "x <- c ;; k" := (bind c (fun x => k))
  (at level 100, c at next level, right associativity).
Notation "' p <- c ;; k" := (bind c (fun x => let p := x in k))
  (at level 100, p pattern, c at next level, right associativity).

(** [l[i]] on a Python list or along one axis of an array. *)
Definition py_index {A : Type} (l : list A) (i : nat) : result A :=
  match nth_error l i with
  | Some x => Ok x
  | None => Raise IndexError
  end.

(** [l[i] = v] for an index in range; out of range the callers below never go. *)
Fixpoint assign {A : Type} (l : list A) (i : nat) (v : A) : list A :=
  match l, i with
  | [], _ => []
  | _ :: l', O => v :: l'
  | x :: l', S i' => x :: assign l' i' v
  end.

(** [zip] followed by a map: stops at the shorter list. *)
Fixpoint zip_with {A B C : Type} (f : A -> B -> C) (l : list A) (m : list B) : list C :=
  match l, m with
  | a :: l', b :: m' => f a b :: zip_with f l' m'
  | _, _ => []
  end.

(** A [for] loop whose body may raise: the bodies run in order and the first
    exception ends the loop. *)
Fixpoint for_each {A S : Type} (body : S -> A -> result S) (l : list A) (s : S) : result S :=
  match l with
  | [] => Ok s
  | a :: l' => s' <- body s a ;; for_each body l' s'
  end.

Fixpoint map_result {A B : Type} (f : A -> result B) (l : list A) : result (list B) :=
  match l with
  | [] => Ok []
  | a :: l' => b <- f a ;; bs <- map_result f l' ;; Ok (b :: bs)
  end.

(** ** Arrays and tensors *)

Definition vec := list R.
Definition mat := list (list R).
(** One parameter tensor (its data, flattened) and [module.parameters()]. *)
Definition tensor := list R.
Definition params := list tensor.
(** A joint observation or action: one row per agent. *)
Definition obs := list vec.

Definition sum (v : vec) : R := fold_right Rplus 0 v.

(** A one-dimensional tensor of size B takes part in a binary operation as a
    1 x B matrix; a (B, 1) column is the matrix [column v]. *)
Definition row (v : vec) : mat := [v].
Definition column (v : vec) : mat := map (fun x => [x]) v.

Definition n_rows (m : mat) : nat := length m.
Definition n_cols (m : mat) : nat := length (hd [] m).

(** The size of one broadcast dimension: equal sizes stay, a size of one
    stretches to the other, anything else is a shape error. *)
Definition broadcast_dim (a b : nat) : option nat :=
  if (a =? b)%nat then Some a
  else if (a =? 1)%nat then Some b
  else if (b =? 1)%nat then Some a
  else None.

Definition expand (r c : nat) (m : mat) : mat :=
  let rows := match m with [x] => repeat x r | _ => m end in
  map (fun v => match v with [x] => repeat x c | _ => v end) rows.

(** Torch's elementwise binary operations on tensors of at most two dimensions. *)
Definition broadcast (f : R -> R -> R) (x y : mat) : result mat :=
  match broadcast_dim (n_rows x) (n_rows y), broadcast_dim (n_cols x) (n_cols y) with
  | Some r, Some c => Ok (zip_with (zip_with f) (expand r c x) (expand r c y))
  | _, _ => Raise RuntimeError
  end.

(** [th.mean]: over every element. *)
Definition mean (m : mat) : R := sum (concat m) / INR (length (concat m)).

(** [th.clamp(x, lo, hi)]. *)
Definition clamp (lo hi x : R) : R := Rmin (Rmax x lo) hi.

(** Pieces of [k] consecutive elements, as a row-major reshape produces them. *)
Fixpoint chunks_fuel {A : Type} (fuel k : nat) (l : list A) : list (list A) :=
  match fuel with
  | O => []
  | S fuel' =>
      match l with
      | [] => []
      | _ => firstn k l :: chunks_fuel fuel' k (skipn k l)
      end
  end.

Definition chunks {A : Type} (k : nat) (l : list A) : list (list A) :=
  chunks_fuel (length l) k l.

(** [t.view(-1, n, d)] on the flattened data of [t]. *)
Definition view3 (flat : list R) (n d : nat) : result (list mat) :=
  if (n * d =? 0)%nat then Raise RuntimeError
  else if (length flat mod (n * d) =? 0)%nat then Ok (chunks n (chunks d flat))
  else Raise RuntimeError.

(** [x[:, agent_id, :]] on a (batch, agent, feature) tensor. *)
Definition agent_slice (x : list mat) (agent_id : nat) : mat :=
  map (fun b => nth agent_id b []) x.

(** [to_tensor_var(x)] of [common.utils], which is not among the sources:
    it wraps a nested list into a float tensor, so that only the element
    order matters below. The data is kept flattened, row-major. *)
Definition to_tensor_var (x : list mat) : list R := concat (concat x).

(** ** NumPy arrays of rewards *)

(** The local variable [rewards] of [interact] is a Python list of lists
    until [np.array(rewards) / self.reward_scale] turns it into an array. *)
Inductive py_rewards : Type :=
| PyList (l : list vec)
| NdArray (a : list vec).

(** [np.array(rows)]: rows of unequal length are refused. *)
Definition np_array (rows : list vec) : result (list vec) :=
  match rows with
  | [] => Ok []
  | r :: _ =>
      if forallb (fun r' => (length r' =? length r)%nat) rows then Ok rows
      else Raise ValueError
  end.

(** [a[:, j]]; an empty list makes a one-dimensional array, which has no
    second axis. *)
Definition get_column (a : list vec) (j : nat) : result vec :=
  match a with
  | [] => Raise IndexError
  | _ => map_result (fun r => py_index r j) a
  end.

(** [a[:, j] = c]. *)
Definition set_column (a : list vec) (j : nat) (c : vec) : list vec :=
  zip_with (fun r v => assign r j v) a c.

(** ** The collaborators *)

(** What [memory.sample] returns: three parallel tuples, one entry per
    sampled experience. *)
Record batch : Type := {
  batch_states : list obs;
  batch_actions : list (list vec);
  batch_rewards : list vec
}.

Inductive optimizer_algo : Type := Adam | RMSprop.

Class Collaborators : Type := {
  (** single_agent.Model_common and torch: the forward pass of a network on
      one row of a batch, fresh weights, reverse-mode differentiation of a
      loss in the parameters it is given for, and the optimizers *)
  ActorNetwork : params -> vec -> vec;
  CriticNetwork : params -> vec -> vec -> R;
  new_actor : nat -> nat -> params;
  new_critic : nat -> nat -> params;
  backward : (params -> result R) -> params -> params;
  clip_grad_norm_ : params -> R -> params;
  OptState : Type;
  new_optimizer : optimizer_algo -> R -> OptState;
  optimizer_update : optimizer_algo -> OptState -> params -> params -> params * OptState;
  (** the global random generators *)
  Rng : Type;
  randn : Rng -> nat -> vec * Rng;
  (** the gym environment *)
  Env : Type;
  Info : Type;
  env_reset : Env -> Rng -> Env * Rng * obs;
  env_step : Env -> Rng -> list vec -> result (Env * Rng * (obs * R * bool * Info));
  controlled_vehicles : Env -> nat;
  info_regional_rewards : Info -> option vec;
  info_average_speed : Info -> R;
  info_agents_info : Info -> list vec;
  info_hdv_info : Info -> list vec;
  (** single_agent.Memory_common *)
  Memory : Type;
  new_memory : nat -> Memory;
  memory_push : Memory -> list obs -> list (list vec) -> list vec -> Memory;
  memory_sample : Memory -> nat -> Rng -> batch * Rng
}.

(** The dictionary [MAPPO.save] hands to [th.save] and [MAPPO.load] gets
    back from [th.load]. *)
Record checkpoint {W : Collaborators} : Type := {
  checkpoint_global_step : Z;
  model_state_dict : params;
  optimizer_state_dict : OptState
}.

(** What [load] and [save] use of [os], of [torch] and of the builtins. *)
Class Storage {W : Collaborators} : Type := {
  FileSystem : Type;
  (** os.path.exists and os.listdir *)
  path_exists : FileSystem -> string -> bool;
  listdir : FileSystem -> string -> result (list string);
  (** th.save and th.load *)
  th_save : FileSystem -> string -> checkpoint -> result FileSystem;
  th_load : FileSystem -> string -> result checkpoint;
  (** optimizer.load_state_dict: the state the optimizer holds, then the
      loaded one *)
  optimizer_load_state_dict : OptState -> OptState -> result OptState;
  (** int(s) on a string *)
  int : string -> result Z
}.

(** [s.split(sep)] for a separator of one character. *)
Fixpoint split (sep : ascii) (s : string) : list string :=
  match s with
  | EmptyString => [EmptyString]
  | String c s' =>
      if Ascii.eqb c sep then EmptyString :: split sep s'
      else
        match split sep s' with
        | t :: ts => String c t :: ts
        | [] => [String c EmptyString]
        end
  end.

(** ['{:d}'.format(n)] on an integer. *)
Definition format_d (n : Z) : string :=
  DecimalString.NilZero.string_of_int (Z.to_int n).

(** * MARL/MAPPO.py *)

Module MAPPO.

(** The keyword arguments of the constructor that the modelled methods read. *)
Record config : Type := {
  state_dim : nat;
  action_dim : nat;
  memory_capacity : nat;
  max_steps : option nat;
  roll_out_n_steps : nat;
  target_tau : R;
  target_update_steps : Z;
  clip_param : R;
  reward_gamma : R;
  reward_scale : R;
  critic_loss : string;
  actor_lr : R;
  critic_lr : R;
  optimizer_type : string;
  max_grad_norm : option R;
  batch_size : nat;
  episodes_before_train : Z;
  traffic_density : Z;
  reward_type : string
}.

(** The four networks of the learner, and the name under which an
    optimizer holds the parameters it was constructed over. *)
Inductive net_id : Type := Actor | Critic | ActorTarget | CriticTarget.

Record networks : Type := {
  actor : params;
  critic : params;
  actor_target : params;
  critic_target : params
}.

Definition get_net (i : net_id) (n : networks) : params :=
  match i with
  | Actor => actor n
  | Critic => critic n
  | ActorTarget => actor_target n
  | CriticTarget => critic_target n
  end.

Definition set_net (i : net_id) (p : params) (n : networks) : networks :=
  match i with
  | Actor =>
      {| actor := p; critic := critic n;
         actor_target := actor_target n; critic_target := critic_target n |}
  | Critic =>
      {| actor := actor n; critic := p;
         actor_target := actor_target n; critic_target := critic_target n |}
  | ActorTarget =>
      {| actor := actor n; critic := critic n;
         actor_target := p; critic_target := critic_target n |}
  | CriticTarget =>
      {| actor := actor n; critic := critic n;
         actor_target := actor_target n; critic_target := p |}
  end.

(** The episode statistics kept by the learner. *)
Record history : Type := {
  episode_rewards : list R;
  average_speed : list R;
  epoch_steps : list nat;
  cav_pos : list vec;
  hdv_pos : list vec
}.

Section Learner.
Context {W : Collaborators}.

Record optimizer : Type := {
  opt_algo : optimizer_algo;
  opt_params : net_id;
  opt_state : OptState
}.

Record optimizers : Type := {
  actor_optimizer : option optimizer;
  critic_optimizer : option optimizer
}.

(** The attributes of [self]. [n_agents] and [episode_done] do not exist
    before the first [interact]. *)
Record learner : Type := {
  cfg : config;
  env : Env;
  env_state : obs;
  n_episodes : nat;
  n_steps : nat;
  n_agents : option nat;
  nets : networks;
  optims : optimizers;
  memory : Memory;
  hist : history;
  episode_done : option bool
}.

Definition set_env (e : Env) (s : obs) (self : learner) : learner :=
  {| cfg := cfg self; env := e; env_state := s; n_episodes := n_episodes self;
     n_steps := n_steps self; n_agents := n_agents self; nets := nets self;
     optims := optims self; memory := memory self; hist := hist self;
     episode_done := episode_done self |}.

Definition set_n_episodes (k : nat) (self : learner) : learner :=
  {| cfg := cfg self; env := env self; env_state := env_state self; n_episodes := k;
     n_steps := n_steps self; n_agents := n_agents self; nets := nets self;
     optims := optims self; memory := memory self; hist := hist self;
     episode_done := episode_done self |}.

Definition set_n_steps (k : nat) (self : learner) : learner :=
  {| cfg := cfg self; env := env self; env_state := env_state self;
     n_episodes := n_episodes self; n_steps := k; n_agents := n_agents self;
     nets := nets self; optims := optims self; memory := memory self;
     hist := hist self; episode_done := episode_done self |}.

Definition set_n_agents (k : nat) (self : learner) : learner :=
  {| cfg := cfg self; env := env self; env_state := env_state self;
     n_episodes := n_episodes self; n_steps := n_steps self; n_agents := Some k;
     nets := nets self; optims := optims self; memory := memory self;
     hist := hist self; episode_done := episode_done self |}.

Definition set_nets (n : networks) (o : optimizers) (self : learner) : learner :=
  {| cfg := cfg self; env := env self; env_state := env_state self;
     n_episodes := n_episodes self; n_steps := n_steps self; n_agents := n_agents self;
     nets := n; optims := o; memory := memory self; hist := hist self;
     episode_done := episode_done self |}.

Definition set_memory (m : Memory) (self : learner) : learner :=
  {| cfg := cfg self; env := env self; env_state := env_state self;
     n_episodes := n_episodes self; n_steps := n_steps self; n_agents := n_agents self;
     nets := nets self; optims := optims self; memory := m; hist := hist self;
     episode_done := episode_done self |}.

Definition set_hist (h : history) (self : learner) : learner :=
  {| cfg := cfg self; env := env self; env_state := env_state self;
     n_episodes := n_episodes self; n_steps := n_steps self; n_agents := n_agents self;
     nets := nets self; optims := optims self; memory := memory self; hist := h;
     episode_done := episode_done self |}.

Definition set_episode_done (b : bool) (self : learner) : learner :=
  {| cfg := cfg self; env := env self; env_state := env_state self;
     n_episodes := n_episodes self; n_steps := n_steps self; n_agents := n_agents self;
     nets := nets self; optims := optims self; memory := memory self; hist := hist self;
     episode_done := Some b |}.

(** Reading an attribute that may not have been set yet. *)
Definition attr {A : Type} (a : option A) : result A :=
  match a with
  | Some x => Ok x
  | None => Raise AttributeError
  end.

(** [l[-1] = f(l[-1])]. *)
Definition update_last {A : Type} (f : A -> A) (l : list A) : result (list A) :=
  match rev l with
  | [] => Raise IndexError
  | x :: before => Ok (rev before ++ [f x])
  end.

Definition last_item {A : Type} (l : list A) : result A :=
  match rev l with
  | [] => Raise IndexError
  | x :: _ => Ok x
  end.

(** *** Construction *)

Definition make_optimizer (kind : string) (over : net_id) (lr : R) : option optimizer :=
  if (kind =? "adam")%string then
    Some {| opt_algo := Adam; opt_params := over; opt_state := new_optimizer Adam lr |}
  else if (kind =? "rmsprop")%string then
    Some {| opt_algo := RMSprop; opt_params := over; opt_state := new_optimizer RMSprop lr |}
  else None.

Definition __init__ (e : Env) (c : config) (g : Rng) : result (learner * Rng) :=
  if negb (existsb (Z.eqb (traffic_density c)) [1; 2; 3]%Z) then Raise AssertionError
  else if negb (existsb (String.eqb (reward_type c)) ["regional_R"; "global_R"]%string)
  then Raise AssertionError
  else
    let '(e, g, s) := env_reset e g in
    let a := new_actor (state_dim c) (action_dim c) in
    let q := new_critic (state_dim c) (action_dim c) in
    (* to ensure target network and learning network has the same weights *)
    let n := {| actor := a; critic := q; actor_target := a; critic_target := q |} in
    let o := {| actor_optimizer := make_optimizer (optimizer_type c) Actor (actor_lr c);
                critic_optimizer := make_optimizer (optimizer_type c) Critic (critic_lr c) |} in
    Ok ({| cfg := c; env := e; env_state := s; n_episodes := 0; n_steps := 0;
           n_agents := None; nets := n; optims := o;
           memory := new_memory (memory_capacity c);
           hist := {| episode_rewards := [0]; average_speed := [0]; epoch_steps := [0%nat];
                      cav_pos := []; hdv_pos := [] |};
           episode_done := None |}, g).

(** *** Actions and values *)

Definition _continuous_action (self : learner) (state : obs) (n : nat) : result (list vec) :=
  map_result
    (fun agent_id => s <- py_index state agent_id ;; Ok (ActorNetwork (actor (nets self)) s))
    (seq 0 n).

(** [pi + scale * np.random.randn( *pi.shape )] for every [pi] in turn. *)
Fixpoint add_noise (scale : R) (pis : list vec) (g : Rng) : list vec * Rng :=
  match pis with
  | [] => ([], g)
  | pi :: rest =>
      let '(z, g1) := randn g (length pi) in
      let '(out, g2) := add_noise scale rest g1 in
      (zip_with Rplus pi (map (Rmult scale) z) :: out, g2)
  end.

Definition exploration_action (self : learner) (state : obs) (n : nat) (g : Rng)
  : result (list vec * Rng) :=
  continuous_actions <- _continuous_action self state n ;;
  Ok (add_noise (1/2) continuous_actions g).

Definition action (self : learner) (state : obs) (n : nat) (g : Rng)
  : result (list vec * Rng) :=
  continuous_actions <- _continuous_action self state n ;;
  (* very mild noise for variability *)
  Ok (add_noise (1/100) continuous_actions g).

Definition value (self : learner) (state : obs) (act : list vec) : result vec :=
  n <- attr (n_agents self) ;;
  map_result
    (fun agent_id =>
       s <- py_index state agent_id ;;
       a <- py_index act agent_id ;;
       Ok (CriticNetwork (critic (nets self)) s a))
    (seq 0 n).

(** *** Discounting and the soft update *)

(** [rewards] is a float array at the only call site, so that
    [np.zeros_like(rewards)] is one too. The first argument is the attribute
    [self.reward_gamma], the only thing the method reads from [self]. *)
Definition _discount_reward (reward_gamma : R) (rewards : vec) (final_value : R) : vec :=
  let discounted_r := repeat 0 (length rewards) in
  snd (fold_left
         (fun '(running_add, discounted_r) t =>
            let running_add := running_add * reward_gamma + nth t rewards 0 in
            (running_add, assign discounted_r t running_add))
         (rev (seq 0 (length rewards)))
         (final_value, discounted_r)).

(** [self.copy_(src)] writes in place, so that [self] keeps its size: a
    source of one element is stretched over [self], a source of another size
    than that of [self] is refused. *)
Definition copy_ (self src : tensor) : result tensor :=
  if (length src =? length self)%nat then Ok src
  else match src with
       | [x] => Ok (repeat x (length self))
       | _ => Raise RuntimeError
       end.

(** [t.data.copy_((1. - tau) * t.data + tau * s.data)] on the data of one
    parameter. There is no test of the sizes: the sum broadcasts, so that a
    source of one element is blended into every entry of the target, sizes
    that do not broadcast raise in the sum, and a target of one element
    raises in [copy_], which cannot take the longer sum. A parameter is kept
    as its flattened data; a target and the live network it was copied from
    have equal shapes, and there the flattening loses nothing. *)
Definition copy_blend (tau : R) (t s : tensor) : result tensor :=
  blended <- broadcast Rplus (row (map (Rmult (1 - tau)) t)) (row (map (Rmult tau) s)) ;;
  copy_ t (hd [] blended).

(** The loop over [zip(target.parameters(), source.parameters())]: when one
    network has fewer parameters, the target's remaining ones stay. *)
Fixpoint soft_update_params (tau : R) (target source : params) : result params :=
  match target, source with
  | t :: target', s :: source' =>
      t' <- copy_blend tau t s ;;
      rest <- soft_update_params tau target' source' ;;
      Ok (t' :: rest)
  | _, _ => Ok target
  end.

Definition _soft_update_target (self : learner) (target source : net_id) : result learner :=
  p <- soft_update_params (target_tau (cfg self))
         (get_net target (nets self)) (get_net source (nets self)) ;;
  Ok (set_nets (set_net target p (nets self)) (optims self) self).

(** *** Rollout collection *)

(** The local variables of [interact] that outlive one pass of its loop.
    [final_state] is unbound until the first pass. *)
Record rollout : Type := {
  states : list obs;
  actions : list (list vec);
  rewards : list vec;
  done : bool;
  speed_sum : R;
  final_state : option obs
}.

(** One pass of the loop body, up to the test of [done]. *)
Definition one_step (n : nat) (self : learner) (g : Rng) (ro : rollout)
  : result (learner * Rng * rollout) :=
  let state := env_state self in
  ' (act, g) <- exploration_action self state n g ;;
  ' (e, g, (next_state, global_reward, d, info)) <- env_step (env self) g act ;;
  er <- update_last (fun x => x + global_reward) (episode_rewards (hist self)) ;;
  es <- update_last S (epoch_steps (hist self)) ;;
  reward <-
    (if (reward_type (cfg self) =? "regional_R")%string then
       match info_regional_rewards info with
       | Some r => Ok r
       | None => Raise KeyError
       end
     else if (reward_type (cfg self) =? "global_R")%string then
       Ok (repeat global_reward n)
     else Raise UnboundLocalError) ;;
  let h := {| episode_rewards := er;
              average_speed := average_speed (hist self);
              epoch_steps := es;
              cav_pos := cav_pos (hist self) ++ info_agents_info info;
              hdv_pos := hdv_pos (hist self) ++ info_hdv_info info |} in
  Ok (set_hist h (set_n_steps (S (n_steps self)) (set_env e next_state self)), g,
      {| states := states ro ++ [state];
         actions := actions ro ++ [act];
         rewards := rewards ro ++ [reward];
         done := d;
         speed_sum := speed_sum ro + info_average_speed info;
         final_state := Some next_state |}).

(** [for i in range(self.roll_out_n_steps)], left early at the end of an episode. *)
Fixpoint take_steps (i n : nat) (self : learner) (g : Rng) (ro : rollout)
  : result (learner * Rng * rollout) :=
  match i with
  | O => Ok (self, g, ro)
  | S i' =>
      ' (self, g, ro) <- one_step n self g ro ;;
      if done ro then
        let '(e, g, s) := env_reset (env self) g in
        Ok (set_env e s self, g, ro)
      else take_steps i' n self g ro
  end.

(** The branch on [done] after the loop: the value the discounting starts
    from, and the episode bookkeeping. *)
Definition bootstrap (n : nat) (self : learner) (g : Rng) (ro : rollout)
  : result (learner * Rng * vec) :=
  if done ro then
    let final_value := repeat 0 n in
    let h := hist self in
    steps_last <- last_item (epoch_steps h) ;;
    speeds <-
      (if (steps_last =? 0)%nat then Raise ZeroDivisionError
       else update_last (fun _ => speed_sum ro / INR steps_last) (average_speed h)) ;;
    let h' := {| episode_rewards := episode_rewards h ++ [0];
                 average_speed := speeds ++ [0];
                 epoch_steps := epoch_steps h ++ [0%nat];
                 cav_pos := [];
                 hdv_pos := [] |} in
    Ok (set_hist h' (set_episode_done true (set_n_episodes (S (n_episodes self)) self)),
        g, final_value)
  else
    let self := set_episode_done false self in
    fs <- match final_state ro with
          | Some s => Ok s
          | None => Raise UnboundLocalError
          end ;;
    ' (final_action, g) <- action self fs n g ;;
    final_value <- value self fs final_action ;;
    Ok (self, g, final_value).

(** [if self.reward_scale > 0: rewards = np.array(rewards) / self.reward_scale] *)
Definition scale_rewards (reward_scale : R) (rewards : list vec) : result py_rewards :=
  if Rlt_dec 0 reward_scale then
    a <- np_array rewards ;;
    Ok (NdArray (map (map (fun r => r / reward_scale)) a))
  else Ok (PyList rewards).

(** The loop over the agents that discounts the columns in place; a Python
    list does not take the index [[:, agent_id]]. *)
Definition discount_columns (reward_gamma : R) (n : nat) (final_value : vec)
  (rewards : py_rewards) : result py_rewards :=
  for_each
    (fun rewards agent_id =>
       match rewards with
       | PyList _ => Raise TypeError
       | NdArray a =>
           column_j <- get_column a agent_id ;;
           v <- py_index final_value agent_id ;;
           Ok (NdArray (set_column a agent_id (_discount_reward reward_gamma column_j v)))
       end)
    (seq 0 n) rewards.

(** [rewards.tolist()] *)
Definition tolist (rewards : py_rewards) : result (list vec) :=
  match rewards with
  | PyList _ => Raise AttributeError
  | NdArray a => Ok a
  end.

(** From the test of [self.reward_scale] to [rewards.tolist()]. *)
Definition process_rewards (c : config) (n : nat) (final_value : vec) (rewards : list vec)
  : result (list vec) :=
  scaled <- scale_rewards (reward_scale c) rewards ;;
  discounted <- discount_columns (reward_gamma c) n final_value scaled ;;
  tolist discounted.

Definition interact (self : learner) (g : Rng) : result (learner * Rng) :=
  let '(self, g) :=
    match max_steps (cfg self) with
    | Some m =>
        if (m <=? n_steps self)%nat then
          let '(e, g, s) := env_reset (env self) g in
          (set_n_steps 0 (set_env e s self), g)
        else (self, g)
    | None => (self, g)
    end in
  let ro := {| states := []; actions := []; rewards := []; done := true;
               speed_sum := 0; final_state := None |} in
  let n := controlled_vehicles (env self) in
  let self := set_n_agents n self in
  ' (self, g, ro) <- take_steps (roll_out_n_steps (cfg self)) n self g ro ;;
  ' (self, g, final_value) <- bootstrap n self g ro ;;
  as_list <- process_rewards (cfg self) n final_value (rewards ro) ;;
  Ok (set_memory (memory_push (memory self) (states ro) (actions ro) as_list) self, g).

(** *** The update *)

(** [optimizer.step()]: the optimizer rewrites the parameters it was
    constructed over, and nothing else. *)
Definition optimizer_step (o : optimizer) (grads : params) (n : networks)
  : networks * optimizer :=
  let '(p, st) := optimizer_update (opt_algo o) (opt_state o) (get_net (opt_params o) n) grads in
  (set_net (opt_params o) p n,
   {| opt_algo := opt_algo o; opt_params := opt_params o; opt_state := st |}).

(** A network applied to a batch: [B] rows in, [B] rows out. *)
Definition actor_forward (theta : params) (s : mat) : mat :=
  map (ActorNetwork theta) s.
Definition critic_forward (theta : params) (s a : mat) : mat :=
  column (zip_with (CriticNetwork theta) s a).

(** [th.sum(x, 1)]: a one-dimensional tensor with one entry per row. *)
Definition sum_dim1 (x : mat) : vec := map sum x.

(** The value of [actor_loss] in the pass of [train]'s loop for one agent, as
    a function of the live actor's parameters [theta]. [s], [a] and [r] are
    the agent's slices of the state, action and reward tensors, of shapes
    (B, state_dim), (B, action_dim) and (B, 1). *)
Definition actor_loss (c : config) (n : networks) (s a r : mat) (theta : params)
  : result R :=
  let values := critic_forward (critic_target n) s a in
  advantages <- broadcast Rminus r values ;;
  action_log_probs <- broadcast Rmult (actor_forward theta s) a ;;
  let action_log_probs := sum_dim1 action_log_probs in
  old_action_log_probs <- broadcast Rmult (actor_forward (actor_target n) s) a ;;
  let old_action_log_probs := sum_dim1 old_action_log_probs in
  difference <- broadcast Rminus (row action_log_probs) (row old_action_log_probs) ;;
  let ratio := map (map exp) difference in
  surr1 <- broadcast Rmult ratio advantages ;;
  surr2 <- broadcast Rmult
             (map (map (clamp (1 - clip_param c) (1 + clip_param c))) ratio) advantages ;;
  (* PPO's pessimistic surrogate (L^CLIP) *)
  pessimistic <- broadcast Rmin surr1 surr2 ;;
  Ok (- mean pessimistic).

(** [nn.functional.smooth_l1_loss] on one difference. *)
Definition smooth_l1 (x : R) : R :=
  if Rlt_dec (Rabs x) 1 then x * x / 2 else Rabs x - 1 / 2.

Definition critic_loss_value (c : config) (s a r : mat) (theta : params) : result R :=
  let target_values := r in
  let values := critic_forward theta s a in
  if (critic_loss c =? "huber")%string then
    d <- broadcast (fun v t => smooth_l1 (v - t)) values target_values ;; Ok (mean d)
  else
    d <- broadcast (fun v t => (v - t) * (v - t)) values target_values ;; Ok (mean d).

Definition clip_gradient (c : config) (grads : params) : params :=
  match max_grad_norm c with
  | Some m => clip_grad_norm_ grads m
  | None => grads
  end.

(** One pass of [for agent_id in range(self.n_agents)]. *)
Definition update_agent (c : config) (states_var actions_var rewards_var : list mat)
  (st : networks * optimizers) (agent_id : nat) : result (networks * optimizers) :=
  let '(n, o) := st in
  let s := agent_slice states_var agent_id in
  let a := agent_slice actions_var agent_id in
  let r := agent_slice rewards_var agent_id in
  (* update actor network *)
  actor_opt <- attr (actor_optimizer o) ;;
  _ <- actor_loss c n s a r (actor n) ;;
  let grads := clip_gradient c (backward (actor_loss c n s a r) (actor n)) in
  let '(n, actor_opt) := optimizer_step actor_opt grads n in
  (* update critic network *)
  critic_opt <- attr (critic_optimizer o) ;;
  _ <- critic_loss_value c s a r (critic n) ;;
  let grads := clip_gradient c (backward (critic_loss_value c s a r) (critic n)) in
  let '(n, critic_opt) := optimizer_step critic_opt grads n in
  Ok (n, {| actor_optimizer := Some actor_opt; critic_optimizer := Some critic_opt |}).

(** The three tensors [train] builds from the sampled batch. *)
Definition batch_tensors (self : learner) (b : batch)
  : result (list mat * list mat * list mat) :=
  n <- attr (n_agents self) ;;
  states_var <- view3 (to_tensor_var (batch_states b)) n (state_dim (cfg self)) ;;
  actions_var <- view3 (to_tensor_var (batch_actions b)) n (action_dim (cfg self)) ;;
  rewards_var <- view3 (concat (batch_rewards b)) n 1 ;;
  Ok (states_var, actions_var, rewards_var).

(** [if self.n_episodes <= self.episodes_before_train: pass] *)
Definition warm_up_check (self : learner) : unit :=
  if (Z.of_nat (n_episodes self) <=? episodes_before_train (cfg self))%Z then tt else tt.

(** The statement that ends [train]. Python computes the remainder first,
    which raises on a zero divisor. *)
Definition update_targets (self : learner) : result learner :=
  if (target_update_steps (cfg self) =? 0)%Z then Raise ZeroDivisionError
  else if ((Z.of_nat (n_episodes self) mod target_update_steps (cfg self) =? 0)
           && (0 <? Z.of_nat (n_episodes self)))%Z
  then
    self <- _soft_update_target self ActorTarget Actor ;;
    _soft_update_target self CriticTarget Critic
  else Ok self.

(** The loop over the agents. *)
Definition optimize (self : learner) (tensors : list mat * list mat * list mat)
  : result learner :=
  let '(states_var, actions_var, rewards_var) := tensors in
  n <- attr (n_agents self) ;;
  ' (nts, ops) <- for_each (update_agent (cfg self) states_var actions_var rewards_var)
                    (seq 0 n) (nets self, optims self) ;;
  Ok (set_nets nts ops self).

Definition train (self : learner) (g : Rng) : result (learner * Rng) :=
  let _ := warm_up_check self in
  let '(b, g) := memory_sample (memory self) (batch_size (cfg self)) g in
  tensors <- batch_tensors self b ;;
  self <- optimize self tensors ;;
  self <- update_targets self ;;
  Ok (self, g).

End Learner.
(** *** Checkpoints *)

Section Checkpoints.
Context {W : Collaborators} {D : Storage}.

(** [module.load_state_dict(state_dict)]: the tensors of the module take the
    loaded values; a state of another shape is refused. *)
Definition load_state_dict (module state_dict : params) : result params :=
  if list_eq_dec Nat.eq_dec (map (@length R) module) (map (@length R) state_dict)
  then Ok state_dict
  else Raise RuntimeError.

(** One pass of [for file in os.listdir(model_dir)], on the pair
    [(save_file, save_step)]. *)
Definition scan_file (found : option string * Z) (file : string)
  : result (option string * Z) :=
  let '(save_file, save_step) := found in
  if String.prefix "checkpoint" file then
    let tokens := split "-" (hd ""%string (split "." file)) in
    if negb (length tokens =? 2)%nat then Ok (save_file, save_step)
    else
      cur_step <- int (nth 1 tokens ""%string) ;;
      if (save_step <? cur_step)%Z then Ok (Some file, cur_step)
      else Ok (save_file, save_step)
  else Ok (save_file, save_step).

(** [load] returns its boolean beside the learner. The switch between
    [actor.train()] and [actor.eval()] has no counterpart here: the forward
    pass of the collaborators has one mode. *)
Definition load (self : learner) (fs : FileSystem) (model_dir : string)
  (global_step : option Z) (train_mode : bool) : result (learner * bool) :=
  save_file <-
    (if path_exists fs model_dir then
       match global_step with
       | None =>
           files <- listdir fs model_dir ;;
           ' (save_file, _) <- for_each scan_file files (None, 0%Z) ;;
           Ok save_file
       | Some global_step =>
           Ok (Some ("checkpoint-" ++ format_d global_step ++ ".pt")%string)
       end
     else Ok None) ;;
  match save_file with
  | Some save_file =>
      let file_path := (model_dir ++ save_file)%string in
      checkpoint <- th_load fs file_path ;;
      a <- load_state_dict (actor (nets self)) (model_state_dict checkpoint) ;;
      let n := set_net Actor a (nets self) in
      if train_mode then
        o <- attr (actor_optimizer (optims self)) ;;
        st <- optimizer_load_state_dict (opt_state o) (optimizer_state_dict checkpoint) ;;
        let o := {| opt_algo := opt_algo o; opt_params := opt_params o; opt_state := st |} in
        Ok (set_nets n {| actor_optimizer := Some o;
                          critic_optimizer := critic_optimizer (optims self) |} self,
            true)
      else Ok (set_nets n (optims self) self, true)
  | None => Ok (self, false)
  end.

Definition save (self : learner) (fs : FileSystem) (model_dir : string) (global_step : Z)
  : result FileSystem :=
  let file_path := (model_dir ++ "checkpoint-" ++ format_d global_step ++ ".pt")%string in
  o <- attr (actor_optimizer (optims self)) ;;
  th_save fs file_path
    {| checkpoint_global_step := global_step;
       model_state_dict := actor (nets self);
       optimizer_state_dict := opt_state o |}.

End Checkpoints.

End MAPPO.

(** * MARL/run_mappo.py *)

Module run_mappo.
Section Loop.
Context {W : Collaborators}.

(** The first two statements of the body of
    [while mappo.n_episodes < MAX_EPISODES] in [train(args)]. The evaluation
    and the checkpoint that may follow them in the same pass assign no
    network parameter and are left out. *)
Definition loop_body (EPISODES_BEFORE_TRAIN : Z) (mappo : MAPPO.learner) (g : Rng)
  : result (MAPPO.learner * Rng) :=
  ' (mappo, g) <- MAPPO.interact mappo g ;;
  if (EPISODES_BEFORE_TRAIN <=? Z.of_nat (MAPPO.n_episodes mappo))%Z
  then MAPPO.train mappo g
  else Ok (mappo, g).

End Loop.
End run_mappo.

(** * highway_env/envs/lanechange_env.py *)

Module LaneChnageMARL.

(** A float of the simulation: a number or NaN. *)
Inductive np_float : Type :=
| Num (x : R)
| NaN.

Definition isnan (x : np_float) : bool :=
  match x with
  | NaN => true
  | Num _ => false
  end.

(** What [step] reads of a controlled vehicle; [local_coordinates] stands
    for [v.lane.local_coordinates(v.position)]. *)
Record Vehicle : Type := {
  position : np_float * np_float;
  speed : np_float;
  local_coordinates : np_float * np_float;
  crashed : bool
}.

(** [np.isnan(v.position).any()] *)
Definition position_isnan (v : Vehicle) : bool :=
  isnan (fst (position v)) || isnan (snd (position v)).

(** The entries [step] adds to the [info] dictionary, beside the ones
    [BaseInfo] that [AbstractEnv.step] put there. *)
Record info (BaseInfo : Type) : Type := {
  base : BaseInfo;
  agents_dones : list bool;
  agents_info : list (list np_float);
  hdv_info : list (list np_float);
  agents_rewards : list np_float
}.

Arguments base {BaseInfo} i.
Arguments agents_dones {BaseInfo} i.
Arguments agents_info {BaseInfo} i.
Arguments hdv_info {BaseInfo} i.
Arguments agents_rewards {BaseInfo} i.

(** The environment once [super().step(action)] has returned: what it
    returned, and the attributes [step] reads afterwards. [AbstractEnv] is
    not among the sources. *)
Record stepped (BaseInfo : Type) : Type := {
  s_obs : list (list (list np_float));
  s_reward : np_float;
  s_done : bool;
  s_info : BaseInfo;
  controlled_vehicles : list Vehicle;
  steps : Z
}.

Arguments s_obs {BaseInfo} s.
Arguments s_reward {BaseInfo} s.
Arguments s_done {BaseInfo} s.
Arguments s_info {BaseInfo} s.
Arguments controlled_vehicles {BaseInfo} s.
Arguments steps {BaseInfo} s.

Section Step.
Variable BaseInfo : Type.
(** [self.config["duration"]] and [self.config["policy_frequency"]] *)
Variables duration policy_frequency : Z.
(** [self._agent_reward(action, vehicle)], whose terms come from modules
    that are not among the sources. *)
Variable _agent_reward : Vehicle -> np_float.

Definition _agent_is_terminal (e : stepped BaseInfo) (vehicle : Vehicle) : bool :=
  crashed vehicle || (duration * policy_frequency <=? steps e)%Z.

(** The loop over the controlled vehicles that fills [agent_info] and
    [local_info]. *)
Fixpoint collect_info (vs : list Vehicle) (agent_info local_info : list (list np_float))
  : result (list (list np_float) * list (list np_float)) :=
  match vs with
  | [] => Ok (agent_info, local_info)
  | v :: vs' =>
      let agent_info := agent_info ++ [[fst (position v); snd (position v); speed v]] in
      let local_coords := local_coordinates v in
      let local_info := local_info ++ [[fst local_coords; snd local_coords; speed v]] in
      if position_isnan v then Raise ValueError
      else collect_info vs' agent_info local_info
  end.

(** [np.asarray(obs).reshape((len(obs), -1))]: one row per agent; an empty
    tuple cannot be reshaped this way. *)
Definition reshape_obs (o : list (list (list np_float))) : result (list (list np_float)) :=
  match o with
  | [] => Raise ValueError
  | _ => Ok (map (@concat np_float) o)
  end.

(** [step], from the return of [super().step(action)] on. *)
Definition step (e : stepped BaseInfo)
  : result (list (list np_float) * np_float * bool * info BaseInfo) :=
  let dones := map (_agent_is_terminal e) (controlled_vehicles e) in
  ' (agent_info, local_info) <- collect_info (controlled_vehicles e) [] [] ;;
  let local_rewards := map _agent_reward (controlled_vehicles e) in
  o <- reshape_obs (s_obs e) ;;
  Ok (o, s_reward e, s_done e,
      {| base := s_info e; agents_dones := dones; agents_info := agent_info;
         hdv_info := local_info; agents_rewards := local_rewards |}).

End Step.

(** ** The episode: reward, cost and termination *)

(** Arithmetic and comparisons of floats: a NaN operand makes the result
    NaN, and every comparison with NaN false. *)
Definition np_add (x y : np_float) : np_float :=
  match x, y with
  | Num a, Num b => Num (a + b)
  | _, _ => NaN
  end.

Definition np_div (x : np_float) (d : R) : np_float :=
  match x with
  | Num a => Num (a / d)
  | NaN => NaN
  end.

Definition np_le (x y : np_float) : bool :=
  match x, y with
  | Num a, Num b => if Rle_dec a b then true else false
  | _, _ => false
  end.

Section Episode.
Variable BaseInfo : Type.
Variables duration policy_frequency : Z.
Variable _agent_reward : Vehicle -> np_float.
(** [AbstractLane.DEFAULT_WIDTH] *)
Variable DEFAULT_WIDTH : R.

(** [sum(...)] starts from the integer 0 and adds from the left; the
    quotient by [len(self.controlled_vehicles)] raises on an empty list. *)
Definition _reward (e : stepped BaseInfo) : result np_float :=
  let total := fold_left np_add (map _agent_reward (controlled_vehicles e)) (Num 0) in
  if (length (controlled_vehicles e) =? 0)%nat then Raise ZeroDivisionError
  else Ok (np_div total (INR (length (controlled_vehicles e)))).

(** [float(any(vehicle.crashed is False for vehicle in self.controlled_vehicles))] *)
Definition _cost (e : stepped BaseInfo) : R :=
  if existsb (fun vehicle => Bool.eqb (crashed vehicle) false) (controlled_vehicles e)
  then 1 else 0.

Definition _is_terminal (e : stepped BaseInfo) : bool :=
  existsb crashed (controlled_vehicles e)
  || (duration * policy_frequency <=? steps e)%Z.

Definition is_vehicle_on_road (vehicle : Vehicle) : bool :=
  if np_le (fst (position vehicle)) (Num 0) then false
  (* center of second lane is 0, so accomodate half of the lane width *)
  else if np_le (snd (position vehicle)) (Num (-0.5 * DEFAULT_WIDTH)) then false
  (* center of second lane is AbstractLane.DEFAULT_WIDTH *)
  else if np_le (Num (1.5 * DEFAULT_WIDTH)) (snd (position vehicle)) then false
  else true.

End Episode.

(** ** The initial vehicles *)

(** The entries of [self.config] that [_create_vehicles] reads. *)
Record config : Type := {
  lanes_count : Z;
  config_controlled_vehicles : Z;
  target_lane : Z;
  config_length : R
}.

(** A vehicle as [_create_vehicles] constructs it: the lane of
    [road.network.get_lane(("0", "1", lane_id))], the position that lane
    gives for the longitudinal coordinate and the lateral offset 0, and the
    speed. *)
Record created (Position : Type) : Type := {
  lane_id : Z;
  longitudinal : R;
  created_position : Position;
  created_speed : R
}.

Arguments lane_id {Position} c.
Arguments longitudinal {Position} c.
Arguments created_position {Position} c.
Arguments created_speed {Position} c.

Section CreateVehicles.
(** The state of NumPy's global generator and [np.random.rand(k)] *)
Variable Generator : Type.
Variable rand : Generator -> nat -> vec * Generator.
(** The lanes of the road network and [lane.position(longitudinal, 0)];
    [highway_env.road] is not among the sources. *)
Variables Lane Position : Type.
Variable get_lane : Z -> result Lane.
Variable lane_position : Lane -> R -> Position.
(** [Vehicle.LENGTH] *)
Variable LENGTH : R.

(** [l.pop(0)] *)
Definition pop0 {A : Type} (l : list A) : result (A * list A) :=
  match l with
  | [] => Raise IndexError
  | x :: l' => Ok (x, l')
  end.

(** The list [self.controlled_vehicles] that [_create_vehicles] builds, the
    vehicle that changes lane first. The arguments of a call of
    [self.action_type.vehicle_class] are evaluated in the order of the
    source: the lane is looked up before a list is popped. *)
Definition _create_vehicles (c : config) (g : Generator)
  : result (list (created Position) * Generator) :=
  let lane_count := lanes_count c in
  let init_spawn_length := config_length c / 3 in
  let lc_spawn_pos := init_spawn_length / 2 in
  (* initial speed with noise and location noise *)
  if (config_controlled_vehicles c <? 0)%Z then Raise ValueError
  else
    let '(draws, g) := rand g (Z.to_nat (config_controlled_vehicles c)) in
    let initial_speed := map (fun x => x * 2 + 25) draws in
    (* Add first vehicle to perform lane change *)
    let target_lane_index := target_lane c in
    (* Spwan in lane other than target lane *)
    if (lane_count =? 0)%Z then Raise ZeroDivisionError
    else
      let lc_vehicle_spwan_lane := ((target_lane_index + 1) mod lane_count)%Z in
      lane <- get_lane lc_vehicle_spwan_lane ;;
      ' (speed0, initial_speed) <- pop0 initial_speed ;;
      let lc_vehicle :=
        {| lane_id := lc_vehicle_spwan_lane; longitudinal := lc_spawn_pos;
           created_position := lane_position lane lc_spawn_pos;
           created_speed := speed0 |} in
      (* Add autonomous vehicles to follow lane *)
      let n_follow_vehicle := (config_controlled_vehicles c - 1)%Z in
      if (n_follow_vehicle <? 0)%Z then Raise ValueError
      else
        let '(spawn_points, g) := rand g (Z.to_nat n_follow_vehicle) in
        (* CAVs in behind *)
        let behind := map (fun x => x * lc_spawn_pos - 2 * LENGTH) (firstn 2 spawn_points) in
        (* CAVs front *)
        let front :=
          map (fun x => 2 * LENGTH + lc_spawn_pos + x * (init_spawn_length - lc_spawn_pos))
            (skipn 2 spawn_points) in
        ' (vehicles, _, _) <-
          for_each
            (fun '(vehicles, spawn_points, initial_speed) idx =>
               let lane_id := (Z.of_nat idx mod lane_count)%Z in
               lane <- get_lane lane_id ;;
               ' (s, spawn_points) <- pop0 spawn_points ;;
               ' (speed, initial_speed) <- pop0 initial_speed ;;
               let lane_follow_vehicle :=
                 {| lane_id := lane_id; longitudinal := s;
                    created_position := lane_position lane s;
                    created_speed := speed |} in
               Ok (vehicles ++ [lane_follow_vehicle], spawn_points, initial_speed))
            (seq 0 (Z.to_nat n_follow_vehicle))
            ([lc_vehicle], behind ++ front, initial_speed) ;;
        Ok (vehicles, g).

End CreateVehicles.
End LaneChnageMARL.

(** * A small instance of the collaborators

    Used to run the definitions on concrete inputs. The actor ignores the
    observation and returns its first parameter tensor (a network whose
    weights are zero returns a function of its output bias); the critic is
    affine in the sum of the action; every draw of the random generator is
    the number the generator holds; the environment plays a script of
    (reward, done) pairs and shows every agent the observation [0]; the
    optimizers take a plain gradient step; the memory keeps the experiences
    in order and samples the oldest ones. *)

Module Toy.

Record env : Type := {
  script : list (R * bool);
  agents : nat
}.

Definition observe (e : env) : obs := repeat [0] (agents e).

Definition reset (e : env) (g : R) : env * R * obs := (e, g, observe e).

Definition step (e : env) (g : R) (a : list vec) : result (env * R * (obs * R * bool * unit)) :=
  match script e with
  | [] => Ok (e, g, (observe e, 0, true, tt))
  | (r, d) :: rest =>
      Ok ({| script := rest; agents := agents e |}, g, (observe e, r, d, tt))
  end.

Definition actor_net (theta : params) (s : vec) : vec := nth 0 theta [].

Definition critic_net (theta : params) (s a : vec) : R :=
  nth 0 (nth 0 theta []) 0 + nth 0 (nth 1 theta []) 0 * sum a.

Definition gradient_step (lr : R) (p grads : params) : params :=
  zip_with (zip_with (fun x dx => x - lr * dx)) p grads.

Definition experience : Type := obs * list vec * vec.

Definition push (m : list experience) (s : list obs) (a : list (list vec)) (r : list vec)
  : list experience :=
  m ++ combine (combine s a) r.

Definition sample (m : list experience) (k : nat) (g : R) : batch * R :=
  let picked := firstn k m in
  ({| batch_states := map (fun x => fst (fst x)) picked;
      batch_actions := map (fun x => snd (fst x)) picked;
      batch_rewards := map snd picked |}, g).

Definition collaborators : Collaborators := {|
  ActorNetwork := actor_net;
  CriticNetwork := critic_net;
  new_actor := fun _ action_dim => [repeat 0 action_dim];
  new_critic := fun _ _ => [[0]; [0]];
  backward := fun _ theta => map (map (fun _ => 1)) theta;
  clip_grad_norm_ := fun grads _ => grads;
  OptState := R;
  new_optimizer := fun _ lr => lr;
  optimizer_update := fun _ lr p grads => (gradient_step lr p grads, lr);
  Rng := R;
  randn := fun g k => (repeat g k, g);
  Env := env;
  Info := unit;
  env_reset := reset;
  env_step := step;
  controlled_vehicles := agents;
  info_regional_rewards := fun _ => None;
  info_average_speed := fun _ => 0;
  info_agents_info := fun _ => [];
  info_hdv_info := fun _ => [];
  Memory := list experience;
  new_memory := fun _ => [];
  memory_push := push;
  memory_sample := sample
|}.

(** The configuration file's values where the examples do not depend on
    them. *)
Definition configuration (tau scale lr : R) (update_steps warm_up : Z) (n_steps : nat)
  : MAPPO.config := {|
  MAPPO.state_dim := 1;
  MAPPO.action_dim := 1;
  MAPPO.memory_capacity := 100;
  MAPPO.max_steps := None;
  MAPPO.roll_out_n_steps := n_steps;
  MAPPO.target_tau := tau;
  MAPPO.target_update_steps := update_steps;
  MAPPO.clip_param := 0.2;
  MAPPO.reward_gamma := 0.5;
  MAPPO.reward_scale := scale;
  MAPPO.critic_loss := "mse";
  MAPPO.actor_lr := lr;
  MAPPO.critic_lr := lr;
  MAPPO.optimizer_type := "rmsprop";
  MAPPO.max_grad_norm := Some 0.5;
  MAPPO.batch_size := 100;
  MAPPO.episodes_before_train := warm_up;
  MAPPO.traffic_density := 1;
  MAPPO.reward_type := "global_R"
|}.

Definition networks (a q a_target q_target : params) : MAPPO.networks := {|
  MAPPO.actor := a;
  MAPPO.critic := q;
  MAPPO.actor_target := a_target;
  MAPPO.critic_target := q_target
|}.

(** A learner as the constructor leaves it for the optimizer type
    "rmsprop", at a later point of the training: with the networks [n],
    [episodes] finished episodes, the agent count [count] and the memory
    [m]. *)
Definition learner (c : MAPPO.config) (e : env) (n : MAPPO.networks) (episodes : nat)
  (count : option nat) (m : list experience) : @MAPPO.learner collaborators :=
  @MAPPO.Build_learner collaborators c e (observe e) episodes 0 count n
    (@MAPPO.Build_optimizers collaborators
       (MAPPO.make_optimizer (MAPPO.optimizer_type c) MAPPO.Actor (MAPPO.actor_lr c))
       (MAPPO.make_optimizer (MAPPO.optimizer_type c) MAPPO.Critic (MAPPO.critic_lr c)))
    m
    {| MAPPO.episode_rewards := [0]; MAPPO.average_speed := [0];
       MAPPO.epoch_steps := [0%nat]; MAPPO.cav_pos := []; MAPPO.hdv_pos := [] |}
    None.

(** A disk for the checkpoints: the files by path, the newest first. The
    names of a directory are the paths that start with the directory's own,
    without that prefix; [int] reads decimal numerals without sign. *)
Definition disk : Type := list (string * @checkpoint collaborators).

Fixpoint read (d : disk) (path : string) : result (@checkpoint collaborators) :=
  match d with
  | [] => Raise RuntimeError
  | (p, c) :: d' => if (p =? path)%string then Ok c else read d' path
  end.

Definition names (d : disk) (dir : string) : list string :=
  map (fun pc => substring (String.length dir) (String.length (fst pc)) (fst pc))
    (filter (fun pc => String.prefix dir (fst pc)) d).

Fixpoint digits (s : string) (acc : Z) : result Z :=
  match s with
  | EmptyString => Ok acc
  | String c s' =>
      let n := nat_of_ascii c in
      if ((48 <=? n) && (n <=? 57))%nat
      then digits s' (10 * acc + Z.of_nat (n - 48))%Z
      else Raise ValueError
  end.

Definition parse (s : string) : result Z :=
  match s with
  | EmptyString => Raise ValueError
  | _ => digits s 0%Z
  end.

Definition storage : @Storage collaborators := {|
  FileSystem := disk;
  path_exists := fun d dir => existsb (fun pc => String.prefix dir (fst pc)) d;
  listdir := fun d dir => Ok (names d dir);
  th_save := fun d path c => Ok ((path, c) :: d);
  th_load := read;
  optimizer_load_state_dict := fun _ loaded => Ok loaded;
  int := parse
|}.

(** The configuration with another optimizer type. *)
Definition with_optimizer_type (kind : string) (c : MAPPO.config) : MAPPO.config := {|
  MAPPO.state_dim := MAPPO.state_dim c;
  MAPPO.action_dim := MAPPO.action_dim c;
  MAPPO.memory_capacity := MAPPO.memory_capacity c;
  MAPPO.max_steps := MAPPO.max_steps c;
  MAPPO.roll_out_n_steps := MAPPO.roll_out_n_steps c;
  MAPPO.target_tau := MAPPO.target_tau c;
  MAPPO.target_update_steps := MAPPO.target_update_steps c;
  MAPPO.clip_param := MAPPO.clip_param c;
  MAPPO.reward_gamma := MAPPO.reward_gamma c;
  MAPPO.reward_scale := MAPPO.reward_scale c;
  MAPPO.critic_loss := MAPPO.critic_loss c;
  MAPPO.actor_lr := MAPPO.actor_lr c;
  MAPPO.critic_lr := MAPPO.critic_lr c;
  MAPPO.optimizer_type := kind;
  MAPPO.max_grad_norm := MAPPO.max_grad_norm c;
  MAPPO.batch_size := MAPPO.batch_size c;
  MAPPO.episodes_before_train := MAPPO.episodes_before_train c;
  MAPPO.traffic_density := MAPPO.traffic_density c;
  MAPPO.reward_type := MAPPO.reward_type c
|}.

End Toy.

(** * Vocabulary of the properties *)

Section Vocabulary.
Context {W : Collaborators}.

(** The draws [np.random.randn( *pi.shape )] that [add_noise] makes, one per
    agent, in order. *)
Fixpoint noise_draws (pis : list vec) (g : Rng) : list vec :=
  match pis with
  | [] => []
  | pi :: rest =>
      let '(z, g1) := randn g (length pi) in
      z :: noise_draws rest g1
  end.

(** The generator after these draws. *)
Fixpoint after_draws (pis : list vec) (g : Rng) : Rng :=
  match pis with
  | [] => g
  | pi :: rest => after_draws rest (snd (randn g (length pi)))
  end.

(** The bootstrap value as the specification words it: the target critic,
    at the final state and the actor's own output there, without noise. *)
Definition target_bootstrap (self : MAPPO.learner) (final_state : obs) (n : nat)
  : result vec :=
  map_result
    (fun agent_id =>
       s <- py_index final_state agent_id ;;
       Ok (CriticNetwork (MAPPO.critic_target (MAPPO.nets self)) s
             (ActorNetwork (MAPPO.actor (MAPPO.nets self)) s)))
    (seq 0 n).

(** Both optimizers, where they exist, hold the parameters of the live
    network they are named after. *)
Definition optimizers_over_live (o : MAPPO.optimizers) : Prop :=
  (forall a, MAPPO.actor_optimizer o = Some a -> MAPPO.opt_params a = MAPPO.Actor) /\
  (forall q, MAPPO.critic_optimizer o = Some q -> MAPPO.opt_params q = MAPPO.Critic).

(** [self.n_episodes % self.target_update_steps == 0] *)
Definition modulus_condition (self : MAPPO.learner) : bool :=
  (Z.of_nat (MAPPO.n_episodes self) mod MAPPO.target_update_steps (MAPPO.cfg self) =? 0)%Z.

(** The whole test that guards the soft updates in [train]. *)
Definition target_update_due (self : MAPPO.learner) : bool :=
  modulus_condition self && (0 <? Z.of_nat (MAPPO.n_episodes self))%Z.


End Vocabulary.


(** The (batch, agent, feature) layout in which the sampled experiences
    were recorded: every experience keeps the agent axis it was stored
    with. *)
Definition recorded_layout (b : batch) : list mat * list mat * list mat :=
  (batch_states b, batch_actions b, map column (batch_rewards b)).

(** Every row has [d] entries and every joint observation has [n] rows. *)
Definition uniform (n d : nat) (x : list mat) : Prop :=
  Forall (fun m => length m = n /\ Forall (fun v => length v = d) m) x.

(** Every sampled experience was recorded with [n] agents, observations of
    [sd] features and actions of [ad] components. *)
Definition recorded_with (n sd ad : nat) (b : batch) : Prop :=
  uniform n sd (batch_states b) /\
  uniform n ad (batch_actions b) /\
  Forall (fun r => length r = n) (batch_rewards b).

Section LossVocabulary.
Context {W : Collaborators}.

(** The log-probability proxy of one sample: the network's output weighted
    by the action taken. *)
Definition log_prob_proxy (theta : params) (s a : vec) : R :=
  sum (zip_with Rmult (ActorNetwork theta s) a).

(** The importance ratio of one sample: exp(live_log_prob - target_log_prob). *)
Definition sample_ratio (n : MAPPO.networks) (theta : params) (s a : vec) : R :=
  exp (log_prob_proxy theta s a - log_prob_proxy (MAPPO.actor_target n) s a).

(** The advantage of one sample: its discounted reward minus the target
    critic's value of its state and action. *)
Definition sample_advantage (n : MAPPO.networks) (s a : vec) (r : R) : R :=
  r - CriticNetwork (MAPPO.critic_target n) s a.

Definition ratios (n : MAPPO.networks) (theta : params) (s a : mat) : vec :=
  zip_with (sample_ratio n theta) s a.

Definition advantages (n : MAPPO.networks) (s a : mat) (r : vec) : vec :=
  zip_with Rminus r (zip_with (CriticNetwork (MAPPO.critic_target n)) s a).

End LossVocabulary.

(** min(ratio * advantage, clamp(ratio, 1 - eps, 1 + eps) * advantage) *)
Definition clipped_term (eps rho adv : R) : R :=
  Rmin (rho * adv) (clamp (1 - eps) (1 + eps) rho * adv).

(** The clipped surrogate loss as the specification words it, PPO's L^CLIP:
    the mean over the samples of the clipped term of each sample's own ratio
    and advantage, negated. *)
Definition clipped_surrogate (eps : R) (ratio advantage : vec) : R :=
  - (sum (zip_with (clipped_term eps) ratio advantage) / INR (length ratio)).

(** The mean over every pair of a ratio and an advantage, negated. *)
Definition pairwise_surrogate (eps : R) (ratio advantage : vec) : R :=
  - mean (map (fun adv => map (fun rho => clipped_term eps rho adv) ratio) advantage).

(** Two networks that have drifted apart: the live actor puts 0.5 on the
    action, its target 0.25; the target critic values everything at 0. *)
Definition drifted : MAPPO.networks :=
  Toy.networks [[0.5]] [[0]; [0]] [[0.25]] [[0]; [0]].

(** * Further vocabulary: shapes, columns and the state of the discounting loop *)

(** The state of the loop of [_discount_reward] once the indices below [k]
    have been visited, from the state [(running_add, discounted_r)]. *)
Definition discount_from (gamma : R) (rewards : vec) (k : nat) (running_add : R)
  (discounted_r : vec) : vec :=
  snd (fold_left
         (fun '(running_add, discounted_r) t =>
            let running_add := running_add * gamma + nth t rewards 0 in
            (running_add, assign discounted_r t running_add))
         (rev (seq 0 k))
         (running_add, discounted_r)).

(** Two networks with the same number of parameters, of the same sizes. *)
Definition same_shape (p q : params) : Prop :=
  Forall2 (fun t s => length t = length s) p q.

(** The new value of one entry of a target parameter. *)
Definition blend (tau : R) (t s : R) : R := (1 - tau) * t + tau * s.

(** Column [j] of a two-dimensional array. *)
Definition col (a : list vec) (j : nat) : vec := map (fun r => nth j r 0) a.

(** Every row has [w] entries. *)
Definition rectangular (w : nat) (a : list vec) : Prop :=
  Forall (fun r => length r = w) a.

(** * Further vocabulary: returns, episode statistics and checkpoint names *)

(** The sum over k < len(l) of gamma^k * l[k]. *)
Definition power_sum (gamma : R) (l : vec) : R :=
  sum (map (fun k => gamma ^ k * nth k l 0) (seq 0 (length l))).

Section HistoryVocabulary.
Context {W : Collaborators}.

(** The three per-episode lists hold one entry for every finished episode
    and one for the episode in progress. *)
Definition history_aligned (self : MAPPO.learner) : Prop :=
  length (MAPPO.episode_rewards (MAPPO.hist self)) = S (MAPPO.n_episodes self) /\
  length (MAPPO.average_speed (MAPPO.hist self)) = S (MAPPO.n_episodes self) /\
  length (MAPPO.epoch_steps (MAPPO.hist self)) = S (MAPPO.n_episodes self).


(** The loop of [interact] on its own: the learner, the generator and the
    local variables when the loop is left. [interact] starts every call
    with empty lists and the speed sum 0. *)
Definition collected_rollout (self : MAPPO.learner) (g : Rng)
  : result (MAPPO.learner * Rng * MAPPO.rollout) :=
  let '(self, g) :=
    match MAPPO.max_steps (MAPPO.cfg self) with
    | Some m =>
        if (m <=? MAPPO.n_steps self)%nat then
          let '(e, g, s) := env_reset (MAPPO.env self) g in
          (MAPPO.set_n_steps 0 (MAPPO.set_env e s self), g)
        else (self, g)
    | None => (self, g)
    end in
  let n := controlled_vehicles (MAPPO.env self) in
  MAPPO.take_steps (MAPPO.roll_out_n_steps (MAPPO.cfg self)) n (MAPPO.set_n_agents n self) g
    {| MAPPO.states := []; MAPPO.actions := []; MAPPO.rewards := []; MAPPO.done := true;
       MAPPO.speed_sum := 0; MAPPO.final_state := None |}.

End HistoryVocabulary.

Section CheckpointVocabulary.
Context {W : Collaborators} {D : Storage}.

(** The step [load] reads off a file name of the model directory: [None]
    for a name it passes over, the result of [int] on the second token
    otherwise. *)
Definition checkpoint_step (file : string) : option (result Z) :=
  if String.prefix "checkpoint" file then
    let tokens := split "-" (hd ""%string (split "." file)) in
    if (length tokens =? 2)%nat then Some (int (nth 1 tokens ""%string)) else None
  else None.

End CheckpointVocabulary.

(** * Inputs of the examples *)

(** A rollout of one agent that stopped after one step without reaching the
    end of the episode. *)
Definition unfinished_rollout : MAPPO.rollout := {|
  MAPPO.states := [[[0]]];
  MAPPO.actions := [[[0.5]]];
  MAPPO.rewards := [[0]];
  MAPPO.done := false;
  MAPPO.speed_sum := 0;
  MAPPO.final_state := Some [[0]]
|}.

(** The learner right after construction (the two critics are equal), with
    an actor whose output is 0.5, one agent, and normal draws equal to 1. *)
Definition fresh_learner : @MAPPO.learner Toy.collaborators :=
  Toy.learner (Toy.configuration 0.25 20 0 5 0 1) {| Toy.script := []; Toy.agents := 1 |}
    (Toy.networks [[0.5]] [[0]; [1]] [[0.5]] [[0]; [1]]) 0 (Some 1%nat) [].

(** The same learner once the live critic has moved away from its target. *)
Definition trained_learner : @MAPPO.learner Toy.collaborators :=
  Toy.learner (Toy.configuration 0.25 20 0 5 0 1) {| Toy.script := []; Toy.agents := 1 |}
    (Toy.networks [[0.5]] [[1]; [0]] [[0.5]] [[0]; [0]]) 0 (Some 1%nat) [].

(** A vehicle on the road at 25 m/s. *)
Definition sound_vehicle : LaneChnageMARL.Vehicle := {|
  LaneChnageMARL.position := (LaneChnageMARL.Num 10, LaneChnageMARL.Num 4);
  LaneChnageMARL.speed := LaneChnageMARL.Num 25;
  LaneChnageMARL.local_coordinates := (LaneChnageMARL.Num 10, LaneChnageMARL.Num 0);
  LaneChnageMARL.crashed := false
|}.

(** A vehicle whose longitudinal position has become NaN. *)
Definition lost_vehicle : LaneChnageMARL.Vehicle := {|
  LaneChnageMARL.position := (LaneChnageMARL.NaN, LaneChnageMARL.Num 4);
  LaneChnageMARL.speed := LaneChnageMARL.Num 25;
  LaneChnageMARL.local_coordinates := (LaneChnageMARL.NaN, LaneChnageMARL.Num 0);
  LaneChnageMARL.crashed := false
|}.

(** The environment after [super().step]: one controlled vehicle [v], whose
    observation is the single feature [x]. *)
Definition after_super_step (v : LaneChnageMARL.Vehicle) (x : LaneChnageMARL.np_float)
  : LaneChnageMARL.stepped unit := {|
  LaneChnageMARL.s_obs := [[[x]]];
  LaneChnageMARL.s_reward := LaneChnageMARL.Num 1;
  LaneChnageMARL.s_done := false;
  LaneChnageMARL.s_info := tt;
  LaneChnageMARL.controlled_vehicles := [v];
  LaneChnageMARL.steps := 1
|}.

(** One experience recorded while two agents were controlled. *)
Definition two_agent_batch : batch := {|
  batch_states := [[[1]; [2]]];
  batch_actions := [[[3]; [4]]];
  batch_rewards := [[5; 6]]
|}.

(** A learner whose latest rollout controlled one agent, respectively two. *)
Definition learner_of_count (count : nat) : @MAPPO.learner Toy.collaborators :=
  Toy.learner (Toy.configuration 0.25 20 0 5 0 1) {| Toy.script := []; Toy.agents := count |}
    (Toy.networks [[0.5]] [[0]; [0]] [[0.5]] [[0]; [0]]) 1 (Some count) [].

(** The memory after one step of one agent. *)
Definition one_experience : list Toy.experience := [([[0]], [[0.5]], [1])].

(** A learner with one agent, learning rates 0.5, tau = 1 and
    [target_update_steps] = 5, after [episodes] finished episodes. Its live
    actor (1.0) has moved away from its target (0.0). *)
Definition learner_after (episodes : nat) (warm_up : Z) : @MAPPO.learner Toy.collaborators :=
  Toy.learner (Toy.configuration 1 20 0.5 5 warm_up 1) {| Toy.script := []; Toy.agents := 1 |}
    (Toy.networks [[1]] [[0]; [0]] [[0]] [[0]; [0]]) episodes (Some 1%nat) one_experience.

(** A learner before its first episode, in an environment whose next step
    ends the episode with the reward 20. *)
Definition learner_at_start (warm_up : Z) : @MAPPO.learner Toy.collaborators :=
  Toy.learner (Toy.configuration 1 20 0.5 5 warm_up 1)
    {| Toy.script := [(20, true)]; Toy.agents := 1 |}
    (Toy.networks [[1]] [[0]; [0]] [[0]] [[0]; [0]]) 0 None [].

(** A learner before its first episode, with [reward_scale] = 20, in an
    environment whose next two steps give the reward 20 each and end the
    episode; a rollout has two steps. *)
Definition learner_of_two_steps : @MAPPO.learner Toy.collaborators :=
  Toy.learner (Toy.configuration 1 20 0.5 5 0 2)
    {| Toy.script := [(20, false); (20, true)]; Toy.agents := 1 |}
    (Toy.networks [[1]] [[0]; [0]] [[0]] [[0]; [0]]) 0 None [].

(** The same learner with [reward_scale] = 0. *)
Definition learner_without_reward_scale : @MAPPO.learner Toy.collaborators :=
  Toy.learner (Toy.configuration 1 0 0.5 5 0 2)
    {| Toy.script := [(20, false); (20, true)]; Toy.agents := 1 |}
    (Toy.networks [[1]] [[0]; [0]] [[0]] [[0]; [0]]) 0 None [].

(** A checkpoint of an actor with the single parameter [a]. *)
Definition checkpoint_of (step : Z) (a : R) : @checkpoint Toy.collaborators :=
  @Build_checkpoint Toy.collaborators step [[a]] (0.5 : R).

(** A model directory with checkpoints of the steps 5, 12 and 0 and two
    files that [load] passes over. *)
Definition model_disk : Toy.disk := [
  ("models/checkpoint-5.pt"%string, checkpoint_of 5 0.75);
  ("models/checkpoint-12.pt"%string, checkpoint_of 12 0.25);
  ("models/checkpoint-0.pt"%string, checkpoint_of 0 0.125);
  ("models/checkpoint-3-1.pt"%string, checkpoint_of 31 0.625);
  ("models/notes.txt"%string, checkpoint_of 99 0.875)
].

(** The same directory with one more file, whose step is not a number. *)
Definition disk_with_final : Toy.disk :=
  ("models/checkpoint-final.pt"%string, checkpoint_of 13 0.5) :: model_disk.

(** A vehicle that has crashed. *)
Definition crashed_vehicle : LaneChnageMARL.Vehicle := {|
  LaneChnageMARL.position := (LaneChnageMARL.Num 10, LaneChnageMARL.Num 4);
  LaneChnageMARL.speed := LaneChnageMARL.Num 0;
  LaneChnageMARL.local_coordinates := (LaneChnageMARL.Num 10, LaneChnageMARL.Num 0);
  LaneChnageMARL.crashed := true
|}.

(** The environment's default configuration: two lanes of 300 m, five
    controlled vehicles, the target lane 0. *)
Definition default_config : LaneChnageMARL.config := {|
  LaneChnageMARL.lanes_count := 2;
  LaneChnageMARL.config_controlled_vehicles := 5;
  LaneChnageMARL.target_lane := 0;
  LaneChnageMARL.config_length := 300
|}.

(** The same road without any controlled vehicle. *)
Definition empty_config : LaneChnageMARL.config := {|
  LaneChnageMARL.lanes_count := 2;
  LaneChnageMARL.config_controlled_vehicles := 0;
  LaneChnageMARL.target_lane := 0;
  LaneChnageMARL.config_length := 300
|}.

(** A generator whose every uniform draw is 1/2, and a road whose lanes are
    their indices, 4 m apart. *)
Definition half (g : unit) (k : nat) : vec * unit := (repeat (1 / 2) k, g).
Definition lane_of_index (i : Z) : result Z := Ok i.
Definition position_on_lane (lane : Z) (s : R) : R * R := (s, 4 * IZR lane).

(** Decides every [Rmin] and [Rmax] of a goal by cases. *)
Ltac eval_min_max :=
  unfold Rmin, Rmax; repeat (destruct (Rle_dec _ _)); try lra.

(* ================================================================== *)
(** * Properties *)

(** ** Lists and arrays *)

Lemma assign_length {A : Type} (l : list A) (i : nat) (v : A) :
  length (assign l i v) = length l.
Proof.
  revert i; induction l as [|x l IH]; intros [|i]; simpl; auto.
Qed.

Lemma nth_assign_same {A : Type} (l : list A) (i : nat) (v d : A) :
  (i < length l)%nat -> nth i (assign l i v) d = v.
Proof.
  revert i; induction l as [|x l IH]; intros [|i] H; simpl in *; try lia; auto.
  apply IH; lia.
Qed.

Lemma nth_assign_other {A : Type} (l : list A) (i t : nat) (v d : A) :
  t <> i -> nth t (assign l i v) d = nth t l d.
Proof.
  revert i t; induction l as [|x l IH]; intros [|i] [|t] H; simpl; auto; try lia.
Qed.

(** ** The discounted return *)

Section DiscountLoop.
Variables (gamma : R) (rewards : vec).

Lemma discount_from_S (k : nat) (ra : R) (d : vec) :
  discount_from gamma rewards (S k) ra d =
  discount_from gamma rewards k (ra * gamma + nth k rewards 0) (assign d k (ra * gamma + nth k rewards 0)).
Proof.
  unfold discount_from. rewrite seq_S, rev_unit. reflexivity.
Qed.

Lemma discount_from_spec (k : nat) :
  forall (ra : R) (d : vec),
    (k <= length d)%nat ->
    length (discount_from gamma rewards k ra d) = length d /\
    (forall t, (k <= t)%nat -> nth t (discount_from gamma rewards k ra d) 0 = nth t d 0) /\
    (forall t, (t < k)%nat ->
       nth t (discount_from gamma rewards k ra d) 0 =
       nth t rewards 0 + gamma * (if (S t <? k)%nat then nth (S t) (discount_from gamma rewards k ra d) 0 else ra)).
Proof.
  induction k as [|k IH]; intros ra d Hk.
  - unfold discount_from; simpl. repeat split; auto. intros t Ht; lia.
  - rewrite discount_from_S.
    set (ra' := ra * gamma + nth k rewards 0).
    destruct (IH ra' (assign d k ra')) as (Hlen & Hkeep & Hrec).
    { rewrite assign_length; lia. }
    rewrite assign_length in Hlen.
    split; [exact Hlen|]. split.
    + intros t Ht. rewrite Hkeep by lia. apply nth_assign_other; lia.
    + intros t Ht.
      destruct (Nat.eq_dec t k) as [->|Hne].
      * rewrite Hkeep by lia. rewrite nth_assign_same by lia.
        replace (S k <? S k)%nat with false by (symmetry; apply Nat.ltb_irrefl).
        unfold ra'; ring.
      * rewrite Hrec by lia.
        destruct (S t <? k)%nat eqn:E1.
        -- replace (S t <? S k)%nat with true; [reflexivity|].
           symmetry; apply Nat.ltb_lt. apply Nat.ltb_lt in E1. lia.
        -- apply Nat.ltb_ge in E1. assert (S t = k) as <- by lia.
           replace (S t <? S (S t))%nat with true by (symmetry; apply Nat.ltb_lt; lia).
           rewrite Hkeep by lia. rewrite nth_assign_same by lia. reflexivity.
Qed.

End DiscountLoop.

(** C1. For every reward sequence, discount factor and bootstrap value, the
    array returned by [_discount_reward] has one entry per reward, satisfies
    R_t = r_t + gamma * R_{t+1} below the last index and
    R_last = r_last + gamma * final_value at the last one; on the rewards
    [1, 1, 1] with gamma = 0.5 and bootstrap 0 it is [1.75, 1.5, 1.0]. *)
Theorem discount_reward_recurrence :
  forall (gamma : R) (rewards : vec) (final_value : R),
    length (MAPPO._discount_reward gamma rewards final_value) = length rewards /\
    (forall t, (S t < length rewards)%nat ->
       nth t (MAPPO._discount_reward gamma rewards final_value) 0 =
       nth t rewards 0 + gamma * nth (S t) (MAPPO._discount_reward gamma rewards final_value) 0) /\
    (forall t, S t = length rewards ->
       nth t (MAPPO._discount_reward gamma rewards final_value) 0 =
       nth t rewards 0 + gamma * final_value) /\
    MAPPO._discount_reward 0.5 [1; 1; 1] 0 = [1.75; 1.5; 1.0].
Proof.
  intros gamma rewards final_value.
  change (MAPPO._discount_reward gamma rewards final_value)
    with (discount_from gamma rewards (length rewards) final_value (repeat 0 (length rewards))).
  destruct (discount_from_spec gamma rewards (length rewards) final_value
              (repeat 0 (length rewards))) as (Hlen & _ & Hrec).
  { rewrite repeat_length; lia. }
  rewrite repeat_length in Hlen.
  split; [exact Hlen|]. split; [|split].
  - intros t Ht. rewrite Hrec by lia.
    replace (S t <? length rewards)%nat with true by (symmetry; apply Nat.ltb_lt; lia).
    reflexivity.
  - intros t Ht. rewrite Hrec by lia.
    replace (S t <? length rewards)%nat with false by (symmetry; apply Nat.ltb_ge; lia).
    reflexivity.
  - unfold MAPPO._discount_reward; simpl. repeat (f_equal; try lra).
Qed.

(** The recurrence at the first step of the three-step scenario. *)
Lemma discount_reward_recurrence_witness :
  (1 < length [1; 1; 1])%nat /\
  nth 0 (MAPPO._discount_reward 0.5 [1; 1; 1] 0) 0 =
  nth 0 [1; 1; 1] 0 + 0.5 * nth 1 (MAPPO._discount_reward 0.5 [1; 1; 1] 0) 0.
Proof.
  assert (H : (1 < length [1; 1; 1])%nat) by (simpl; lia).
  split; [exact H|].
  exact (proj1 (proj2 (discount_reward_recurrence 0.5 [1; 1; 1] 0)) 0%nat H).
Defined.

(** ** The soft update *)

Lemma zip_with_ext {A B C : Type} (f g : A -> B -> C) (l : list A) (m : list B) :
  (forall a b, f a b = g a b) -> zip_with f l m = zip_with g l m.
Proof.
  intros H. revert m; induction l as [|a l IH]; intros [|b m]; simpl; auto.
  rewrite H, IH; reflexivity.
Qed.

Lemma zip_with_fst {A B : Type} (l : list A) (m : list B) :
  length l = length m -> zip_with (fun a _ => a) l m = l.
Proof.
  revert m; induction l as [|a l IH]; intros [|b m] H; simpl in *; try discriminate; auto.
  f_equal; apply IH; lia.
Qed.

Lemma zip_with_snd {A B : Type} (l : list A) (m : list B) :
  length l = length m -> zip_with (fun _ b => b) l m = m.
Proof.
  revert m; induction l as [|a l IH]; intros [|b m] H; simpl in *; try discriminate; auto.
  f_equal; apply IH; lia.
Qed.

Lemma stretch_whole (v : vec) (c : nat) :
  length v = c -> match v with [x] => repeat x c | _ => v end = v.
Proof. intros <-. destruct v as [|x [|y v]]; reflexivity. Qed.

Lemma zip_with_scaled_sum (a b : R) (t s : vec) :
  zip_with Rplus (map (Rmult a) t) (map (Rmult b) s) =
  zip_with (fun x y => a * x + b * y) t s.
Proof.
  revert s; induction t as [|x t IH]; intros [|y s]; simpl; auto.
  rewrite IH. reflexivity.
Qed.

Lemma zip_with_same_length {A B C : Type} (f : A -> B -> C) (l : list A) (m : list B) :
  length l = length m -> length (zip_with f l m) = length l.
Proof.
  revert m; induction l as [|a l IH]; intros [|b m] H; simpl in *; try discriminate; auto.
Qed.

(** The sum of two tensors of one dimension, as [broadcast] computes it. *)
Lemma broadcast_rows (f : R -> R -> R) (u v : vec) :
  broadcast f (row u) (row v) =
  match broadcast_dim (length u) (length v) with
  | Some c =>
      Ok [zip_with f (match u with [x] => repeat x c | _ => u end)
                     (match v with [x] => repeat x c | _ => v end)]
  | None => Raise RuntimeError
  end.
Proof.
  unfold broadcast, row, n_rows, n_cols. simpl.
  destruct (broadcast_dim (length u) (length v)); reflexivity.
Qed.

(** On tensors of equal size the soft update of one parameter is the
    entrywise blend. *)
Lemma copy_blend_same_size (tau : R) (t s : tensor) :
  length t = length s ->
  MAPPO.copy_blend tau t s = Ok (zip_with (blend tau) t s).
Proof.
  intros Hlen. unfold MAPPO.copy_blend. rewrite broadcast_rows.
  rewrite !length_map, <- Hlen. unfold broadcast_dim. rewrite Nat.eqb_refl.
  rewrite !stretch_whole by (rewrite length_map; auto).
  rewrite zip_with_scaled_sum. simpl. unfold MAPPO.copy_.
  rewrite (zip_with_same_length _ t s Hlen), Nat.eqb_refl. reflexivity.
Qed.

Lemma soft_update_params_same_shape (tau : R) (target source : params) :
  same_shape target source ->
  MAPPO.soft_update_params tau target source =
  Ok (zip_with (zip_with (blend tau)) target source).
Proof.
  induction 1 as [|t s target source Hlen _ IH]; simpl; [reflexivity|].
  rewrite (copy_blend_same_size tau t s Hlen). simpl.
  rewrite IH. reflexivity.
Qed.

Lemma blend_zero_keeps (target source : params) :
  same_shape target source -> zip_with (zip_with (blend 0)) target source = target.
Proof.
  induction 1 as [|t s target source Hlen _ IH]; simpl; [reflexivity|].
  rewrite IH. f_equal.
  rewrite (zip_with_ext (blend 0) (fun a _ => a)) by (intros; unfold blend; ring).
  apply zip_with_fst; exact Hlen.
Qed.

Lemma blend_one_replaces (target source : params) :
  same_shape target source -> zip_with (zip_with (blend 1)) target source = source.
Proof.
  induction 1 as [|t s target source Hlen _ IH]; simpl; [reflexivity|].
  rewrite IH. f_equal.
  rewrite (zip_with_ext (blend 1) (fun _ b => b)) by (intros; unfold blend; ring).
  apply zip_with_snd; exact Hlen.
Qed.

Lemma get_set_net_same (i : MAPPO.net_id) (p : params) (n : MAPPO.networks) :
  MAPPO.get_net i (MAPPO.set_net i p n) = p.
Proof. destruct i; reflexivity. Qed.

Lemma get_set_net_other (i j : MAPPO.net_id) (p : params) (n : MAPPO.networks) :
  i <> j -> MAPPO.get_net j (MAPPO.set_net i p n) = MAPPO.get_net j n.
Proof. destruct i, j; intros H; try reflexivity; contradiction H; reflexivity. Qed.

(** C3. One call of [_soft_update_target] on a target network and a live
    network of the same shape succeeds and sets every entry of every target
    parameter to (1 - tau) * t + tau * s, leaving the other networks alone;
    with tau = 0 the target is unchanged, with tau = 1 it becomes the live
    network; and with live 1.0, target 0.0 and tau = 0.25 the target is 0.25
    after one update and 0.4375 after a second one. *)
Theorem soft_update_target_blend :
  forall (W : Collaborators) (self : MAPPO.learner) (target source : MAPPO.net_id),
    same_shape (MAPPO.get_net target (MAPPO.nets self))
               (MAPPO.get_net source (MAPPO.nets self)) ->
    (exists self',
        MAPPO._soft_update_target self target source = Ok self' /\
        MAPPO.get_net target (MAPPO.nets self') =
          zip_with (zip_with (fun t s => (1 - MAPPO.target_tau (MAPPO.cfg self)) * t
                                         + MAPPO.target_tau (MAPPO.cfg self) * s))
            (MAPPO.get_net target (MAPPO.nets self))
            (MAPPO.get_net source (MAPPO.nets self)) /\
        (forall other, target <> other ->
           MAPPO.get_net other (MAPPO.nets self') = MAPPO.get_net other (MAPPO.nets self)) /\
        (MAPPO.target_tau (MAPPO.cfg self) = 0 ->
           MAPPO.get_net target (MAPPO.nets self') = MAPPO.get_net target (MAPPO.nets self)) /\
        (MAPPO.target_tau (MAPPO.cfg self) = 1 ->
           MAPPO.get_net target (MAPPO.nets self') = MAPPO.get_net source (MAPPO.nets self))) /\
    MAPPO.soft_update_params 0.25 [[0.0]] [[1.0]] = Ok [[0.25]] /\
    MAPPO.soft_update_params 0.25 [[0.25]] [[1.0]] = Ok [[0.4375]].
Proof.
  intros W self target source Hshape. split.
  - unfold MAPPO._soft_update_target.
    rewrite (soft_update_params_same_shape _ _ _ Hshape). simpl.
    eexists; split; [reflexivity|]. simpl.
    rewrite get_set_net_same.
    split; [reflexivity|]. split; [|split].
    + intros other Hother. apply get_set_net_other; exact Hother.
    + intros Htau. fold (blend (MAPPO.target_tau (MAPPO.cfg self))).
      rewrite Htau. apply blend_zero_keeps; exact Hshape.
    + intros Htau. fold (blend (MAPPO.target_tau (MAPPO.cfg self))).
      rewrite Htau. apply blend_one_replaces; exact Hshape.
  - unfold MAPPO.soft_update_params.
    rewrite !copy_blend_same_size by reflexivity. unfold blend. simpl.
    split; repeat (f_equal; try lra).
Qed.

(** The target-update scenario on a learner: actor 1.0, target actor 0.0,
    tau = 0.25. *)
Lemma soft_update_target_blend_witness :
  same_shape [[0.0]] [[1.0]] /\
  exists self',
    MAPPO._soft_update_target
      (Toy.learner (Toy.configuration 0.25 20 0 5 0 1) {| Toy.script := []; Toy.agents := 1 |}
         (Toy.networks [[1.0]] [[0]; [0]] [[0.0]] [[0]; [0]]) 0 None [])
      MAPPO.ActorTarget MAPPO.Actor = Ok self' /\
    MAPPO.actor_target (MAPPO.nets self') = [[0.25]].
Proof.
  assert (Hshape : same_shape [[0.0]] [[1.0]]) by (repeat constructor).
  split; [exact Hshape|].
  destruct (soft_update_target_blend Toy.collaborators
              (Toy.learner (Toy.configuration 0.25 20 0 5 0 1)
                 {| Toy.script := []; Toy.agents := 1 |}
                 (Toy.networks [[1.0]] [[0]; [0]] [[0.0]] [[0]; [0]]) 0 None [])
              MAPPO.ActorTarget MAPPO.Actor Hshape) as [[self' [Hrun [Hval _]]] _].
  exists self'. split; [exact Hrun|].
  simpl in Hval. rewrite Hval. repeat (f_equal; try lra).
Defined.

(** ** Columns of a reward array *)

Lemma py_index_nth {A : Type} (l : list A) (i : nat) (d : A) :
  (i < length l)%nat -> py_index l i = Ok (nth i l d).
Proof.
  intros H. unfold py_index.
  rewrite (nth_error_nth' l d H). reflexivity.
Qed.

Lemma get_column_ok (w : nat) (a : list vec) (j : nat) :
  a <> [] -> rectangular w a -> (j < w)%nat -> get_column a j = Ok (col a j).
Proof.
  intros Hne Hrect Hj. unfold get_column.
  destruct a as [|r0 a0] eqn:Ea; [contradiction|]. rewrite <- Ea in *.
  clear Ea Hne r0 a0.
  induction Hrect as [|r a Hr _ IH]; simpl; [reflexivity|].
  rewrite (py_index_nth r j 0) by lia. simpl. rewrite IH. reflexivity.
Qed.

Lemma set_column_length (a : list vec) (j : nat) (c : vec) :
  length c = length a -> length (set_column a j c) = length a.
Proof.
  unfold set_column. revert c; induction a as [|r a IH]; intros [|v c] H;
    simpl in *; try discriminate; auto.
Qed.

Lemma set_column_rectangular (w : nat) (a : list vec) (j : nat) (c : vec) :
  rectangular w a -> rectangular w (set_column a j c).
Proof.
  unfold set_column. intros H. revert c.
  induction H as [|r a Hr _ IH]; intros [|v c]; simpl; try constructor.
  - rewrite assign_length; exact Hr.
  - apply IH.
Qed.

Lemma col_set_column_other (a : list vec) (j j' : nat) (c : vec) :
  j <> j' -> length c = length a -> col (set_column a j c) j' = col a j'.
Proof.
  unfold col, set_column. intros Hne. revert c.
  induction a as [|r a IH]; intros [|v c] H; simpl in *; try discriminate; auto.
  rewrite nth_assign_other by auto. f_equal. apply IH; lia.
Qed.

Lemma col_set_column_same (w : nat) (a : list vec) (j : nat) (c : vec) :
  rectangular w a -> (j < w)%nat -> length c = length a ->
  col (set_column a j c) j = c.
Proof.
  unfold col, set_column. intros Hrect Hj. revert c.
  induction Hrect as [|r a Hr _ IH]; intros [|v c] H; simpl in *; try discriminate; auto.
  rewrite nth_assign_same by lia. f_equal. apply IH; lia.
Qed.

Lemma discount_reward_length (gamma : R) (rewards : vec) (final_value : R) :
  length (MAPPO._discount_reward gamma rewards final_value) = length rewards.
Proof.
  change (MAPPO._discount_reward gamma rewards final_value)
    with (discount_from gamma rewards (length rewards) final_value (repeat 0 (length rewards))).
  destruct (discount_from_spec gamma rewards (length rewards) final_value
              (repeat 0 (length rewards))) as (Hlen & _).
  { rewrite repeat_length; lia. }
  rewrite Hlen. apply repeat_length.
Qed.

Lemma col_length (a : list vec) (j : nat) : length (col a j) = length a.
Proof. apply length_map. Qed.

(** The loop of [interact] over the agents, started at column [k] for [m]
    columns: those columns are discounted, each from its own entry of
    [final_value], and the others are left as they were. *)
Lemma discount_columns_from (gamma : R) (final_value : vec) (w m : nat) :
  forall (k : nat) (a : list vec),
    a <> [] -> rectangular w a -> (k + m <= w)%nat -> (k + m <= length final_value)%nat ->
    exists a',
      for_each
        (fun rewards agent_id =>
           match rewards with
           | PyList _ => Raise TypeError
           | NdArray a =>
               column_j <- get_column a agent_id ;;
               v <- py_index final_value agent_id ;;
               Ok (NdArray (set_column a agent_id (MAPPO._discount_reward gamma column_j v)))
           end)
        (seq k m) (NdArray a) = Ok (NdArray a') /\
      length a' = length a /\
      rectangular w a' /\
      forall j, (j < w)%nat ->
        col a' j =
        if ((k <=? j) && (j <? k + m))%nat
        then MAPPO._discount_reward gamma (col a j) (nth j final_value 0)
        else col a j.
Proof.
  induction m as [|m IH]; intros k a Hne Hrect Hw Hfv.
  - exists a. simpl. repeat split; auto.
    intros j Hj. destruct (k <=? j)%nat eqn:E; simpl; [|reflexivity].
    apply Nat.leb_le in E.
    replace (j <? k + 0)%nat with false; [reflexivity|].
    symmetry; apply Nat.ltb_ge; lia.
  - simpl.
    rewrite (get_column_ok w a k Hne Hrect) by lia. simpl.
    rewrite (py_index_nth final_value k 0) by lia. simpl.
    set (a1 := set_column a k (MAPPO._discount_reward gamma (col a k) (nth k final_value 0))).
    assert (Hlen1 : length a1 = length a).
    { apply set_column_length. rewrite discount_reward_length. apply col_length. }
    destruct (IH (S k) a1) as (a' & Hrun & Hlen & Hrect' & Hcols).
    + intros E. rewrite E in Hlen1. destruct a; [contradiction|discriminate].
    + apply set_column_rectangular; exact Hrect.
    + lia.
    + lia.
    + exists a'. split; [exact Hrun|]. split; [lia|]. split; [exact Hrect'|].
      intros j Hj. rewrite (Hcols j Hj).
      destruct (Nat.eq_dec j k) as [->|Hjk].
      * replace (S k <=? k)%nat with false by (symmetry; apply Nat.leb_gt; lia).
        replace (k <=? k)%nat with true by (symmetry; apply Nat.leb_refl).
        replace (k <? k + S m)%nat with true by (symmetry; apply Nat.ltb_lt; lia).
        simpl. unfold a1. apply (col_set_column_same w); auto.
        rewrite discount_reward_length. apply col_length.
      * assert (Hcol : col a1 j = col a j).
        { unfold a1. apply col_set_column_other; [lia|].
          rewrite discount_reward_length. apply col_length. }
        rewrite Hcol.
        replace (k + S m)%nat with (S k + m)%nat by lia.
        destruct (S k <=? j)%nat eqn:E1.
        -- apply Nat.leb_le in E1.
           replace (k <=? j)%nat with true by (symmetry; apply Nat.leb_le; lia).
           reflexivity.
        -- apply Nat.leb_gt in E1.
           replace (k <=? j)%nat with false by (symmetry; apply Nat.leb_gt; lia).
           reflexivity.
Qed.

(** ** Reward normalisation *)

Lemma np_array_rectangular (w : nat) (a : list vec) :
  rectangular w a -> np_array a = Ok a.
Proof.
  intros H. unfold np_array. destruct a as [|r a]; [reflexivity|].
  replace (forallb (fun r' => (length r' =? length r)%nat) (r :: a)) with true; [reflexivity|].
  symmetry. apply forallb_forall. intros x Hx.
  apply Nat.eqb_eq.
  pose proof (proj1 (Forall_forall _ _) H) as Hall.
  rewrite (Hall x Hx). rewrite (Hall r (or_introl eq_refl)). reflexivity.
Qed.

Lemma map_map_rectangular (f : R -> R) (w : nat) (a : list vec) :
  rectangular w a -> rectangular w (map (map f) a).
Proof.
  induction 1 as [|r a Hr _ IH]; simpl; constructor; auto.
  rewrite length_map; exact Hr.
Qed.

Lemma col_map_map (f : R -> R) (w : nat) (a : list vec) (j : nat) :
  rectangular w a -> (j < w)%nat ->
  col (map (map f) a) j = map (fun r => f (nth j r 0)) a.
Proof.
  intros H Hj. unfold col. rewrite map_map.
  induction H as [|r a Hr _ IH]; simpl; [reflexivity|].
  rewrite IH. f_equal.
  rewrite (nth_indep (map f r) 0 (f 0)) by (rewrite length_map; lia).
  apply map_nth.
Qed.

(** With [reward_scale] <= 0 the rewards stay a Python list, on which
    neither the column index of the discounting loop nor [tolist] is
    defined, so that [interact] raises and stores nothing. *)
Lemma unscaled_rewards_raise (c : MAPPO.config) (n : nat) (final_value : vec)
  (rewards : list vec) :
  MAPPO.reward_scale c <= 0 ->
  MAPPO.process_rewards c n final_value rewards =
  Raise (match n with O => AttributeError | S _ => TypeError end).
Proof.
  intros Hle. unfold MAPPO.process_rewards, MAPPO.scale_rewards.
  destruct (Rlt_dec 0 (MAPPO.reward_scale c)) as [Hpos|_]; [lra|].
  destruct n; reflexivity.
Qed.

(** ** The bootstrap value *)

Lemma map_result_ok {A B : Type} (F : A -> result B) (G : A -> B) (l : list A) :
  (forall a, In a l -> F a = Ok (G a)) -> map_result F l = Ok (map G l).
Proof.
  induction l as [|a l IH]; intros H; simpl; [reflexivity|].
  rewrite (H a (or_introl eq_refl)). simpl.
  rewrite IH by (intros b Hb; apply H; right; exact Hb). reflexivity.
Qed.

Lemma map_seq_nth {A B : Type} (f : A -> B) (l : list A) (d : A) :
  map (fun i => f (nth i l d)) (seq 0 (length l)) = map f l.
Proof.
  induction l as [|a l IH]; simpl; [reflexivity|].
  f_equal. rewrite <- seq_shift, map_map. exact IH.
Qed.

Lemma zip_with_length {A B C : Type} (f : A -> B -> C) (l : list A) (m : list B) :
  length (zip_with f l m) = Nat.min (length l) (length m).
Proof.
  revert m; induction l as [|a l IH]; intros [|b m]; simpl; auto.
Qed.

Lemma zip_with_nth {A B C : Type} (f : A -> B -> C) (l : list A) (m : list B)
  (i : nat) (da : A) (db : B) (dc : C) :
  (i < length l)%nat -> (i < length m)%nat ->
  nth i (zip_with f l m) dc = f (nth i l da) (nth i m db).
Proof.
  revert m i; induction l as [|a l IH]; intros [|b m] [|i] Hl Hm; simpl in *; try lia; auto.
  apply IH; lia.
Qed.

Section Bootstrap.
Context {W : Collaborators}.

Lemma noise_draws_length (pis : list vec) (g : Rng) :
  length (noise_draws pis g) = length pis.
Proof.
  revert g; induction pis as [|pi rest IH]; intros g; simpl; [reflexivity|].
  destruct (randn g (length pi)) as [z g1]. simpl. rewrite IH. reflexivity.
Qed.

Lemma add_noise_draws (scale : R) (pis : list vec) (g : Rng) :
  MAPPO.add_noise scale pis g =
  (zip_with (fun pi z => zip_with Rplus pi (map (Rmult scale) z)) pis (noise_draws pis g),
   after_draws pis g).
Proof.
  revert g; induction pis as [|pi rest IH]; intros g; simpl; [reflexivity|].
  destruct (randn g (length pi)) as [z g1] eqn:E. simpl.
  rewrite IH. reflexivity.
Qed.

Lemma continuous_action_ok (self : MAPPO.learner) (state : obs) :
  MAPPO._continuous_action self state (length state) =
  Ok (map (ActorNetwork (MAPPO.actor (MAPPO.nets self))) state).
Proof.
  unfold MAPPO._continuous_action.
  rewrite (map_result_ok _
             (fun i => ActorNetwork (MAPPO.actor (MAPPO.nets self)) (nth i state []))).
  - rewrite map_seq_nth. reflexivity.
  - intros i Hi. apply in_seq in Hi.
    rewrite (py_index_nth state i []) by lia. reflexivity.
Qed.

(** C4, as amended. When the rollout did not end in a terminal state, the
    bootstrap value of agent i is the live critic (not the target critic) at
    the agent's row of the final state and at the action [self.action]
    gives there: the actor's output plus 0.01 times a fresh normal draw. *)
Theorem bootstrap_of_unfinished_rollout :
  forall (n : nat) (self : MAPPO.learner) (g : Rng) (ro : MAPPO.rollout) (fs : obs),
    MAPPO.done ro = false ->
    MAPPO.final_state ro = Some fs ->
    MAPPO.n_agents self = Some n ->
    length fs = n ->
    exists final_value,
      MAPPO.bootstrap n self g ro =
        Ok (MAPPO.set_episode_done false self,
            after_draws (map (ActorNetwork (MAPPO.actor (MAPPO.nets self))) fs) g,
            final_value) /\
      length final_value = n /\
      forall i, (i < n)%nat ->
        nth i final_value 0 =
        CriticNetwork (MAPPO.critic (MAPPO.nets self)) (nth i fs [])
          (zip_with Rplus
             (ActorNetwork (MAPPO.actor (MAPPO.nets self)) (nth i fs []))
             (map (Rmult (1 / 100))
                (nth i (noise_draws (map (ActorNetwork (MAPPO.actor (MAPPO.nets self))) fs) g)
                   []))).
Proof.
  intros n self g ro fs Hdone Hfs Hn Hlen.
  unfold MAPPO.bootstrap. rewrite Hdone, Hfs. simpl.
  unfold MAPPO.action. subst n.
  replace (MAPPO._continuous_action (MAPPO.set_episode_done false self) fs (length fs))
    with (MAPPO._continuous_action self fs (length fs)) by reflexivity.
  rewrite continuous_action_ok. simpl.
  rewrite add_noise_draws.
  set (pis := map (ActorNetwork (MAPPO.actor (MAPPO.nets self))) fs).
  set (final_action :=
         zip_with (fun pi z => zip_with Rplus pi (map (Rmult (1 / 100)) z))
           pis (noise_draws pis g)).
  assert (Hpis : length pis = length fs) by apply length_map.
  assert (Hfa : length final_action = length fs).
  { unfold final_action. rewrite zip_with_length, noise_draws_length, Nat.min_id.
    exact Hpis. }
  unfold MAPPO.value. simpl. rewrite Hn. simpl.
  rewrite (map_result_ok _
             (fun i => CriticNetwork (MAPPO.critic (MAPPO.nets self))
                         (nth i fs []) (nth i final_action []))).
  - simpl. eexists. split; [reflexivity|]. split.
    + rewrite length_map, length_seq. reflexivity.
    + intros i Hi.
      rewrite (nth_indep _ 0
                 (CriticNetwork (MAPPO.critic (MAPPO.nets self))
                    (nth 0%nat fs []) (nth 0%nat final_action [])))
        by (rewrite length_map, length_seq; exact Hi).
      rewrite (map_nth (fun i => CriticNetwork (MAPPO.critic (MAPPO.nets self))
                                   (nth i fs []) (nth i final_action []))).
      rewrite seq_nth by exact Hi. simpl.
      f_equal. unfold final_action.
      rewrite (zip_with_nth _ pis (noise_draws pis g) i [] [] [])
        by (rewrite ?noise_draws_length; lia).
      f_equal. unfold pis.
      rewrite (nth_indep _ [] (ActorNetwork (MAPPO.actor (MAPPO.nets self)) []))
        by (rewrite length_map; exact Hi).
      apply map_nth.
  - intros i Hi. apply in_seq in Hi.
    rewrite (py_index_nth fs i []) by lia. simpl.
    unfold vec in *.
    rewrite (py_index_nth final_action i []) by lia. reflexivity.
Qed.

End Bootstrap.

(** C4 fails as stated, on both counts. With equal critics and a draw of 1
    the bootstrap value is 0.51, the critic at the noisy action 0.51, where
    the noise-free action 0.5 gives 0.5; and with a live critic that values
    every action at 1 and a target critic that values it at 0, the bootstrap
    value is 1 and not 0, whatever the noise. *)
Lemma bootstrap_differs_from_target_bootstrap :
  (exists v w,
      MAPPO.bootstrap 1 fresh_learner (1 : @Rng Toy.collaborators) unfinished_rollout =
        Ok (MAPPO.set_episode_done false fresh_learner, 1, [v]) /\
      target_bootstrap fresh_learner [[0]] 1 = Ok [w] /\
      v = 0.51 /\ w = 0.5) /\
  (exists v w,
      MAPPO.bootstrap 1 trained_learner (0 : @Rng Toy.collaborators) unfinished_rollout =
        Ok (MAPPO.set_episode_done false trained_learner, 0, [v]) /\
      target_bootstrap trained_learner [[0]] 1 = Ok [w] /\
      v = 1 /\ w = 0).
Proof.
  split.
  - exists (0 + 1 * (0.5 + 1 / 100 * 1 + 0)), (0 + 1 * (0.5 + 0)).
    split; [reflexivity|]. split; [reflexivity|]. split; lra.
  - exists (1 + 0 * (0.5 + 1 / 100 * 0 + 0)), (0 + 0 * (0.5 + 0)).
    split; [reflexivity|]. split; [reflexivity|]. split; lra.
Qed.

(** The amended statement on the fresh learner: the bootstrap value is the
    live critic at the action 0.5 + 0.01 * 1. *)
Lemma bootstrap_of_unfinished_rollout_witness :
  MAPPO.done unfinished_rollout = false /\
  MAPPO.final_state unfinished_rollout = Some [[0]] /\
  MAPPO.n_agents fresh_learner = Some 1%nat /\
  length ([[0]] : obs) = 1%nat /\
  exists final_value,
    MAPPO.bootstrap 1 fresh_learner (1 : @Rng Toy.collaborators) unfinished_rollout =
      Ok (MAPPO.set_episode_done false fresh_learner, 1, final_value) /\
    nth 0 final_value 0 = 0 + 1 * (0.5 + 1 / 100 * 1 + 0).
Proof.
  repeat (split; [reflexivity|]).
  destruct (@bootstrap_of_unfinished_rollout Toy.collaborators 1 fresh_learner 1
              unfinished_rollout [[0]] eq_refl eq_refl eq_refl eq_refl)
    as (final_value & Hrun & _ & Hval).
  exists final_value. split; [exact Hrun|].
  rewrite (Hval 0%nat Nat.lt_0_1). reflexivity.
Defined.

(** ** NaN in the environment step *)

Section StepProofs.
Variable BaseInfo : Type.
Variables duration policy_frequency : Z.
Variable _agent_reward : LaneChnageMARL.Vehicle -> LaneChnageMARL.np_float.

Lemma collect_info_nan (vs : list LaneChnageMARL.Vehicle) :
  forall agent_info local_info,
    existsb LaneChnageMARL.position_isnan vs = true ->
    LaneChnageMARL.collect_info vs agent_info local_info = Raise ValueError.
Proof.
  induction vs as [|v vs IH]; intros agent_info local_info H; simpl in *; [discriminate|].
  destruct (LaneChnageMARL.position_isnan v); [reflexivity|].
  apply IH. exact H.
Qed.

Lemma collect_info_finite (vs : list LaneChnageMARL.Vehicle) :
  forall agent_info local_info,
    existsb LaneChnageMARL.position_isnan vs = false ->
    exists agent_info' local_info',
      LaneChnageMARL.collect_info vs agent_info local_info = Ok (agent_info', local_info').
Proof.
  induction vs as [|v vs IH]; intros agent_info local_info H; simpl in *.
  - exists agent_info, local_info. reflexivity.
  - destruct (LaneChnageMARL.position_isnan v); [discriminate|].
    apply IH. exact H.
Qed.

(** C9, as amended. [step] raises, and returns nothing, as soon as the
    position of a controlled vehicle holds a NaN. The observation is not
    looked at: when no position holds a NaN, [step] returns the observation
    it got from [super().step], one row per agent, whatever it contains. *)
Theorem step_raises_on_nan_position :
  forall (e : LaneChnageMARL.stepped BaseInfo),
    (existsb LaneChnageMARL.position_isnan (LaneChnageMARL.controlled_vehicles e) = true ->
     LaneChnageMARL.step BaseInfo duration policy_frequency _agent_reward e =
     Raise ValueError) /\
    (existsb LaneChnageMARL.position_isnan (LaneChnageMARL.controlled_vehicles e) = false ->
     LaneChnageMARL.s_obs e <> [] ->
     exists i,
       LaneChnageMARL.step BaseInfo duration policy_frequency _agent_reward e =
       Ok (map (@concat LaneChnageMARL.np_float) (LaneChnageMARL.s_obs e),
           LaneChnageMARL.s_reward e, LaneChnageMARL.s_done e, i)).
Proof.
  intros e. split.
  - intros Hnan. unfold LaneChnageMARL.step.
    rewrite (collect_info_nan _ [] [] Hnan). reflexivity.
  - intros Hfinite Hobs. unfold LaneChnageMARL.step.
    destruct (collect_info_finite _ [] [] Hfinite) as (ai & li & Hrun).
    rewrite Hrun. simpl.
    destruct (LaneChnageMARL.s_obs e) as [|o os] eqn:Eo; [contradiction|].
    simpl. eexists. reflexivity.
Qed.

End StepProofs.

(** C9 fails as stated for observations: with a NaN in the observation and
    sound positions, [step] returns the transition, NaN included. *)
Lemma step_returns_nan_observation :
  LaneChnageMARL.step unit 20 5 (fun _ => LaneChnageMARL.Num 0)
    (after_super_step sound_vehicle LaneChnageMARL.NaN) =
  Ok ([[LaneChnageMARL.NaN]], LaneChnageMARL.Num 1, false,
      {| LaneChnageMARL.base := tt;
         LaneChnageMARL.agents_dones := [false];
         LaneChnageMARL.agents_info :=
           [[LaneChnageMARL.Num 10; LaneChnageMARL.Num 4; LaneChnageMARL.Num 25]];
         LaneChnageMARL.hdv_info :=
           [[LaneChnageMARL.Num 10; LaneChnageMARL.Num 0; LaneChnageMARL.Num 25]];
         LaneChnageMARL.agents_rewards := [LaneChnageMARL.Num 0] |}).
Proof.
  unfold LaneChnageMARL.step, after_super_step, sound_vehicle. simpl.
  reflexivity.
Qed.

(** The amended statement on a vehicle with a NaN position, and on a sound
    vehicle seen through a NaN observation. *)
Lemma step_raises_on_nan_position_witness :
  (existsb LaneChnageMARL.position_isnan [lost_vehicle] = true /\
   LaneChnageMARL.step unit 20 5 (fun _ => LaneChnageMARL.Num 0)
     (after_super_step lost_vehicle (LaneChnageMARL.Num 0)) = Raise ValueError) /\
  (existsb LaneChnageMARL.position_isnan [sound_vehicle] = false /\
   [[[LaneChnageMARL.NaN]]] <> ([] : list (list (list LaneChnageMARL.np_float))) /\
   exists i,
     LaneChnageMARL.step unit 20 5 (fun _ => LaneChnageMARL.Num 0)
       (after_super_step sound_vehicle LaneChnageMARL.NaN) =
     Ok ([[LaneChnageMARL.NaN]], LaneChnageMARL.Num 1, false, i)).
Proof.
  split.
  - split; [reflexivity|].
    exact (proj1 (step_raises_on_nan_position unit 20 5 (fun _ => LaneChnageMARL.Num 0)
                    (after_super_step lost_vehicle (LaneChnageMARL.Num 0))) eq_refl).
  - split; [reflexivity|]. split; [discriminate|].
    apply (proj2 (step_raises_on_nan_position unit 20 5 (fun _ => LaneChnageMARL.Num 0)
                    (after_super_step sound_vehicle LaneChnageMARL.NaN)) eq_refl).
    discriminate.
Defined.

(** ** Reshaping the sampled batch *)

Lemma chunks_fuel_nil {A : Type} (fuel k : nat) : @chunks_fuel A fuel k [] = [].
Proof. destruct fuel; reflexivity. Qed.

Lemma length_concat_uniform {A : Type} (d : nat) (rows : list (list A)) :
  Forall (fun r => length r = d) rows -> length (concat rows) = (length rows * d)%nat.
Proof.
  induction 1 as [|r rows Hr _ IH]; simpl; [reflexivity|].
  rewrite length_app, IH, Hr. reflexivity.
Qed.

Lemma chunks_fuel_concat {A : Type} (d : nat) (rows : list (list A)) :
  (0 < d)%nat -> Forall (fun r => length r = d) rows ->
  forall fuel, (length rows <= fuel)%nat -> chunks_fuel fuel d (concat rows) = rows.
Proof.
  intros Hd Hrows. induction Hrows as [|r rows Hr _ IH]; intros fuel Hfuel.
  - apply chunks_fuel_nil.
  - destruct fuel as [|fuel]; [simpl in Hfuel; lia|].
    simpl. destruct r as [|x r]; [simpl in Hr; lia|].
    cbn [app]. cbv beta iota.
    change (x :: r ++ concat rows) with ((x :: r) ++ concat rows).
    subst d.
    rewrite firstn_app, firstn_all, Nat.sub_diag, firstn_0, app_nil_r.
    rewrite skipn_app, skipn_all, Nat.sub_diag, skipn_O, app_nil_l.
    f_equal. apply IH. simpl in Hfuel. lia.
Qed.

Lemma chunks_concat {A : Type} (d : nat) (rows : list (list A)) :
  (0 < d)%nat -> Forall (fun r => length r = d) rows -> chunks d (concat rows) = rows.
Proof.
  intros Hd Hrows. unfold chunks. apply chunks_fuel_concat; auto.
  rewrite (length_concat_uniform d) by exact Hrows. nia.
Qed.

Lemma uniform_rows (n d : nat) (x : list mat) :
  uniform n d x -> Forall (fun v => length v = d) (concat x).
Proof.
  induction 1 as [|m x [_ Hm] _ IH]; simpl; [constructor|].
  apply Forall_app. split; assumption.
Qed.

Lemma uniform_agents (n d : nat) (x : list mat) :
  uniform n d x -> Forall (fun m => length m = n) x.
Proof.
  induction 1 as [|m x [Hm _] _ IH]; constructor; assumption.
Qed.

(** Reshaping with the agent count the experiences were recorded with gives
    the experiences back. *)
Lemma view3_uniform (n d : nat) (x : list mat) :
  (0 < n)%nat -> (0 < d)%nat -> uniform n d x -> view3 (to_tensor_var x) n d = Ok x.
Proof.
  intros Hn Hd Hx. unfold view3, to_tensor_var.
  pose proof (uniform_rows n d x Hx) as Hrows.
  pose proof (uniform_agents n d x Hx) as Hag.
  replace (n * d =? 0)%nat with false by (symmetry; apply Nat.eqb_neq; nia).
  rewrite (length_concat_uniform d) by exact Hrows.
  rewrite (length_concat_uniform n) by exact Hag.
  rewrite <- Nat.mul_assoc, Nat.Div0.mod_mul. simpl.
  rewrite (chunks_concat d) by assumption.
  rewrite (chunks_concat n) by assumption.
  reflexivity.
Qed.

Lemma concat_column (r : vec) : concat (column r) = r.
Proof. induction r as [|x r IH]; simpl; [reflexivity|]. rewrite IH; reflexivity. Qed.

Lemma to_tensor_var_columns (rs : list vec) :
  to_tensor_var (map column rs) = concat rs.
Proof.
  unfold to_tensor_var. induction rs as [|r rs IH]; simpl; [reflexivity|].
  rewrite concat_app, IH, concat_column. reflexivity.
Qed.

Lemma uniform_columns (n : nat) (rs : list vec) :
  Forall (fun r => length r = n) rs -> uniform n 1 (map column rs).
Proof.
  induction 1 as [|r rs Hr _ IH]; simpl; constructor; auto.
  split.
  - unfold column. rewrite length_map. exact Hr.
  - unfold column. apply Forall_forall. intros v Hv.
    apply in_map_iff in Hv. destruct Hv as (x & <- & _). reflexivity.
Qed.

Section Reshape.
Context {W : Collaborators}.

(** C8, as amended. [train] reshapes the three sampled tensors with the one
    agent count the learner holds when [train] runs ([self.n_agents], set by
    the latest [interact]); no count is stored with a rollout. The result is
    the layout the experiences were recorded in when every sampled
    experience was recorded with that same count. *)
Theorem batch_reshaped_with_current_agent_count :
  forall (self : MAPPO.learner) (b : batch) (n : nat),
    MAPPO.n_agents self = Some n ->
    MAPPO.batch_tensors self b =
      (states_var <- view3 (to_tensor_var (batch_states b)) n
                       (MAPPO.state_dim (MAPPO.cfg self)) ;;
       actions_var <- view3 (to_tensor_var (batch_actions b)) n
                        (MAPPO.action_dim (MAPPO.cfg self)) ;;
       rewards_var <- view3 (concat (batch_rewards b)) n 1 ;;
       Ok (states_var, actions_var, rewards_var)) /\
    ((0 < n)%nat ->
     (0 < MAPPO.state_dim (MAPPO.cfg self))%nat ->
     (0 < MAPPO.action_dim (MAPPO.cfg self))%nat ->
     recorded_with n (MAPPO.state_dim (MAPPO.cfg self))
       (MAPPO.action_dim (MAPPO.cfg self)) b ->
     MAPPO.batch_tensors self b = Ok (recorded_layout b)).
Proof.
  intros self b n Hn. unfold MAPPO.batch_tensors. rewrite Hn. simpl.
  split; [reflexivity|].
  intros Hpos Hsd Had (Hs & Ha & Hr).
  rewrite (view3_uniform n _ _ Hpos Hsd Hs). simpl.
  rewrite (view3_uniform n _ _ Hpos Had Ha). simpl.
  rewrite <- to_tensor_var_columns.
  rewrite (view3_uniform n 1 _ Hpos Nat.lt_0_1 (uniform_columns n _ Hr)). simpl.
  reflexivity.
Qed.

End Reshape.

(** C8 fails as stated: an experience recorded with two agents and reshaped
    while the learner's count is one comes out as two batch rows of one
    agent each, not as the one row of two agents it was recorded as. *)
Lemma batch_reshaped_against_recorded_count :
  MAPPO.batch_tensors (learner_of_count 1) two_agent_batch =
    Ok ([[[1]]; [[2]]], [[[3]]; [[4]]], [[[5]]; [[6]]]) /\
  recorded_layout two_agent_batch = ([[[1]; [2]]], [[[3]; [4]]], [[[5]; [6]]]) /\
  MAPPO.batch_tensors (learner_of_count 1) two_agent_batch <>
    Ok (recorded_layout two_agent_batch).
Proof.
  split; [reflexivity|]. split; [reflexivity|].
  intros H. discriminate H.
Qed.

(** The amended statement on the same batch, for a learner whose count is
    the recorded one. *)
Lemma batch_reshaped_with_current_agent_count_witness :
  MAPPO.n_agents (learner_of_count 2) = Some 2%nat /\
  (0 < 2)%nat /\ (0 < 1)%nat /\
  recorded_with 2 1 1 two_agent_batch /\
  MAPPO.batch_tensors (learner_of_count 2) two_agent_batch =
    Ok ([[[1]; [2]]], [[[3]; [4]]], [[[5]; [6]]]).
Proof.
  assert (Hrec : recorded_with 2 1 1 two_agent_batch).
  { unfold recorded_with, uniform, two_agent_batch; simpl.
    repeat split; repeat constructor. }
  split; [reflexivity|]. split; [lia|]. split; [lia|]. split; [exact Hrec|].
  exact (proj2 (@batch_reshaped_with_current_agent_count Toy.collaborators
                  (learner_of_count 2) two_agent_batch 2 eq_refl)
           (Nat.lt_0_succ 1) Nat.lt_0_1 Nat.lt_0_1 Hrec).
Defined.

(** ** What [train] and [interact] write *)

Lemma bind_ok {A B : Type} (c : result A) (k : A -> result B) (b : B) :
  bind c k = Ok b -> exists a, c = Ok a /\ k a = Ok b.
Proof.
  destruct c as [a|e]; simpl; intros H; [|discriminate].
  exists a. split; [reflexivity|exact H].
Qed.

Lemma for_each_invariant {A S : Type} (P : S -> Prop) (body : S -> A -> result S) (l : list A) :
  (forall s a s', P s -> body s a = Ok s' -> P s') ->
  forall s s', P s -> for_each body l s = Ok s' -> P s'.
Proof.
  intros Hbody. induction l as [|a l IH]; intros s s' Hs H; simpl in H.
  - inversion H; subst; exact Hs.
  - apply bind_ok in H. destruct H as (s1 & H1 & H2).
    apply (IH s1 s'); [|exact H2]. apply (Hbody s a s1 Hs H1).
Qed.

Section Frame.
Context {W : Collaborators}.

Lemma update_agent_frame (c : MAPPO.config) (sv av rv : list mat)
  (n n' : MAPPO.networks) (o o' : MAPPO.optimizers) (agent_id : nat) :
  optimizers_over_live o ->
  MAPPO.update_agent c sv av rv (n, o) agent_id = Ok (n', o') ->
  MAPPO.actor_target n' = MAPPO.actor_target n /\
  MAPPO.critic_target n' = MAPPO.critic_target n /\
  optimizers_over_live o'.
Proof.
  intros [Ha Hq] H. unfold MAPPO.update_agent in H.
  destruct (MAPPO.actor_optimizer o) as [ao|] eqn:Eao; simpl in H; [|discriminate].
  apply bind_ok in H. destruct H as (_ & _ & H).
  unfold MAPPO.optimizer_step in H at 1.
  rewrite (Ha ao eq_refl) in H.
  destruct (optimizer_update _ _ _ _) as [p st]. simpl in H.
  destruct (MAPPO.critic_optimizer o) as [qo|] eqn:Eqo; simpl in H; [|discriminate].
  apply bind_ok in H. destruct H as (_ & _ & H).
  unfold MAPPO.optimizer_step in H.
  rewrite (Hq qo eq_refl) in H.
  destruct (optimizer_update _ _ _ _) as [p' st']. simpl in H.
  inversion H; subst; clear H. simpl.
  split; [reflexivity|]. split; [reflexivity|].
  split; intros x Hx; inversion Hx; subst; reflexivity.
Qed.

Lemma optimize_frame (self self' : MAPPO.learner) (t : list mat * list mat * list mat) :
  optimizers_over_live (MAPPO.optims self) ->
  MAPPO.optimize self t = Ok self' ->
  MAPPO.actor_target (MAPPO.nets self') = MAPPO.actor_target (MAPPO.nets self) /\
  MAPPO.critic_target (MAPPO.nets self') = MAPPO.critic_target (MAPPO.nets self) /\
  optimizers_over_live (MAPPO.optims self') /\
  MAPPO.cfg self' = MAPPO.cfg self /\
  MAPPO.n_episodes self' = MAPPO.n_episodes self.
Proof.
  intros Hlive H. unfold MAPPO.optimize in H.
  destruct t as [[sv av] rv].
  apply bind_ok in H. destruct H as (n & _ & H).
  apply bind_ok in H. destruct H as ([nts ops] & Hloop & H).
  inversion H; subst; clear H. simpl.
  pose proof (for_each_invariant
                (fun st => MAPPO.actor_target (fst st) = MAPPO.actor_target (MAPPO.nets self) /\
                           MAPPO.critic_target (fst st) = MAPPO.critic_target (MAPPO.nets self) /\
                           optimizers_over_live (snd st))
                (MAPPO.update_agent (MAPPO.cfg self) sv av rv) (seq 0 n)) as Hinv.
  destruct (Hinv) with (s := (MAPPO.nets self, MAPPO.optims self)) (s' := (nts, ops))
    as (H1 & H2 & H3).
  - intros [n1 o1] a [n2 o2] (Ha & Hq & Ho) Hstep. simpl in *.
    destruct (update_agent_frame _ _ _ _ _ _ _ _ _ Ho Hstep) as (Ha' & Hq' & Ho').
    rewrite Ha', Hq'. auto.
  - simpl. auto.
  - exact Hloop.
  - simpl in *. auto.
Qed.

Lemma soft_update_target_spec (self self' : MAPPO.learner) (target source : MAPPO.net_id) :
  MAPPO._soft_update_target self target source = Ok self' ->
  MAPPO.soft_update_params (MAPPO.target_tau (MAPPO.cfg self))
    (MAPPO.get_net target (MAPPO.nets self)) (MAPPO.get_net source (MAPPO.nets self)) =
    Ok (MAPPO.get_net target (MAPPO.nets self')) /\
  (forall other, target <> other ->
     MAPPO.get_net other (MAPPO.nets self') = MAPPO.get_net other (MAPPO.nets self)) /\
  MAPPO.optims self' = MAPPO.optims self /\
  MAPPO.cfg self' = MAPPO.cfg self.
Proof.
  intros H. unfold MAPPO._soft_update_target in H.
  apply bind_ok in H. destruct H as (p & Hp & H).
  inversion H; subst; clear H. simpl.
  rewrite get_set_net_same. split; [exact Hp|].
  split; [|split; reflexivity].
  intros other Hne. apply get_set_net_other; exact Hne.
Qed.

Lemma update_targets_spec (self self' : MAPPO.learner) :
  MAPPO.update_targets self = Ok self' ->
  MAPPO.actor (MAPPO.nets self') = MAPPO.actor (MAPPO.nets self) /\
  MAPPO.critic (MAPPO.nets self') = MAPPO.critic (MAPPO.nets self) /\
  MAPPO.optims self' = MAPPO.optims self /\
  (target_update_due self = true ->
     MAPPO.soft_update_params (MAPPO.target_tau (MAPPO.cfg self))
       (MAPPO.actor_target (MAPPO.nets self)) (MAPPO.actor (MAPPO.nets self)) =
       Ok (MAPPO.actor_target (MAPPO.nets self')) /\
     MAPPO.soft_update_params (MAPPO.target_tau (MAPPO.cfg self))
       (MAPPO.critic_target (MAPPO.nets self)) (MAPPO.critic (MAPPO.nets self)) =
       Ok (MAPPO.critic_target (MAPPO.nets self'))) /\
  (target_update_due self = false -> self' = self).
Proof.
  intros H. unfold MAPPO.update_targets in H. unfold target_update_due, modulus_condition.
  destruct (MAPPO.target_update_steps (MAPPO.cfg self) =? 0)%Z; [discriminate|].
  destruct ((Z.of_nat (MAPPO.n_episodes self) mod MAPPO.target_update_steps (MAPPO.cfg self) =? 0)
            && (0 <? Z.of_nat (MAPPO.n_episodes self)))%Z.
  - apply bind_ok in H. destruct H as (mid & Hmid & H).
    destruct (soft_update_target_spec _ _ _ _ Hmid) as (Ha & Hoth & Hopt & Hcfg).
    destruct (soft_update_target_spec _ _ _ _ H) as (Hq & Hoth' & Hopt' & Hcfg').
    simpl in *.
    pose proof (Hoth MAPPO.Actor ltac:(discriminate)) as E1.
    pose proof (Hoth MAPPO.Critic ltac:(discriminate)) as E2.
    pose proof (Hoth MAPPO.CriticTarget ltac:(discriminate)) as E3.
    pose proof (Hoth' MAPPO.Actor ltac:(discriminate)) as E4.
    pose proof (Hoth' MAPPO.Critic ltac:(discriminate)) as E5.
    pose proof (Hoth' MAPPO.ActorTarget ltac:(discriminate)) as E6.
    simpl in *.
    split; [congruence|]. split; [congruence|]. split; [congruence|].
    split; [|discriminate].
    intros _. split.
    + rewrite E6. exact Ha.
    + rewrite Hcfg, E3, E2 in Hq. exact Hq.
  - inversion H; subst; clear H.
    repeat (split; [reflexivity|]). split; [discriminate|reflexivity].
Qed.

Lemma train_targets (self self' : MAPPO.learner) (g g' : Rng) :
  optimizers_over_live (MAPPO.optims self) ->
  MAPPO.train self g = Ok (self', g') ->
  optimizers_over_live (MAPPO.optims self') /\
  (target_update_due self = true ->
     MAPPO.soft_update_params (MAPPO.target_tau (MAPPO.cfg self))
       (MAPPO.actor_target (MAPPO.nets self)) (MAPPO.actor (MAPPO.nets self')) =
       Ok (MAPPO.actor_target (MAPPO.nets self')) /\
     MAPPO.soft_update_params (MAPPO.target_tau (MAPPO.cfg self))
       (MAPPO.critic_target (MAPPO.nets self)) (MAPPO.critic (MAPPO.nets self')) =
       Ok (MAPPO.critic_target (MAPPO.nets self'))) /\
  (target_update_due self = false ->
     MAPPO.actor_target (MAPPO.nets self') = MAPPO.actor_target (MAPPO.nets self) /\
     MAPPO.critic_target (MAPPO.nets self') = MAPPO.critic_target (MAPPO.nets self)).
Proof.
  intros Hlive H. unfold MAPPO.train in H.
  destruct (memory_sample _ _ _) as [b g1].
  apply bind_ok in H. destruct H as (t & _ & H).
  apply bind_ok in H. destruct H as (mid & Hopt & H).
  apply bind_ok in H. destruct H as (final & Hupd & H).
  inversion H; subst; clear H.
  destruct (optimize_frame _ _ _ Hlive Hopt) as (Ha & Hq & Hlive' & Hcfg & Hn).
  destruct (update_targets_spec _ _ Hupd) as (Ea & Eq & Eo & Hdue & Hnot).
  assert (Hsame : target_update_due mid = target_update_due self).
  { unfold target_update_due, modulus_condition. rewrite Hcfg, Hn. reflexivity. }
  rewrite Hsame in Hdue, Hnot.
  split; [rewrite Eo; exact Hlive'|]. split.
  - intros Htrue. destruct (Hdue Htrue) as [H1 H2].
    rewrite Hcfg, Ha, <- Ea in H1. rewrite Hcfg, Hq, <- Eq in H2. auto.
  - intros Hfalse. rewrite (Hnot Hfalse). auto.
Qed.

Lemma one_step_frame (n : nat) (self self' : MAPPO.learner) (g g' : Rng)
  (ro ro' : MAPPO.rollout) :
  MAPPO.one_step n self g ro = Ok (self', g', ro') ->
  MAPPO.nets self' = MAPPO.nets self /\ MAPPO.optims self' = MAPPO.optims self.
Proof.
  intros H. unfold MAPPO.one_step in H.
  apply bind_ok in H. destruct H as ([act g1] & _ & H).
  apply bind_ok in H. destruct H as ([[e g2] [[[next_state global_reward] d] info]] & _ & H).
  apply bind_ok in H. destruct H as (er & _ & H).
  apply bind_ok in H. destruct H as (es & _ & H).
  apply bind_ok in H. destruct H as (reward & _ & H).
  inversion H; subst; clear H. simpl. auto.
Qed.

Lemma take_steps_frame (i n : nat) :
  forall (self self' : MAPPO.learner) (g g' : Rng) (ro ro' : MAPPO.rollout),
    MAPPO.take_steps i n self g ro = Ok (self', g', ro') ->
    MAPPO.nets self' = MAPPO.nets self /\ MAPPO.optims self' = MAPPO.optims self.
Proof.
  induction i as [|i IH]; intros self self' g g' ro ro' H; simpl in H.
  - inversion H; subst; auto.
  - apply bind_ok in H. destruct H as ([[s1 g1] ro1] & Hstep & H).
    destruct (one_step_frame _ _ _ _ _ _ _ Hstep) as [E1 E2].
    destruct (MAPPO.done ro1).
    + destruct (env_reset (MAPPO.env s1) g1) as [[e g2] s].
      inversion H; subst; clear H. simpl. auto.
    + destruct (IH _ _ _ _ _ _ H) as [E3 E4]. split; congruence.
Qed.

Lemma bootstrap_frame (n : nat) (self self' : MAPPO.learner) (g g' : Rng)
  (ro : MAPPO.rollout) (final_value : vec) :
  MAPPO.bootstrap n self g ro = Ok (self', g', final_value) ->
  MAPPO.nets self' = MAPPO.nets self /\ MAPPO.optims self' = MAPPO.optims self.
Proof.
  intros H. unfold MAPPO.bootstrap in H.
  destruct (MAPPO.done ro).
  - apply bind_ok in H. destruct H as (steps_last & _ & H).
    apply bind_ok in H. destruct H as (speeds & _ & H).
    inversion H; subst; clear H. simpl. auto.
  - apply bind_ok in H. destruct H as (fs & _ & H).
    apply bind_ok in H. destruct H as ([final_action g1] & _ & H).
    apply bind_ok in H. destruct H as (fv & _ & H).
    inversion H; subst; clear H. simpl. auto.
Qed.

Lemma interact_frame (self self' : MAPPO.learner) (g g' : Rng) :
  MAPPO.interact self g = Ok (self', g') ->
  MAPPO.nets self' = MAPPO.nets self /\ MAPPO.optims self' = MAPPO.optims self.
Proof.
  intros H. unfold MAPPO.interact in H.
  set (start :=
         match MAPPO.max_steps (MAPPO.cfg self) with
         | Some m =>
             if (m <=? MAPPO.n_steps self)%nat
             then let '(e, g0, s) := env_reset (MAPPO.env self) g in
                  (MAPPO.set_n_steps 0 (MAPPO.set_env e s self), g0)
             else (self, g)
         | None => (self, g)
         end) in H.
  assert (Hstart : MAPPO.nets (fst start) = MAPPO.nets self /\
                   MAPPO.optims (fst start) = MAPPO.optims self).
  { unfold start. destruct (MAPPO.max_steps (MAPPO.cfg self)) as [m|]; [|simpl; auto].
    destruct (m <=? MAPPO.n_steps self)%nat; [|simpl; auto].
    destruct (env_reset (MAPPO.env self) g) as [[e g0] s]. simpl. auto. }
  destruct start as [s0 g0]. simpl in Hstart.
  apply bind_ok in H. destruct H as ([[s1 g1] ro] & Hsteps & H).
  apply bind_ok in H. destruct H as ([[s2 g2] fv] & Hboot & H).
  apply bind_ok in H. destruct H as (as_list & _ & H).
  inversion H; subst; clear H. simpl.
  destruct (take_steps_frame _ _ _ _ _ _ _ _ Hsteps) as [E1 E2].
  destruct (bootstrap_frame _ _ _ _ _ _ _ Hboot) as [E3 E4].
  simpl in E1, E2. destruct Hstart. split; congruence.
Qed.

Lemma init_live (e : Env) (c : MAPPO.config) (g g' : Rng) (self : MAPPO.learner) :
  MAPPO.__init__ e c g = Ok (self, g') ->
  optimizers_over_live (MAPPO.optims self) /\
  MAPPO.actor_target (MAPPO.nets self) = MAPPO.actor (MAPPO.nets self) /\
  MAPPO.critic_target (MAPPO.nets self) = MAPPO.critic (MAPPO.nets self).
Proof.
  intros H. unfold MAPPO.__init__ in H.
  destruct (negb _); [discriminate|].
  destruct (negb _); [discriminate|].
  destruct (env_reset e g) as [[e' g1] s].
  inversion H; subst; clear H. simpl.
  split; [|auto].
  unfold optimizers_over_live, MAPPO.make_optimizer; simpl.
  split; intros x Hx;
    destruct (MAPPO.optimizer_type c =? "adam")%string;
    [inversion Hx; reflexivity| | inversion Hx; reflexivity|];
    destruct (MAPPO.optimizer_type c =? "rmsprop")%string;
    inversion Hx; reflexivity.
Qed.

End Frame.

Section WarmUp.
Context {W : Collaborators}.





End WarmUp.

(** ** Target networks *)

Section Targets.
Context {W : Collaborators}.

(** C5. The constructor builds the two optimizers, for either optimizer
    type, over the parameters of the live actor and of the live critic;
    [interact] writes no network parameter and no optimizer; the loop of
    optimizer steps in [train] leaves both target networks as they were; and
    over a whole call of [train] each target network is either unchanged or
    the result of the soft update of its previous value towards the live
    network. *)
Theorem targets_written_by_soft_update_only :
  (forall (e : Env) (c : MAPPO.config) (g g' : Rng) (self : MAPPO.learner),
      MAPPO.__init__ e c g = Ok (self, g') ->
      optimizers_over_live (MAPPO.optims self)) /\
  (forall (self self' : MAPPO.learner) (g g' : Rng),
      MAPPO.interact self g = Ok (self', g') ->
      MAPPO.nets self' = MAPPO.nets self /\ MAPPO.optims self' = MAPPO.optims self) /\
  (forall (self self' : MAPPO.learner) (t : list mat * list mat * list mat),
      optimizers_over_live (MAPPO.optims self) ->
      MAPPO.optimize self t = Ok self' ->
      MAPPO.actor_target (MAPPO.nets self') = MAPPO.actor_target (MAPPO.nets self) /\
      MAPPO.critic_target (MAPPO.nets self') = MAPPO.critic_target (MAPPO.nets self)) /\
  (forall (self self' : MAPPO.learner) (g g' : Rng),
      optimizers_over_live (MAPPO.optims self) ->
      MAPPO.train self g = Ok (self', g') ->
      optimizers_over_live (MAPPO.optims self') /\
      ((MAPPO.actor_target (MAPPO.nets self') = MAPPO.actor_target (MAPPO.nets self) /\
        MAPPO.critic_target (MAPPO.nets self') = MAPPO.critic_target (MAPPO.nets self)) \/
       (MAPPO.soft_update_params (MAPPO.target_tau (MAPPO.cfg self))
          (MAPPO.actor_target (MAPPO.nets self)) (MAPPO.actor (MAPPO.nets self')) =
          Ok (MAPPO.actor_target (MAPPO.nets self')) /\
        MAPPO.soft_update_params (MAPPO.target_tau (MAPPO.cfg self))
          (MAPPO.critic_target (MAPPO.nets self)) (MAPPO.critic (MAPPO.nets self')) =
          Ok (MAPPO.critic_target (MAPPO.nets self'))))).
Proof.
  split; [|split; [|split]].
  - intros e c g g' self H. exact (proj1 (init_live e c g g' self H)).
  - intros self self' g g' H. exact (interact_frame self self' g g' H).
  - intros self self' t Hlive H.
    destruct (optimize_frame self self' t Hlive H) as (Ha & Hq & _). auto.
  - intros self self' g g' Hlive H.
    destruct (train_targets self self' g g' Hlive H) as (Hlive' & Hdue & Hnot).
    split; [exact Hlive'|].
    destruct (target_update_due self); [right|left]; auto.
Qed.

(** C6, as amended. A call of [train] soft-updates both target networks
    towards the live networks it has just optimized, with factor tau,
    exactly when [n_episodes % target_update_steps == 0] and
    [n_episodes > 0]; in every other call that returns, both targets are
    left as they were. *)
Theorem targets_updated_on_positive_multiples :
  forall (self self' : MAPPO.learner) (g g' : Rng),
    optimizers_over_live (MAPPO.optims self) ->
    MAPPO.train self g = Ok (self', g') ->
    (target_update_due self = true ->
       MAPPO.soft_update_params (MAPPO.target_tau (MAPPO.cfg self))
         (MAPPO.actor_target (MAPPO.nets self)) (MAPPO.actor (MAPPO.nets self')) =
         Ok (MAPPO.actor_target (MAPPO.nets self')) /\
       MAPPO.soft_update_params (MAPPO.target_tau (MAPPO.cfg self))
         (MAPPO.critic_target (MAPPO.nets self)) (MAPPO.critic (MAPPO.nets self')) =
         Ok (MAPPO.critic_target (MAPPO.nets self'))) /\
    (target_update_due self = false ->
       MAPPO.actor_target (MAPPO.nets self') = MAPPO.actor_target (MAPPO.nets self) /\
       MAPPO.critic_target (MAPPO.nets self') = MAPPO.critic_target (MAPPO.nets self)).
Proof.
  intros self self' g g' Hlive H.
  destruct (train_targets self self' g g' Hlive H) as (_ & Hdue & Hnot).
  split; assumption.
Qed.


End Targets.

Lemma learner_after_live (episodes : nat) (warm_up : Z) :
  optimizers_over_live (MAPPO.optims (learner_after episodes warm_up)).
Proof.
  split; intros x Hx; inversion Hx; reflexivity.
Qed.

(** C6 fails as stated: before the first episode has finished the modulus
    condition holds (0 % 5 == 0), and [train] optimizes the live actor (to
    0.5) but leaves the target actor at 0.0, where the soft update with
    tau = 1 would have made it 0.5. *)
Lemma no_target_update_before_first_episode :
  modulus_condition (learner_after 0 0) = true /\
  exists self' live,
    MAPPO.train (learner_after 0 0) (0 : @Rng Toy.collaborators) = Ok (self', 0) /\
    MAPPO.actor (MAPPO.nets self') = [[live]] /\ live = 0.5 /\
    MAPPO.actor_target (MAPPO.nets self') = [[0]] /\
    exists blended,
      MAPPO.soft_update_params 1 [[0]] [[live]] = Ok [[blended]] /\ blended = 0.5.
Proof.
  split; [reflexivity|].
  eexists. exists (1 - 0.5 * 1).
  split; [reflexivity|]. split; [reflexivity|]. split; [lra|]. split; [reflexivity|].
  eexists. split; [reflexivity|]. lra.
Qed.

(** The amended statement after five episodes (a soft update is due) and
    after three (none is). *)
Lemma targets_updated_on_positive_multiples_witness :
  (optimizers_over_live (MAPPO.optims (learner_after 5 0)) /\
   target_update_due (learner_after 5 0) = true /\
   exists self',
     MAPPO.train (learner_after 5 0) (0 : @Rng Toy.collaborators) = Ok (self', 0) /\
     MAPPO.soft_update_params 1 [[0]] (MAPPO.actor (MAPPO.nets self')) =
       Ok (MAPPO.actor_target (MAPPO.nets self'))) /\
  (optimizers_over_live (MAPPO.optims (learner_after 3 0)) /\
   target_update_due (learner_after 3 0) = false /\
   exists self',
     MAPPO.train (learner_after 3 0) (0 : @Rng Toy.collaborators) = Ok (self', 0) /\
     MAPPO.actor_target (MAPPO.nets self') = [[0]]).
Proof.
  split.
  - split; [apply learner_after_live|]. split; [reflexivity|].
    eexists. split; [reflexivity|].
    exact (proj1 (proj1 (@targets_updated_on_positive_multiples Toy.collaborators
                           (learner_after 5 0) _ 0 0 (learner_after_live 5 0) eq_refl)
                    eq_refl)).
  - split; [apply learner_after_live|]. split; [reflexivity|].
    eexists. split; [reflexivity|].
    exact (proj1 (proj2 (@targets_updated_on_positive_multiples Toy.collaborators
                           (learner_after 3 0) _ 0 0 (learner_after_live 3 0) eq_refl)
                    eq_refl)).
Defined.

(** C5 on the small instance: the constructor returns a learner whose
    optimizers are over the live networks, and a call of [train] after three
    episodes leaves the targets unchanged or soft-updated. *)
Lemma targets_written_by_soft_update_only_witness :
  (exists self,
      MAPPO.__init__ ({| Toy.script := []; Toy.agents := 1 |} : @Env Toy.collaborators)
        (Toy.configuration 1 20 0.5 5 0 1) (0 : @Rng Toy.collaborators) = Ok (self, 0) /\
      optimizers_over_live (MAPPO.optims self)) /\
  (optimizers_over_live (MAPPO.optims (learner_after 3 0)) /\
   exists self',
     MAPPO.train (learner_after 3 0) (0 : @Rng Toy.collaborators) = Ok (self', 0) /\
     optimizers_over_live (MAPPO.optims self')).
Proof.
  split.
  - eexists. split; [reflexivity|].
    exact (proj1 (@targets_written_by_soft_update_only Toy.collaborators)
             {| Toy.script := []; Toy.agents := 1 |} (Toy.configuration 1 20 0.5 5 0 1)
             0 0 _ eq_refl).
  - split; [apply learner_after_live|].
    eexists. split; [reflexivity|].
    exact (proj1 (proj2 (proj2 (proj2 (@targets_written_by_soft_update_only Toy.collaborators)))
                    (learner_after 3 0) _ 0 0 (learner_after_live 3 0) eq_refl)).
Defined.

Lemma interact_at_start (warm_up : Z) :
  exists collected,
    MAPPO.interact (learner_at_start warm_up) (0 : @Rng Toy.collaborators) = Ok (collected, 0) /\
    MAPPO.n_episodes collected = 1%nat.
Proof.
  unfold MAPPO.interact. simpl.
  unfold MAPPO.process_rewards, MAPPO.scale_rewards. simpl.
  destruct (Rlt_dec 0 20) as [_|Hn]; [|exfalso; lra].
  simpl. eexists. split; reflexivity.
Defined.


(** ** The actor loss *)

Lemma broadcast_dim_same (k : nat) : broadcast_dim k k = Some k.
Proof. unfold broadcast_dim. rewrite Nat.eqb_refl. reflexivity. Qed.

Lemma broadcast_dim_one_l (k : nat) : broadcast_dim 1 k = Some k.
Proof.
  unfold broadcast_dim. destruct (1 =? k)%nat eqn:E; [|reflexivity].
  apply Nat.eqb_eq in E. subst. reflexivity.
Qed.

Lemma broadcast_dim_one_r (k : nat) : broadcast_dim k 1 = Some k.
Proof.
  unfold broadcast_dim. destruct (k =? 1)%nat eqn:E; reflexivity.
Qed.

Lemma expand_same (r c : nat) (m : mat) :
  length m = r -> rectangular c m -> expand r c m = m.
Proof.
  intros Hr Hc. unfold expand.
  assert (Hrows : match m with [x] => repeat x r | _ => m end = m).
  { destruct m as [|x [|y m']]; try reflexivity. simpl in Hr. subst r. reflexivity. }
  rewrite Hrows. clear Hrows Hr.
  induction Hc as [|v m Hv _ IH]; simpl; [reflexivity|].
  rewrite IH. f_equal.
  destruct v as [|x [|y v']]; try reflexivity. simpl in Hv. subst c. reflexivity.
Qed.

Lemma n_cols_rectangular (c : nat) (m : mat) :
  m <> [] -> rectangular c m -> n_cols m = c.
Proof.
  intros Hne H. destruct H as [|v m Hv _]; [contradiction|]. exact Hv.
Qed.

(** Operands of one shape: the operation is elementwise. *)
Lemma broadcast_same_shape (f : R -> R -> R) (c : nat) (x y : mat) :
  x <> [] -> length x = length y -> rectangular c x -> rectangular c y ->
  broadcast f x y = Ok (zip_with (zip_with f) x y).
Proof.
  intros Hne Hlen Hx Hy. unfold broadcast, n_rows.
  assert (Hney : y <> []) by (intros ->; destruct x; [contradiction|discriminate]).
  rewrite (n_cols_rectangular c x Hne Hx), (n_cols_rectangular c y Hney Hy).
  rewrite <- Hlen, !broadcast_dim_same.
  rewrite (expand_same _ _ x eq_refl Hx).
  rewrite (expand_same _ _ y (eq_sym Hlen) Hy).
  reflexivity.
Qed.

Lemma zip_with_repeat_r {A B C : Type} (f : A -> B -> C) (u : list A) (y : B) :
  zip_with f u (repeat y (length u)) = map (fun x => f x y) u.
Proof. induction u as [|x u IH]; simpl; [reflexivity|]. rewrite IH; reflexivity. Qed.

Lemma zip_with_repeat_l {A B C : Type} (f : A -> B -> C) (u : A) (v : list B) :
  zip_with f (repeat u (length v)) v = map (fun y => f u y) v.
Proof. induction v as [|y v IH]; simpl; [reflexivity|]. rewrite IH; reflexivity. Qed.

Lemma zip_with_map_r {A B B' C : Type} (f : A -> B' -> C) (g : B -> B') (l : list A)
  (m : list B) :
  zip_with f l (map g m) = zip_with (fun a b => f a (g b)) l m.
Proof.
  revert m; induction l as [|a l IH]; intros [|b m]; simpl; auto.
  rewrite IH; reflexivity.
Qed.

Lemma zip_with_map_l {A A' B C : Type} (f : A' -> B -> C) (g : A -> A') (l : list A)
  (m : list B) :
  zip_with f (map g l) m = zip_with (fun a b => f (g a) b) l m.
Proof.
  revert m; induction l as [|a l IH]; intros [|b m]; simpl; auto.
  rewrite IH; reflexivity.
Qed.

Lemma zip_with_diag {A C : Type} (f : A -> A -> C) (l : list A) :
  zip_with f l l = map (fun a => f a a) l.
Proof. induction l as [|a l IH]; simpl; [reflexivity|]. rewrite IH; reflexivity. Qed.

Lemma map_zip_with {A B C D : Type} (g : C -> D) (f : A -> B -> C) (l : list A) (m : list B) :
  map g (zip_with f l m) = zip_with (fun a b => g (f a b)) l m.
Proof.
  revert m; induction l as [|a l IH]; intros [|b m]; simpl; auto.
  rewrite IH; reflexivity.
Qed.

Lemma zip_with_zip_with {A B C D E : Type} (h : C -> D -> E) (f : A -> B -> C)
  (g : A -> B -> D) (l : list A) (m : list B) :
  zip_with h (zip_with f l m) (zip_with g l m) = zip_with (fun a b => h (f a b) (g a b)) l m.
Proof.
  revert m; induction l as [|a l IH]; intros [|b m]; simpl; auto.
  rewrite IH; reflexivity.
Qed.

Lemma expand_row (u : vec) (k : nat) :
  length u = k -> expand k k (row u) = repeat u k.
Proof.
  intros Hlen. unfold expand, row. rewrite map_repeat. f_equal.
  destruct u as [|x [|x' u']]; try reflexivity.
  simpl in Hlen. rewrite <- Hlen. reflexivity.
Qed.

Lemma expand_column (v : vec) (k : nat) :
  length v = k -> expand k k (column v) = map (fun y => repeat y k) v.
Proof.
  intros Hlen. unfold expand.
  assert (Hrows : match column v with [x] => repeat x k | _ => column v end = column v).
  { destruct v as [|y [|y' v']]; try reflexivity. simpl in Hlen. subst k. reflexivity. }
  rewrite Hrows. unfold column. rewrite map_map. reflexivity.
Qed.

(** A one-dimensional tensor against a column: every entry of the first
    meets every entry of the second. Row i of the result belongs to entry i
    of the column. *)
Lemma broadcast_row_column (f : R -> R -> R) (u v : vec) :
  v <> [] -> length u = length v ->
  broadcast f (row u) (column v) = Ok (map (fun y => map (fun x => f x y) u) v).
Proof.
  intros Hne Hlen. unfold broadcast, n_rows, n_cols.
  assert (Hc : length (column v) = length v) by apply length_map.
  assert (Hhd : length (hd [] (column v)) = 1%nat)
    by (destruct v; [contradiction|reflexivity]).
  rewrite Hc, Hhd. unfold row at 1 2. simpl length at 1. simpl hd.
  rewrite broadcast_dim_one_l, Hlen, broadcast_dim_one_r.
  f_equal.
  rewrite (expand_row u (length v) Hlen), (expand_column v (length v) eq_refl).
  rewrite zip_with_map_r, zip_with_repeat_l.
  apply map_ext. intros y. rewrite <- Hlen. apply zip_with_repeat_r.
Qed.

Lemma rectangular_map (c : nat) (F : R -> vec) (v : vec) :
  (forall y, length (F y) = c) -> rectangular c (map F v).
Proof.
  intros H. induction v as [|y v IH]; simpl; constructor; auto.
Qed.

Lemma zip_with_column (f : R -> R -> R) (u v : vec) :
  zip_with (zip_with f) (column u) (column v) = column (zip_with f u v).
Proof.
  revert v; induction u as [|x u IH]; intros [|y v]; simpl; auto.
  rewrite IH; reflexivity.
Qed.

Lemma rectangular_column (v : vec) : rectangular 1 (column v).
Proof. induction v as [|x v IH]; simpl; constructor; auto. Qed.

Lemma column_nonempty (v : vec) : v <> [] -> column v <> [].
Proof. destruct v; [contradiction|discriminate]. Qed.

Lemma nonempty_length {A : Type} (l : list A) (k : nat) :
  length l = k -> (0 < k)%nat -> l <> [].
Proof. intros H Hk ->. simpl in H. lia. Qed.

Lemma zip_with_length_eq {A B C : Type} (f : A -> B -> C) (l : list A) (m : list B)
  (k : nat) :
  length l = k -> length m = k -> length (zip_with f l m) = k.
Proof. intros Hl Hm. rewrite zip_with_length, Hl, Hm. apply Nat.min_id. Qed.

Section ActorLoss.
Context {W : Collaborators}.

Lemma log_probs_of_batch (theta : params) (s a : mat) :
  MAPPO.sum_dim1 (zip_with (zip_with Rmult) (MAPPO.actor_forward theta s) a) =
  zip_with (log_prob_proxy theta) s a.
Proof.
  unfold MAPPO.sum_dim1, MAPPO.actor_forward.
  rewrite map_zip_with, zip_with_map_l. reflexivity.
Qed.

(** What the expression of [actor_loss] in [train] evaluates to on a batch
    of B >= 1 samples: the mean runs over the B x B products of every
    sample's ratio with every sample's advantage, because [ratio] has shape
    (B,) and [advantages] has shape (B, 1). *)
Lemma actor_loss_all_pairs (c : MAPPO.config) (n : MAPPO.networks) (s a : mat) (r : vec)
  (theta : params) (ad : nat) :
  r <> [] -> length s = length r -> length a = length r ->
  rectangular ad a ->
  Forall (fun x => length (ActorNetwork theta x) = ad) s ->
  Forall (fun x => length (ActorNetwork (MAPPO.actor_target n) x) = ad) s ->
  MAPPO.actor_loss c n s a (column r) theta =
  Ok (pairwise_surrogate (MAPPO.clip_param c) (ratios n theta s a) (advantages n s a r)).
Proof.
  intros Hr Hs Ha Hrect Hlive Htarget.
  unfold mat, vec in *.
  assert (HB : (0 < length r)%nat) by (destruct r; [contradiction|simpl; lia]).
  assert (Hsne : s <> []) by (apply (nonempty_length s (length r)); auto).
  unfold MAPPO.actor_loss, MAPPO.critic_forward.
  (* advantages *)
  set (vals := zip_with (CriticNetwork (MAPPO.critic_target n)) s a).
  unfold vec, mat in *.
  assert (Hvals : length vals = length r).
  { unfold vals. apply zip_with_length_eq; assumption. }
  rewrite (broadcast_same_shape Rminus 1 (column r) (column vals)); cycle 1.
  { apply column_nonempty; exact Hr. }
  { unfold column. rewrite !length_map. symmetry; exact Hvals. }
  { apply rectangular_column. }
  { apply rectangular_column. }
  simpl bind. rewrite zip_with_column.
  fold (advantages n s a r).
  (* the two log-probability proxies *)
  assert (Hfwd : forall p, Forall (fun x => length (ActorNetwork p x) = ad) s ->
            broadcast Rmult (MAPPO.actor_forward p s) a =
            Ok (zip_with (zip_with Rmult) (MAPPO.actor_forward p s) a)).
  { intros p Hp. apply (broadcast_same_shape Rmult ad).
    - unfold MAPPO.actor_forward. destruct s; [contradiction|discriminate].
    - unfold MAPPO.actor_forward. rewrite length_map.
      exact (eq_trans Hs (eq_sym Ha)).
    - unfold MAPPO.actor_forward. clear -Hp.
      induction Hp as [|x s Hx _ IH]; simpl; constructor; auto.
    - exact Hrect. }
  rewrite (Hfwd theta Hlive). simpl bind.
  rewrite (Hfwd (MAPPO.actor_target n) Htarget). simpl bind.
  rewrite !log_probs_of_batch.
  set (live := zip_with (log_prob_proxy theta) s a).
  set (old := zip_with (log_prob_proxy (MAPPO.actor_target n)) s a).
  unfold vec, mat in *.
  assert (Hll : length live = length r).
  { unfold live. apply zip_with_length_eq; assumption. }
  assert (Hlo : length old = length r).
  { unfold old. apply zip_with_length_eq; assumption. }
  rewrite (broadcast_same_shape Rminus (length r) (row live) (row old)); cycle 1.
  { discriminate. }
  { reflexivity. }
  { repeat constructor. exact Hll. }
  { repeat constructor. exact Hlo. }
  simpl bind.
  assert (Hratio : map exp (zip_with Rminus live old) = ratios n theta s a).
  { unfold live, old. rewrite zip_with_zip_with, map_zip_with. reflexivity. }
  unfold vec, mat in *. rewrite Hratio.
  change (zip_with Rminus r vals) with (advantages n s a r).
  set (rho := ratios n theta s a).
  set (adv := advantages n s a r).
  unfold vec, mat in *.
  assert (Hrho : length rho = length r).
  { unfold rho, ratios. apply zip_with_length_eq; assumption. }
  assert (Hadv : length adv = length r).
  { unfold adv, advantages. apply zip_with_length_eq; [reflexivity|exact Hvals]. }
  assert (Hadvne : adv <> []) by (apply (nonempty_length adv (length r)); auto).
  (* the two surrogates *)
  change [rho] with (row rho).
  rewrite (broadcast_row_column Rmult rho adv Hadvne (eq_trans Hrho (eq_sym Hadv))).
  simpl bind.
  change [map (clamp (1 - MAPPO.clip_param c) (1 + MAPPO.clip_param c)) rho]
    with (row (map (clamp (1 - MAPPO.clip_param c) (1 + MAPPO.clip_param c)) rho)).
  rewrite (broadcast_row_column Rmult _ adv Hadvne)
    by (rewrite length_map; exact (eq_trans Hrho (eq_sym Hadv))).
  simpl bind.
  rewrite (broadcast_same_shape Rmin (length rho)); cycle 1.
  { destruct adv; [contradiction|discriminate]. }
  { rewrite !length_map. reflexivity. }
  { apply rectangular_map. intros y. apply length_map. }
  { apply rectangular_map. intros y. rewrite !length_map. reflexivity. }
  simpl bind. f_equal. unfold pairwise_surrogate. f_equal. f_equal.
  rewrite zip_with_map_l, zip_with_map_r, zip_with_diag.
  apply map_ext. intros y.
  rewrite zip_with_map_l, zip_with_map_r, zip_with_map_r, zip_with_diag.
  reflexivity.
Qed.

(** On a batch of one sample every pair is the sample with itself, and
    the loss of [train] is the clipped surrogate. *)
Lemma actor_loss_single_sample (c : MAPPO.config) (n : MAPPO.networks) (s a : vec) (r : R)
  (theta : params) :
  length (ActorNetwork theta s) = length a ->
  length (ActorNetwork (MAPPO.actor_target n) s) = length a ->
  MAPPO.actor_loss c n [s] [a] (column [r]) theta =
  Ok (clipped_surrogate (MAPPO.clip_param c)
        [sample_ratio n theta s a] [sample_advantage n s a r]).
Proof.
  intros Hlive Htarget.
  rewrite (actor_loss_all_pairs c n [s] [a] [r] theta (length a)).
  - reflexivity.
  - discriminate.
  - reflexivity.
  - reflexivity.
  - repeat constructor.
  - repeat constructor. exact Hlive.
  - repeat constructor. exact Htarget.
Qed.

End ActorLoss.

Lemma exp_quarter : 1.25 < exp (1 / 4).
Proof. pose proof (exp_ineq1 (1 / 4)) as H. lra. Qed.

(** C2 does not hold of the code on a batch of two samples. With ratios
    (exp(1/4), 1), advantages (1, -1) and eps = 0.2 the clipped surrogate
    loss is -0.1, but [train] computes (exp(1/4) - 1.2) / 4 > 0: its mean
    runs over the four products of each ratio with each advantage. *)
Theorem actor_loss_pairs_across_samples :
  exists L,
    @MAPPO.actor_loss Toy.collaborators (Toy.configuration 1 20 0.5 5 0 1) drifted
      [[0]; [0]] [[1]; [0]] (column [1; -1]) [[0.5]] = Ok L /\
    L = (exp (1 / 4) - 1.2) / 4 /\
    0 < L /\
    clipped_surrogate 0.2
      (@ratios Toy.collaborators drifted [[0.5]] [[0]; [0]] [[1]; [0]])
      (@advantages Toy.collaborators drifted [[0]; [0]] [[1]; [0]] [1; -1]) = -0.1.
Proof.
  pose proof exp_quarter as Hq.
  eexists. split.
  - rewrite (@actor_loss_all_pairs Toy.collaborators _ drifted [[0]; [0]] [[1]; [0]] [1; -1]
               [[0.5]] 1); try reflexivity; try discriminate; repeat constructor.
  - assert (Hrho : @ratios Toy.collaborators drifted [[0.5]] [[0]; [0]] [[1]; [0]] =
                   [exp (1 / 4); 1]).
    { unfold ratios, sample_ratio, log_prob_proxy. simpl.
      replace (0.5 * 1 + 0 - (0.25 * 1 + 0)) with (1 / 4) by lra.
      replace (0.5 * 0 + 0 - (0.25 * 0 + 0)) with 0 by lra.
      rewrite exp_0. reflexivity. }
    assert (Hadv : @advantages Toy.collaborators drifted [[0]; [0]] [[1]; [0]] [1; -1] =
                   [1; -1]).
    { unfold advantages. simpl. unfold Toy.critic_net. simpl.
      repeat (f_equal; try lra). }
    rewrite Hrho, Hadv.
    set (q := exp (1 / 4)) in *.
    assert (HL : pairwise_surrogate 0.2 [q; 1] [1; -1] = (q - 1.2) / 4).
    { unfold pairwise_surrogate, mean, clipped_term, clamp. simpl. eval_min_max. }
    simpl MAPPO.clip_param. rewrite HL.
    split; [reflexivity|]. split; [lra|].
    unfold clipped_surrogate, clipped_term, clamp. simpl. eval_min_max.
Qed.

(* ================================================================== *)
(** * Further properties

    The bookkeeping of [interact] and [train], their behaviour at the bounds
    of the configuration, the two losses, the checkpoints, and the
    environment's reward, cost, termination and initial vehicles. *)

(** ** The discounted return in closed form *)

Lemma sum_map_scale {A : Type} (c : R) (f : A -> R) (l : list A) :
  sum (map (fun x => c * f x) l) = c * sum (map f l).
Proof.
  induction l as [|x l IH]; simpl; [lra|]. rewrite IH. lra.
Qed.

Lemma power_sum_cons (gamma r : R) (l : vec) :
  power_sum gamma (r :: l) = r + gamma * power_sum gamma l.
Proof.
  unfold power_sum. simpl length. rewrite <- cons_seq. simpl map. simpl sum.
  rewrite <- seq_shift, map_map.
  rewrite <- sum_map_scale. f_equal; [lra|].
  f_equal. apply map_ext. intros k. simpl. lra.
Qed.

Lemma skipn_nth_cons {A : Type} (l : list A) (t : nat) (d : A) :
  (t < length l)%nat -> skipn t l = nth t l d :: skipn (S t) l.
Proof.
  revert t; induction l as [|x l IH]; intros [|t] H; simpl in *; try lia; auto.
  apply IH; lia.
Qed.

Lemma discount_reward_closed_form :
  forall (gamma : R) (rewards : vec) (final_value : R) (t : nat),
    (t < length rewards)%nat ->
    nth t (MAPPO._discount_reward gamma rewards final_value) 0 =
    power_sum gamma (skipn t rewards) + gamma ^ (length rewards - t) * final_value.
Proof.
  intros gamma rewards final_value.
  pose proof (discount_from_spec gamma rewards (length rewards) final_value
                (repeat 0 (length rewards))) as H.
  rewrite repeat_length in H. destruct (H (le_n _)) as (_ & _ & Hrec). clear H.
  change (discount_from gamma rewards (length rewards) final_value
            (repeat 0 (length rewards)))
    with (MAPPO._discount_reward gamma rewards final_value) in Hrec.
  set (D := MAPPO._discount_reward gamma rewards final_value) in *.
  assert (Hgen : forall m t, (t + m = length rewards)%nat -> (0 < m)%nat ->
            nth t D 0 = power_sum gamma (skipn t rewards) + gamma ^ m * final_value).
  { induction m as [|m IH]; intros t Ht Hm; [lia|].
    rewrite (Hrec t) by lia.
    rewrite (skipn_nth_cons rewards t 0) by lia. rewrite power_sum_cons.
    destruct (S t <? length rewards)%nat eqn:E.
    - apply Nat.ltb_lt in E. rewrite (IH (S t)) by lia. simpl. lra.
    - apply Nat.ltb_ge in E. assert (m = 0)%nat by lia. subst m.
      rewrite skipn_all2 by lia. unfold power_sum. simpl. lra. }
  intros t Ht. apply Hgen; lia.
Qed.

(** X1. [_discount_reward] returns, at every index t of the rollout, the
    discounted sum of the rewards from t on plus the bootstrap value
    discounted once per remaining step:
    sum_k gamma^k * r[t+k] + gamma^(n-t) * final_value. *)
Theorem discount_reward_is_discounted_sum :
  forall (gamma : R) (rewards : vec) (final_value : R),
    MAPPO._discount_reward gamma rewards final_value =
    map (fun t => power_sum gamma (skipn t rewards)
                  + gamma ^ (length rewards - t) * final_value)
      (seq 0 (length rewards)).
Proof.
  intros gamma rewards final_value.
  apply (nth_ext _ _ 0 0).
  - rewrite discount_reward_length, length_map, length_seq. reflexivity.
  - intros t Ht. rewrite discount_reward_length in Ht.
    rewrite discount_reward_closed_form by exact Ht.
    set (F := fun t => power_sum gamma (skipn t rewards)
                       + gamma ^ (length rewards - t) * final_value).
    rewrite (nth_indep _ 0 (F 0%nat)) by (rewrite length_map, length_seq; exact Ht).
    rewrite (map_nth F), seq_nth by exact Ht. reflexivity.
Qed.

(** ** Rollouts: what [interact] counts and stores *)

Lemma update_last_length {A : Type} (f : A -> A) (l l' : list A) :
  MAPPO.update_last f l = Ok l' -> length l' = length l.
Proof.
  unfold MAPPO.update_last. intros H.
  destruct (rev l) as [|x before] eqn:E; [discriminate|].
  inversion H; subst; clear H.
  rewrite length_app, length_rev. simpl.
  rewrite <- (length_rev l), E. simpl. lia.
Qed.

Lemma update_last_last {A : Type} (f : A -> A) (l l' : list A) :
  MAPPO.update_last f l = Ok l' ->
  exists before x, l = before ++ [x] /\ l' = before ++ [f x].
Proof.
  unfold MAPPO.update_last. intros H.
  destruct (rev l) as [|x before] eqn:E; [discriminate|].
  inversion H; subst; clear H.
  exists (rev before), x. split; [|reflexivity].
  rewrite <- (rev_involutive l), E. reflexivity.
Qed.

Lemma map_result_length {A B : Type} (f : A -> result B) (l : list A) :
  forall l', map_result f l = Ok l' -> length l' = length l.
Proof.
  induction l as [|a l IH]; intros l' H; simpl in H.
  - inversion H; reflexivity.
  - apply bind_ok in H. destruct H as (b & _ & H).
    apply bind_ok in H. destruct H as (bs & Hbs & H).
    inversion H; subst; clear H. simpl. rewrite (IH bs Hbs). reflexivity.
Qed.

Lemma get_column_length (a : list vec) (j : nat) (c : vec) :
  get_column a j = Ok c -> length c = length a.
Proof.
  unfold get_column. destruct a as [|r a]; [discriminate|].
  apply map_result_length.
Qed.

Lemma discount_columns_length (gamma : R) (n : nat) (final_value : vec) (a : list vec)
  (out : py_rewards) :
  MAPPO.discount_columns gamma n final_value (NdArray a) = Ok out ->
  exists a', out = NdArray a' /\ length a' = length a.
Proof.
  unfold MAPPO.discount_columns.
  apply (for_each_invariant (fun s => exists a', s = NdArray a' /\ length a' = length a)).
  - intros s j s' (a1 & -> & Hlen) H.
    apply bind_ok in H. destruct H as (column_j & Hcol & H).
    apply bind_ok in H. destruct H as (v & _ & H).
    inversion H; subst; clear H.
    eexists. split; [reflexivity|].
    rewrite set_column_length; [exact Hlen|].
    rewrite discount_reward_length. exact (get_column_length _ _ _ Hcol).
  - exists a. split; reflexivity.
Qed.

Lemma np_array_id (rows a : list vec) : np_array rows = Ok a -> a = rows.
Proof.
  unfold np_array. destruct rows as [|r rows]; [intros H; inversion H; reflexivity|].
  destruct (forallb _ _); intros H; inversion H; reflexivity.
Qed.

Lemma process_rewards_length (c : MAPPO.config) (n : nat) (final_value : vec)
  (rewards stored : list vec) :
  MAPPO.process_rewards c n final_value rewards = Ok stored ->
  0 < MAPPO.reward_scale c /\ length stored = length rewards.
Proof.
  intros H.
  destruct (Rlt_dec 0 (MAPPO.reward_scale c)) as [Hpos|Hneg].
  - split; [exact Hpos|].
    unfold MAPPO.process_rewards, MAPPO.scale_rewards in H.
    destruct (Rlt_dec 0 (MAPPO.reward_scale c)) as [_|Hn]; [|contradiction].
    apply bind_ok in H. destruct H as (scaled & Hs & H).
    apply bind_ok in Hs. destruct Hs as (a & Ha & Hs).
    inversion Hs; subst; clear Hs.
    apply bind_ok in H. destruct H as (discounted & Hd & H).
    destruct (discount_columns_length _ _ _ _ _ Hd) as (a' & -> & Hlen).
    simpl in H. inversion H; subst; clear H.
    rewrite Hlen, !length_map. rewrite (np_array_id _ _ Ha). reflexivity.
  - rewrite unscaled_rewards_raise in H by lra. discriminate.
Qed.

Lemma process_rewards_columns (c : MAPPO.config) (n : nat) (final_value : vec)
  (rewards : list vec) :
  0 < MAPPO.reward_scale c -> rewards <> [] -> rectangular n rewards ->
  length final_value = n ->
  exists stored,
    MAPPO.process_rewards c n final_value rewards = Ok stored /\
    length stored = length rewards /\
    forall j, (j < n)%nat ->
      col stored j =
      MAPPO._discount_reward (MAPPO.reward_gamma c)
        (map (fun r => nth j r 0 / MAPPO.reward_scale c) rewards)
        (nth j final_value 0).
Proof.
  intros Hpos Hne Hrect Hfv.
  unfold MAPPO.process_rewards, MAPPO.scale_rewards.
  destruct (Rlt_dec 0 (MAPPO.reward_scale c)) as [_|Hn]; [|contradiction].
  rewrite (np_array_rectangular n rewards Hrect). simpl.
  set (scaled := map (map (fun r => r / MAPPO.reward_scale c)) rewards).
  destruct (discount_columns_from (MAPPO.reward_gamma c) final_value n n 0 scaled)
    as (a' & Hrun & Hlen & _ & Hcols).
  + unfold scaled. destruct rewards; [contradiction|discriminate].
  + apply map_map_rectangular; exact Hrect.
  + lia.
  + lia.
  + unfold MAPPO.discount_columns. rewrite Hrun. simpl.
    exists a'. split; [reflexivity|]. split.
    * rewrite Hlen. unfold scaled. apply length_map.
    * intros j Hj. rewrite (Hcols j Hj).
      replace ((0 <=? j) && (j <? 0 + n))%nat with true.
      -- unfold scaled. rewrite (col_map_map _ n) by auto. reflexivity.
      -- symmetry. apply andb_true_intro. split;
           [apply Nat.leb_le; lia | apply Nat.ltb_lt; lia].
Qed.

(** X2. With the reward type "global_R" every row of the rollout's rewards
    repeats the global reward once per agent; after scaling and discounting,
    two agents with the same bootstrap value (all agents, when the rollout
    ended the episode and the bootstrap values are 0) are stored the same
    returns, the discounted scaled global rewards. *)
Theorem global_reward_gives_equal_returns :
  forall (c : MAPPO.config) (n : nat) (final_value : vec) (global_rewards : vec)
         (j j' : nat),
    0 < MAPPO.reward_scale c ->
    global_rewards <> [] ->
    length final_value = n ->
    (j < n)%nat -> (j' < n)%nat ->
    nth j final_value 0 = nth j' final_value 0 ->
    exists stored,
      MAPPO.process_rewards c n final_value (map (fun r => repeat r n) global_rewards) =
        Ok stored /\
      col stored j = col stored j' /\
      col stored j =
        MAPPO._discount_reward (MAPPO.reward_gamma c)
          (map (fun r => r / MAPPO.reward_scale c) global_rewards) (nth j final_value 0).
Proof.
  intros c n fv rs j j' Hpos Hne Hfv Hj Hj' Heq.
  destruct (process_rewards_columns c n fv (map (fun r => repeat r n) rs) Hpos)
    as (stored & Hrun & _ & Hcols).
  - destruct rs; [contradiction|discriminate].
  - unfold rectangular. apply Forall_map. apply Forall_forall.
    intros r _. apply repeat_length.
  - exact Hfv.
  - assert (Hcol : forall i, (i < n)%nat ->
              map (fun r => nth i r 0 / MAPPO.reward_scale c)
                (map (fun r => repeat r n) rs) =
              map (fun r => r / MAPPO.reward_scale c) rs).
    { intros i Hi. rewrite map_map. apply map_ext. intros r.
      rewrite nth_repeat_lt by exact Hi. reflexivity. }
    exists stored. split; [exact Hrun|].
    rewrite (Hcols j Hj), (Hcols j' Hj'), (Hcol j Hj), (Hcol j' Hj'), Heq.
    split; reflexivity.
Qed.

(** Two agents, two steps with the global reward 20, a finished episode. *)
Lemma global_reward_gives_equal_returns_witness :
  0 < 20 /\ [20; 20] <> ([] : vec) /\ length [0; 0] = 2%nat /\
  (0 < 2)%nat /\ (1 < 2)%nat /\ nth 0 [0; 0] 0 = nth 1 [0; 0] 0 /\
  exists stored,
    MAPPO.process_rewards (Toy.configuration 0.25 20 0 5 0 2) 2 [0; 0]
      [[20; 20]; [20; 20]] = Ok stored /\
    col stored 0 = col stored 1.
Proof.
  assert (H1 : 0 < 20) by lra.
  assert (H2 : [20; 20] <> ([] : vec)) by discriminate.
  assert (H3 : length [0; 0] = 2%nat) by reflexivity.
  assert (H4 : (0 < 2)%nat) by lia.
  assert (H5 : (1 < 2)%nat) by lia.
  assert (H6 : nth 0 [0; 0] 0 = nth 1 [0; 0] 0) by reflexivity.
  repeat (split; [assumption|]).
  destruct (global_reward_gives_equal_returns (Toy.configuration 0.25 20 0 5 0 2) 2 [0; 0]
              [20; 20] 0 1 H1 H2 H3 H4 H5 H6) as (stored & Hrun & Heq & _).
  exists stored. split; [exact Hrun|exact Heq].
Defined.

Section Rollouts.
Context {W : Collaborators}.

(** What one pass of the loop of [interact] leaves as it is, and what it
    appends. *)
Lemma one_step_spec (n : nat) (self self' : MAPPO.learner) (g g' : Rng)
  (ro ro' : MAPPO.rollout) :
  MAPPO.one_step n self g ro = Ok (self', g', ro') ->
  MAPPO.cfg self' = MAPPO.cfg self /\
  MAPPO.n_episodes self' = MAPPO.n_episodes self /\
  MAPPO.n_agents self' = MAPPO.n_agents self /\
  MAPPO.memory self' = MAPPO.memory self /\
  MAPPO.episode_done self' = MAPPO.episode_done self /\
  MAPPO.n_steps self' = S (MAPPO.n_steps self) /\
  length (MAPPO.episode_rewards (MAPPO.hist self')) =
    length (MAPPO.episode_rewards (MAPPO.hist self)) /\
  MAPPO.average_speed (MAPPO.hist self') = MAPPO.average_speed (MAPPO.hist self) /\
  (exists before k, MAPPO.epoch_steps (MAPPO.hist self) = before ++ [k] /\
                    MAPPO.epoch_steps (MAPPO.hist self') = before ++ [S k]) /\
  MAPPO.states ro' = MAPPO.states ro ++ [MAPPO.env_state self] /\
  length (MAPPO.actions ro') = S (length (MAPPO.actions ro)) /\
  length (MAPPO.rewards ro') = S (length (MAPPO.rewards ro)) /\
  MAPPO.final_state ro' = Some (MAPPO.env_state self').
Proof.
  intros H. unfold MAPPO.one_step in H.
  apply bind_ok in H. destruct H as ([act g1] & _ & H).
  apply bind_ok in H. destruct H as ([[e g2] [[[next_state global_reward] d] info]] & _ & H).
  apply bind_ok in H. destruct H as (er & Her & H).
  apply bind_ok in H. destruct H as (es & Hes & H).
  apply bind_ok in H. destruct H as (reward & _ & H).
  inversion H; subst; clear H. simpl.
  repeat (split; [reflexivity|]).
  split; [exact (update_last_length _ _ _ Her)|].
  split; [reflexivity|].
  split; [destruct (update_last_last _ _ _ Hes) as (b & k & E1 & E2); exists b, k; auto|].
  split; [reflexivity|].
  rewrite !length_app. simpl. repeat split; lia.
Qed.

Lemma take_steps_spec (i n : nat) :
  forall (self self' : MAPPO.learner) (g g' : Rng) (ro ro' : MAPPO.rollout),
    MAPPO.take_steps i n self g ro = Ok (self', g', ro') ->
    MAPPO.cfg self' = MAPPO.cfg self /\
    MAPPO.n_episodes self' = MAPPO.n_episodes self /\
    MAPPO.n_agents self' = MAPPO.n_agents self /\
    MAPPO.memory self' = MAPPO.memory self /\
    MAPPO.episode_done self' = MAPPO.episode_done self /\
    length (MAPPO.episode_rewards (MAPPO.hist self')) =
      length (MAPPO.episode_rewards (MAPPO.hist self)) /\
    MAPPO.average_speed (MAPPO.hist self') = MAPPO.average_speed (MAPPO.hist self) /\
    length (MAPPO.epoch_steps (MAPPO.hist self')) =
      length (MAPPO.epoch_steps (MAPPO.hist self)) /\
    exists k,
      (k <= i)%nat /\
      length (MAPPO.states ro') = (length (MAPPO.states ro) + k)%nat /\
      length (MAPPO.actions ro') = (length (MAPPO.actions ro) + k)%nat /\
      length (MAPPO.rewards ro') = (length (MAPPO.rewards ro) + k)%nat /\
      MAPPO.n_steps self' = (MAPPO.n_steps self + k)%nat /\
      (MAPPO.done ro' = false -> k = i) /\
      (0 < i -> 0 < k)%nat /\
      (k = 0%nat -> ro' = ro /\ self' = self) /\
      ((0 < k)%nat -> exists before m,
          MAPPO.epoch_steps (MAPPO.hist self') = before ++ [S m]).
Proof.
  induction i as [|i IH]; intros self self' g g' ro ro' H; simpl in H.
  - inversion H; subst; clear H. repeat (split; [reflexivity|]).
    exists 0%nat. repeat split; try lia; auto.
  - apply bind_ok in H. destruct H as ([[s1 g1] ro1] & Hstep & H).
    destruct (one_step_spec _ _ _ _ _ _ _ Hstep)
      as (C1 & C2 & C3 & C4 & C5 & C6 & C7 & C8 & (b & m & C9 & C10) & C11 & C12 & C13 & _).
    assert (L9 : length (MAPPO.epoch_steps (MAPPO.hist s1)) =
                 length (MAPPO.epoch_steps (MAPPO.hist self))).
    { rewrite C9, C10, !length_app. reflexivity. }
    destruct (MAPPO.done ro1) eqn:Ed.
    + destruct (env_reset (MAPPO.env s1) g1) as [[e g2] s].
      inversion H; subst; clear H. simpl.
      repeat (split; [assumption|]).
      exists 1%nat. rewrite C11, length_app. simpl.
      repeat split; try lia.
      * intros Hf. rewrite Ed in Hf. discriminate.
      * intros _. exists b, m. exact C10.
    + destruct (IH _ _ _ _ _ _ H)
        as (D1 & D2 & D3 & D4 & D5 & D6 & D7 & D8 & k & K1 & K2 & K3 & K4 & K5 & K6 & K7 & K8 & K9).
      split; [congruence|]. split; [congruence|]. split; [congruence|].
      split; [congruence|]. split; [congruence|]. split; [congruence|].
      split; [congruence|]. split; [congruence|].
      exists (S k). rewrite C11, length_app in K2. simpl in K2.
      repeat split; try lia.
      * intros Hf. rewrite (K6 Hf). reflexivity.
      * intros _. destruct k as [|k].
        -- destruct (K8 eq_refl) as [_ ->]. exists b, m. exact C10.
        -- apply K9. lia.
Qed.

Lemma bootstrap_spec (n : nat) (self self' : MAPPO.learner) (g g' : Rng)
  (ro : MAPPO.rollout) (final_value : vec) :
  MAPPO.bootstrap n self g ro = Ok (self', g', final_value) ->
  MAPPO.cfg self' = MAPPO.cfg self /\
  MAPPO.n_agents self' = MAPPO.n_agents self /\
  MAPPO.memory self' = MAPPO.memory self /\
  MAPPO.n_steps self' = MAPPO.n_steps self /\
  MAPPO.episode_done self' = Some (MAPPO.done ro) /\
  MAPPO.n_episodes self' =
    (if MAPPO.done ro then S (MAPPO.n_episodes self) else MAPPO.n_episodes self) /\
  length (MAPPO.episode_rewards (MAPPO.hist self')) =
    ((if MAPPO.done ro then 1 else 0) + length (MAPPO.episode_rewards (MAPPO.hist self)))%nat /\
  length (MAPPO.average_speed (MAPPO.hist self')) =
    ((if MAPPO.done ro then 1 else 0) + length (MAPPO.average_speed (MAPPO.hist self)))%nat /\
  length (MAPPO.epoch_steps (MAPPO.hist self')) =
    ((if MAPPO.done ro then 1 else 0) + length (MAPPO.epoch_steps (MAPPO.hist self)))%nat /\
  (MAPPO.done ro = true -> final_value = repeat 0 n /\ g' = g).
Proof.
  intros H. unfold MAPPO.bootstrap in H.
  destruct (MAPPO.done ro).
  - apply bind_ok in H. destruct H as (steps_last & _ & H).
    apply bind_ok in H. destruct H as (speeds & Hsp & H).
    inversion H; subst; clear H. simpl.
    repeat (split; [reflexivity|]).
    rewrite !length_app. simpl.
    destruct (steps_last =? 0)%nat; [discriminate|].
    rewrite (update_last_length _ _ _ Hsp).
    repeat split; lia.
  - apply bind_ok in H. destruct H as (fs & _ & H).
    apply bind_ok in H. destruct H as ([final_action g1] & _ & H).
    apply bind_ok in H. destruct H as (fv & _ & H).
    inversion H; subst; clear H. simpl.
    repeat (split; [reflexivity|]). intros Hf; discriminate.
Qed.

(** [interact] as the three stages that follow its first statement. *)
Lemma interact_unfold (self : MAPPO.learner) (g : Rng) :
  exists s0 g0,
    MAPPO.cfg s0 = MAPPO.cfg self /\
    MAPPO.n_episodes s0 = MAPPO.n_episodes self /\
    MAPPO.memory s0 = MAPPO.memory self /\
    MAPPO.hist s0 = MAPPO.hist self /\
    MAPPO.n_steps s0 =
      match MAPPO.max_steps (MAPPO.cfg self) with
      | Some m => if (m <=? MAPPO.n_steps self)%nat then 0%nat else MAPPO.n_steps self
      | None => MAPPO.n_steps self
      end /\
    MAPPO.n_agents s0 = Some (controlled_vehicles (MAPPO.env s0)) /\
    MAPPO.interact self g =
      (' (s1, g1, ro) <- MAPPO.take_steps (MAPPO.roll_out_n_steps (MAPPO.cfg s0))
                           (controlled_vehicles (MAPPO.env s0)) s0 g0
                           {| MAPPO.states := []; MAPPO.actions := []; MAPPO.rewards := [];
                              MAPPO.done := true; MAPPO.speed_sum := 0;
                              MAPPO.final_state := None |} ;;
       ' (s2, g2, final_value) <- MAPPO.bootstrap (controlled_vehicles (MAPPO.env s0)) s1 g1 ro ;;
       as_list <- MAPPO.process_rewards (MAPPO.cfg s2) (controlled_vehicles (MAPPO.env s0))
                    final_value (MAPPO.rewards ro) ;;
       Ok (MAPPO.set_memory
             (memory_push (MAPPO.memory s2) (MAPPO.states ro) (MAPPO.actions ro) as_list) s2,
           g2)).
Proof.
  unfold MAPPO.interact.
  destruct (MAPPO.max_steps (MAPPO.cfg self)) as [m|].
  - destruct (m <=? MAPPO.n_steps self)%nat.
    + destruct (env_reset (MAPPO.env self) g) as [[e g0] s].
      eexists (MAPPO.set_n_agents _ (MAPPO.set_n_steps 0 (MAPPO.set_env e s self))), g0.
      simpl. repeat (split; [reflexivity|]). reflexivity.
    + eexists (MAPPO.set_n_agents _ self), g.
      simpl. repeat (split; [reflexivity|]). reflexivity.
  - eexists (MAPPO.set_n_agents _ self), g.
    simpl. repeat (split; [reflexivity|]). reflexivity.
Qed.

(** The bookkeeping of one call of [interact]. *)
Lemma interact_spec (self self' : MAPPO.learner) (g g' : Rng) :
  MAPPO.interact self g = Ok (self', g') ->
  MAPPO.cfg self' = MAPPO.cfg self /\
  (exists n, MAPPO.n_agents self' = Some n) /\
  exists d,
    MAPPO.episode_done self' = Some d /\
    MAPPO.n_episodes self' = (if d then S (MAPPO.n_episodes self) else MAPPO.n_episodes self) /\
    length (MAPPO.episode_rewards (MAPPO.hist self')) =
      ((if d then 1 else 0) + length (MAPPO.episode_rewards (MAPPO.hist self)))%nat /\
    length (MAPPO.average_speed (MAPPO.hist self')) =
      ((if d then 1 else 0) + length (MAPPO.average_speed (MAPPO.hist self)))%nat /\
    length (MAPPO.epoch_steps (MAPPO.hist self')) =
      ((if d then 1 else 0) + length (MAPPO.epoch_steps (MAPPO.hist self)))%nat.
Proof.
  intros H.
  destruct (interact_unfold self g) as (s0 & g0 & C0 & N0 & _ & Hh & _ & A0 & E).
  rewrite E in H. clear E.
  apply bind_ok in H. destruct H as ([[s1 g1] ro] & Hsteps & H).
  apply bind_ok in H. destruct H as ([[s2 g2] fv] & Hboot & H).
  apply bind_ok in H. destruct H as (as_list & _ & H).
  inversion H; subst; clear H. simpl.
  destruct (take_steps_spec _ _ _ _ _ _ _ _ Hsteps)
    as (C1 & N1 & A1 & _ & _ & L1 & L2 & L3 & _).
  destruct (bootstrap_spec _ _ _ _ _ _ _ Hboot)
    as (C2 & A2 & _ & _ & D2 & N2 & M1 & M2 & M3 & _).
  split; [rewrite C2, C1; exact C0|].
  split; [exists (controlled_vehicles (MAPPO.env s0)); rewrite A2, A1; exact A0|].
  exists (MAPPO.done ro).
  rewrite M1, M2, M3, N2, L1, L2, L3, N1, N0, Hh. auto.
Qed.

Lemma optimize_counters (self self' : MAPPO.learner) (t : list mat * list mat * list mat) :
  MAPPO.optimize self t = Ok self' ->
  MAPPO.cfg self' = MAPPO.cfg self /\
  MAPPO.n_episodes self' = MAPPO.n_episodes self /\
  MAPPO.hist self' = MAPPO.hist self /\
  MAPPO.memory self' = MAPPO.memory self.
Proof.
  intros H. unfold MAPPO.optimize in H. destruct t as [[sv av] rv].
  apply bind_ok in H. destruct H as (n & _ & H).
  apply bind_ok in H. destruct H as ([nts ops] & _ & H).
  inversion H; subst; clear H. simpl. auto.
Qed.

Lemma soft_update_target_counters (self self' : MAPPO.learner) (target source : MAPPO.net_id) :
  MAPPO._soft_update_target self target source = Ok self' ->
  MAPPO.cfg self' = MAPPO.cfg self /\
  MAPPO.n_episodes self' = MAPPO.n_episodes self /\
  MAPPO.hist self' = MAPPO.hist self /\
  MAPPO.memory self' = MAPPO.memory self.
Proof.
  intros H. unfold MAPPO._soft_update_target in H.
  apply bind_ok in H. destruct H as (p & _ & H).
  inversion H; subst; clear H. simpl. auto.
Qed.

Lemma update_targets_counters (self self' : MAPPO.learner) :
  MAPPO.update_targets self = Ok self' ->
  MAPPO.cfg self' = MAPPO.cfg self /\
  MAPPO.n_episodes self' = MAPPO.n_episodes self /\
  MAPPO.hist self' = MAPPO.hist self /\
  MAPPO.memory self' = MAPPO.memory self.
Proof.
  intros H. unfold MAPPO.update_targets in H.
  destruct (MAPPO.target_update_steps (MAPPO.cfg self) =? 0)%Z; [discriminate|].
  destruct (_ && _).
  - apply bind_ok in H. destruct H as (mid & Hmid & H).
    destruct (soft_update_target_counters _ _ _ _ Hmid) as (A1 & A2 & A3 & A4).
    destruct (soft_update_target_counters _ _ _ _ H) as (B1 & B2 & B3 & B4).
    repeat split; congruence.
  - inversion H; subst. auto.
Qed.

Lemma train_counters (self self' : MAPPO.learner) (g g' : Rng) :
  MAPPO.train self g = Ok (self', g') ->
  MAPPO.cfg self' = MAPPO.cfg self /\
  MAPPO.n_episodes self' = MAPPO.n_episodes self /\
  MAPPO.hist self' = MAPPO.hist self /\
  MAPPO.memory self' = MAPPO.memory self.
Proof.
  intros H. unfold MAPPO.train in H.
  destruct (memory_sample _ _ _) as [b g1].
  apply bind_ok in H. destruct H as (t & _ & H).
  apply bind_ok in H. destruct H as (mid & Hopt & H).
  apply bind_ok in H. destruct H as (final & Hupd & H).
  inversion H; subst; clear H.
  destruct (optimize_counters _ _ _ Hopt) as (A1 & A2 & A3 & A4).
  destruct (update_targets_counters _ _ Hupd) as (B1 & B2 & B3 & B4).
  repeat split; congruence.
Qed.

Lemma train_keeps_episode_done (self self' : MAPPO.learner) (g g' : Rng) :
  MAPPO.train self g = Ok (self', g') ->
  MAPPO.episode_done self' = MAPPO.episode_done self.
Proof.
  intros H. unfold MAPPO.train in H.
  destruct (memory_sample _ _ _) as [b g1].
  apply bind_ok in H. destruct H as (t & _ & H).
  apply bind_ok in H. destruct H as (mid & Hopt & H).
  apply bind_ok in H. destruct H as (final & Hupd & H).
  inversion H; subst; clear H.
  assert (E1 : MAPPO.episode_done mid = MAPPO.episode_done self).
  { unfold MAPPO.optimize in Hopt. destruct t as [[sv av] rv].
    apply bind_ok in Hopt. destruct Hopt as (n & _ & Hopt).
    apply bind_ok in Hopt. destruct Hopt as ([nts ops] & _ & Hopt).
    inversion Hopt; subst; reflexivity. }
  rewrite <- E1. clear E1 Hopt.
  unfold MAPPO.update_targets in Hupd.
  destruct (MAPPO.target_update_steps (MAPPO.cfg mid) =? 0)%Z; [discriminate|].
  destruct (_ && _).
  - apply bind_ok in Hupd. destruct Hupd as (m1 & H1 & H2).
    unfold MAPPO._soft_update_target in H1, H2.
    apply bind_ok in H1. destruct H1 as (p1 & _ & H1).
    apply bind_ok in H2. destruct H2 as (p2 & _ & H2).
    inversion H1; subst; clear H1. inversion H2; subst; clear H2. reflexivity.
  - inversion Hupd; subst; reflexivity.
Qed.

(** X3. With [reward_scale] <= 0 no call of [interact] returns: the rewards
    are never turned into an array, so that the discounting loop (or
    [tolist], without agents) raises, if nothing raised before. *)
Theorem interact_raises_without_reward_scale :
  forall (self : MAPPO.learner) (g : Rng),
    MAPPO.reward_scale (MAPPO.cfg self) <= 0 ->
    exists e, MAPPO.interact self g = Raise e.
Proof.
  intros self g Hle.
  destruct (interact_unfold self g) as (s0 & g0 & C0 & _ & _ & _ & _ & _ & ->).
  destruct (MAPPO.take_steps _ _ s0 g0 _) as [[[s1 g1] ro]|e] eqn:Et;
    [|exists e; reflexivity].
  simpl.
  destruct (MAPPO.bootstrap _ s1 g1 ro) as [[[s2 g2] fv]|e] eqn:Eb;
    [|exists e; reflexivity].
  simpl.
  destruct (take_steps_spec _ _ _ _ _ _ _ _ Et) as (C1 & _).
  destruct (bootstrap_spec _ _ _ _ _ _ _ Eb) as (C2 & _).
  rewrite unscaled_rewards_raise by (rewrite C2, C1, C0; exact Hle).
  eexists. reflexivity.
Qed.

(** X4. A call of [interact] that returns leaves the configuration as it
    is, sets [n_agents], and either ended an episode ([episode_done] is True
    and [n_episodes] grew by one) or did not ([episode_done] is False and
    [n_episodes] is unchanged). *)
Theorem interact_counts_finished_episodes :
  forall (self self' : MAPPO.learner) (g g' : Rng),
    MAPPO.interact self g = Ok (self', g') ->
    MAPPO.cfg self' = MAPPO.cfg self /\
    (exists n, MAPPO.n_agents self' = Some n) /\
    ((MAPPO.episode_done self' = Some true /\
      MAPPO.n_episodes self' = S (MAPPO.n_episodes self)) \/
     (MAPPO.episode_done self' = Some false /\
      MAPPO.n_episodes self' = MAPPO.n_episodes self)).
Proof.
  intros self self' g g' H.
  destruct (interact_unfold self g) as (s0 & g0 & C0 & N0 & _ & _ & _ & A0 & E).
  rewrite E in H. clear E.
  apply bind_ok in H. destruct H as ([[s1 g1] ro] & Hsteps & H).
  apply bind_ok in H. destruct H as ([[s2 g2] fv] & Hboot & H).
  apply bind_ok in H. destruct H as (as_list & _ & H).
  inversion H; subst; clear H. simpl.
  destruct (take_steps_spec _ _ _ _ _ _ _ _ Hsteps) as (C1 & N1 & A1 & _).
  destruct (bootstrap_spec _ _ _ _ _ _ _ Hboot) as (C2 & A2 & _ & _ & D2 & N2 & _).
  split; [rewrite C2, C1; exact C0|].
  split; [exists (controlled_vehicles (MAPPO.env s0)); rewrite A2, A1; exact A0|].
  rewrite D2, N2, N1, N0. destruct (MAPPO.done ro); [left|right]; split; reflexivity.
Qed.

(** X5. A call of [interact] that returns pushes exactly one rollout to the
    memory: as many actions and reward rows as states, at most
    [roll_out_n_steps] of them, exactly [roll_out_n_steps] when the episode
    is not over; [n_steps] grows by that number, from 0 if [max_steps] was
    reached. *)
Theorem interact_stores_one_rollout :
  forall (self self' : MAPPO.learner) (g g' : Rng),
    MAPPO.interact self g = Ok (self', g') ->
    exists (states : list obs) (actions : list (list vec)) (rewards : list vec),
      MAPPO.memory self' = memory_push (MAPPO.memory self) states actions rewards /\
      length actions = length states /\
      length rewards = length states /\
      (length states <= MAPPO.roll_out_n_steps (MAPPO.cfg self))%nat /\
      (MAPPO.episode_done self' = Some false ->
       length states = MAPPO.roll_out_n_steps (MAPPO.cfg self)) /\
      MAPPO.n_steps self' =
        (match MAPPO.max_steps (MAPPO.cfg self) with
         | Some m => if (m <=? MAPPO.n_steps self)%nat then 0 else MAPPO.n_steps self
         | None => MAPPO.n_steps self
         end + length states)%nat.
Proof.
  intros self self' g g' H.
  destruct (interact_unfold self g) as (s0 & g0 & C0 & _ & M0 & _ & S0 & _ & E).
  rewrite E in H. clear E.
  apply bind_ok in H. destruct H as ([[s1 g1] ro] & Hsteps & H).
  apply bind_ok in H. destruct H as ([[s2 g2] fv] & Hboot & H).
  apply bind_ok in H. destruct H as (as_list & Hproc & H).
  inversion H; subst; clear H. simpl.
  destruct (take_steps_spec _ _ _ _ _ _ _ _ Hsteps)
    as (C1 & _ & _ & M1 & _ & _ & _ & _ & k & K1 & K2 & K3 & K4 & K5 & K6 & _).
  destruct (bootstrap_spec _ _ _ _ _ _ _ Hboot) as (_ & _ & M2 & S2 & D2 & _).
  destruct (process_rewards_length _ _ _ _ _ Hproc) as [_ Hlen].
  simpl in K2, K3, K4.
  exists (MAPPO.states ro), (MAPPO.actions ro), as_list.
  rewrite C0 in K1.
  split; [congruence|]. split; [lia|]. split; [lia|]. split; [lia|]. split.
  - rewrite D2. intros Hd. rewrite K2. rewrite <- C0. apply K6. congruence.
  - rewrite S2, K5, S0, K2. reflexivity.
Qed.

(** X6. The lists [episode_rewards], [average_speed] and [epoch_steps] hold
    [n_episodes] + 1 entries each: the constructor establishes this, and
    [interact] and [train] keep it. *)
Theorem history_keeps_one_entry_per_episode :
  (forall (e : Env) (c : MAPPO.config) (g g' : Rng) (self : MAPPO.learner),
      MAPPO.__init__ e c g = Ok (self, g') -> history_aligned self) /\
  (forall (self self' : MAPPO.learner) (g g' : Rng),
      history_aligned self -> MAPPO.interact self g = Ok (self', g') ->
      history_aligned self') /\
  (forall (self self' : MAPPO.learner) (g g' : Rng),
      history_aligned self -> MAPPO.train self g = Ok (self', g') ->
      history_aligned self').
Proof.
  split; [|split].
  - intros e c g g' self H. unfold MAPPO.__init__ in H.
    destruct (negb _); [discriminate|].
    destruct (negb _); [discriminate|].
    destruct (env_reset e g) as [[e' g1] s].
    inversion H; subst; clear H. repeat split.
  - intros self self' g g' (H1 & H2 & H3) H.
    destruct (interact_unfold self g) as (s0 & g0 & _ & N0 & _ & Hh & _ & _ & E).
    rewrite E in H. clear E.
    apply bind_ok in H. destruct H as ([[s1 g1] ro] & Hsteps & H).
    apply bind_ok in H. destruct H as ([[s2 g2] fv] & Hboot & H).
    apply bind_ok in H. destruct H as (as_list & _ & H).
    inversion H; subst; clear H.
    destruct (take_steps_spec _ _ _ _ _ _ _ _ Hsteps)
      as (_ & N1 & _ & _ & _ & L1 & L2 & L3 & _).
    destruct (bootstrap_spec _ _ _ _ _ _ _ Hboot)
      as (_ & _ & _ & _ & _ & N2 & M1 & M2 & M3 & _).
    unfold history_aligned. simpl.
    rewrite M1, M2, M3, N2, L1, L2, L3, N1, N0, Hh, H1, H2, H3.
    destruct (MAPPO.done ro); repeat split; reflexivity.
  - intros self self' g g' (H1 & H2 & H3) H.
    destruct (train_counters _ _ _ _ H) as (_ & N & Hh & _).
    unfold history_aligned. rewrite Hh, N. auto.
Qed.

(** X7. On a learner fresh from the constructor, [interact] with
    [roll_out_n_steps] = 0 raises ZeroDivisionError: [done] keeps its
    initial value True and the average speed is divided by the 0 steps of
    the episode. *)
Theorem interact_without_steps_divides_by_zero :
  forall (e : Env) (c : MAPPO.config) (g g1 : Rng) (self : MAPPO.learner),
    MAPPO.__init__ e c g = Ok (self, g1) ->
    MAPPO.roll_out_n_steps c = 0%nat ->
    MAPPO.interact self g1 = Raise ZeroDivisionError.
Proof.
  intros e c g g1 self H Hz. unfold MAPPO.__init__ in H.
  destruct (negb _); [discriminate|].
  destruct (negb _); [discriminate|].
  destruct (env_reset e g) as [[e' g0] s].
  inversion H; subst; clear H.
  unfold MAPPO.interact. simpl MAPPO.cfg. simpl MAPPO.n_steps.
  destruct (MAPPO.max_steps c) as [m|].
  - destruct (m <=? 0)%nat.
    + destruct (env_reset _ g1) as [[e2 g2] s2]. simpl. rewrite Hz. reflexivity.
    + simpl. rewrite Hz. reflexivity.
  - simpl. rewrite Hz. reflexivity.
Qed.

Lemma one_step_epoch_steps (n : nat) (self self' : MAPPO.learner) (g g' : Rng)
  (ro ro' : MAPPO.rollout) :
  MAPPO.one_step n self g ro = Ok (self', g', ro') ->
  exists before k,
    MAPPO.epoch_steps (MAPPO.hist self) = before ++ [k] /\
    MAPPO.epoch_steps (MAPPO.hist self') = before ++ [S k].
Proof.
  intros H. destruct (one_step_spec _ _ _ _ _ _ _ H)
    as (_ & _ & _ & _ & _ & _ & _ & _ & Hes & _). exact Hes.
Qed.

Lemma take_steps_epoch_steps (i n : nat) :
  forall (self self' : MAPPO.learner) (g g' : Rng) (ro ro' : MAPPO.rollout),
    MAPPO.take_steps i n self g ro = Ok (self', g', ro') ->
    (0 < i)%nat ->
    exists before k,
      MAPPO.epoch_steps (MAPPO.hist self) = before ++ [k] /\
      MAPPO.epoch_steps (MAPPO.hist self') =
        before ++ [(k + (length (MAPPO.states ro') - length (MAPPO.states ro)))%nat].
Proof.
  induction i as [|i IH]; intros self self' g g' ro ro' H Hi; [lia|].
  simpl in H.
  apply bind_ok in H. destruct H as ([[s1 g1] ro1] & Hstep & H).
  destruct (one_step_epoch_steps _ _ _ _ _ _ _ Hstep) as (b & k & E0 & E1).
  destruct (one_step_spec _ _ _ _ _ _ _ Hstep)
    as (_ & _ & _ & _ & _ & _ & _ & _ & _ & C11 & _).
  destruct (MAPPO.done ro1) eqn:Ed.
  - destruct (env_reset (MAPPO.env s1) g1) as [[e g2] s].
    inversion H; subst; clear H. simpl.
    exists b, k. split; [exact E0|].
    rewrite E1, C11, length_app. simpl. do 2 f_equal. lia.
  - destruct i as [|i].
    + simpl in H. inversion H; subst; clear H.
      exists b, k. split; [exact E0|].
      rewrite E1, C11, length_app. simpl. do 2 f_equal. lia.
    + destruct (IH _ _ _ _ _ _ H ltac:(lia)) as (b' & k' & F0 & F1).
      rewrite E1 in F0. apply app_inj_tail in F0. destruct F0 as [<- <-].
      exists b, k. split; [exact E0|].
      rewrite F1. do 2 f_equal.
      destruct (take_steps_spec _ _ _ _ _ _ _ _ H)
        as (_ & _ & _ & _ & _ & _ & _ & _ & j & _ & K2 & _).
      rewrite C11, length_app in K2 |- *. simpl in K2 |- *. lia.
Qed.

(** X8. When a call of [interact] ends an episode, the episode's entry of
    [average_speed] becomes the speed sum of this call's rollout alone
    divided by the number of steps of the whole episode, the steps of
    earlier rollouts of the same episode included. *)
Theorem average_speed_divides_the_last_rollout_by_the_whole_episode :
  forall (self self' : MAPPO.learner) (g g' : Rng),
    MAPPO.interact self g = Ok (self', g') ->
    MAPPO.episode_done self' = Some true ->
    (0 < MAPPO.roll_out_n_steps (MAPPO.cfg self))%nat ->
    exists s1 g1 ro before k speeds x,
      collected_rollout self g = Ok (s1, g1, ro) /\
      MAPPO.epoch_steps (MAPPO.hist self) = before ++ [k] /\
      MAPPO.average_speed (MAPPO.hist self) = speeds ++ [x] /\
      MAPPO.epoch_steps (MAPPO.hist self') =
        before ++ [(k + length (MAPPO.states ro))%nat; 0%nat] /\
      MAPPO.average_speed (MAPPO.hist self') =
        speeds ++ [MAPPO.speed_sum ro / INR (k + length (MAPPO.states ro)); 0].
Proof.
  intros self self' g g' H Hdone Hpos.
  unfold MAPPO.interact in H. unfold collected_rollout.
  set (start :=
         match MAPPO.max_steps (MAPPO.cfg self) with
         | Some m =>
             if (m <=? MAPPO.n_steps self)%nat
             then let '(e, g0, s) := env_reset (MAPPO.env self) g in
                  (MAPPO.set_n_steps 0 (MAPPO.set_env e s self), g0)
             else (self, g)
         | None => (self, g)
         end) in *.
  assert (Hstart : MAPPO.hist (fst start) = MAPPO.hist self /\
                   MAPPO.cfg (fst start) = MAPPO.cfg self).
  { unfold start. destruct (MAPPO.max_steps (MAPPO.cfg self)) as [m|]; [|simpl; auto].
    destruct (m <=? MAPPO.n_steps self)%nat; [|simpl; auto].
    destruct (env_reset (MAPPO.env self) g) as [[e g0] s]. simpl. auto. }
  destruct start as [s0 g0]. simpl in Hstart. destruct Hstart as [Hh Hc].
  apply bind_ok in H. destruct H as ([[s1 g1] ro] & Hsteps & H).
  apply bind_ok in H. destruct H as ([[s2 g2] fv] & Hboot & H).
  apply bind_ok in H. destruct H as (as_list & _ & H).
  inversion H; subst; clear H. simpl in Hdone |- *.
  simpl MAPPO.cfg in Hsteps. rewrite Hc in Hsteps.
  destruct (take_steps_epoch_steps _ _ _ _ _ _ _ _ Hsteps Hpos) as (before & k & E0 & E1).
  destruct (take_steps_spec _ _ _ _ _ _ _ _ Hsteps)
    as (_ & _ & _ & _ & _ & _ & Havg & _).
  simpl in E0, E1, Havg. rewrite Nat.sub_0_r in E1. rewrite Hh in E0, Havg.
  unfold MAPPO.bootstrap in Hboot.
  destruct (MAPPO.done ro) eqn:Ed.
  - apply bind_ok in Hboot. destruct Hboot as (steps_last & Hlast & Hboot).
    apply bind_ok in Hboot. destruct Hboot as (sp & Hsp & Hboot).
    inversion Hboot; subst; clear Hboot. simpl.
    unfold MAPPO.last_item in Hlast. rewrite E1, rev_app_distr in Hlast. simpl in Hlast.
    inversion Hlast; subst steps_last; clear Hlast.
    destruct (_ =? 0)%nat; [discriminate|].
    destruct (update_last_last _ _ _ Hsp) as (speeds & x & F0 & F1).
    rewrite Havg in F0.
    exists s1. eexists. exists ro, before, k, speeds, x.
    rewrite Hc. split; [exact Hsteps|]. split; [exact E0|]. split; [exact F0|].
    rewrite E1, F1, <- !app_assoc. simpl. split; reflexivity.
  - apply bind_ok in Hboot. destruct Hboot as (fs & _ & Hboot).
    apply bind_ok in Hboot. destruct Hboot as ([fa g3] & _ & Hboot).
    apply bind_ok in Hboot. destruct Hboot as (fv' & _ & Hboot).
    inversion Hboot; subst; clear Hboot. simpl in Hdone. discriminate.
Qed.

(** X9. The first two statements of a pass of the training loop,
    [interact] and the guarded [train], advance [n_episodes] by one exactly
    when they leave [episode_done] True, and not at all otherwise; the
    configuration stays. *)
Theorem training_pass_finishes_at_most_one_episode :
  forall (EPISODES_BEFORE_TRAIN : Z) (mappo mappo' : MAPPO.learner) (g g' : Rng),
    run_mappo.loop_body EPISODES_BEFORE_TRAIN mappo g = Ok (mappo', g') ->
    MAPPO.cfg mappo' = MAPPO.cfg mappo /\
    ((MAPPO.episode_done mappo' = Some true /\
      MAPPO.n_episodes mappo' = S (MAPPO.n_episodes mappo)) \/
     (MAPPO.episode_done mappo' = Some false /\
      MAPPO.n_episodes mappo' = MAPPO.n_episodes mappo)).
Proof.
  intros E mappo mappo' g g' H. unfold run_mappo.loop_body in H.
  apply bind_ok in H. destruct H as ([collected g1] & Hrun & H).
  destruct (interact_spec _ _ _ _ Hrun) as (C & _ & d & D & N & _).
  assert (Hgoal : MAPPO.cfg collected = MAPPO.cfg mappo /\
     ((MAPPO.episode_done collected = Some true /\
       MAPPO.n_episodes collected = S (MAPPO.n_episodes mappo)) \/
      (MAPPO.episode_done collected = Some false /\
       MAPPO.n_episodes collected = MAPPO.n_episodes mappo))).
  { split; [exact C|]. rewrite D, N. destruct d; [left|right]; auto. }
  destruct (E <=? Z.of_nat (MAPPO.n_episodes collected))%Z.
  - destruct (train_counters _ _ _ _ H) as (C' & N' & _).
    rewrite (train_keeps_episode_done _ _ _ _ H), C', N'. exact Hgoal.
  - inversion H; subst. exact Hgoal.
Qed.

End Rollouts.

(** ** Reward normalisation in [interact] *)

Lemma py_index_in_range {A : Type} (l : list A) (i : nat) (x : A) :
  py_index l i = Ok x -> (i < length l)%nat.
Proof.
  unfold py_index. destruct (nth_error l i) eqn:E; [|discriminate].
  intros _. apply nth_error_Some. rewrite E. discriminate.
Qed.

Lemma get_column_in_range (w : nat) (a : list vec) (j : nat) (c : vec) :
  rectangular w a -> get_column a j = Ok c -> a <> [] /\ (j < w)%nat.
Proof.
  intros Hrect H. unfold get_column in H.
  destruct a as [|r a]; [discriminate|]. split; [discriminate|].
  simpl in H. apply bind_ok in H. destruct H as (x & Hx & _).
  apply py_index_in_range in Hx. inversion Hrect; subst. exact Hx.
Qed.

Lemma np_array_rows (rows a : list vec) :
  np_array rows = Ok a -> a = rows /\ rectangular (length (hd [] rows)) rows.
Proof.
  unfold np_array. destruct rows as [|r rows]; intros H.
  - inversion H. split; [reflexivity|constructor].
  - destruct (forallb _ _) eqn:E; [|discriminate].
    inversion H. split; [reflexivity|].
    apply Forall_forall. intros x Hx.
    apply Nat.eqb_eq. exact (proj1 (forallb_forall _ _) E x Hx).
Qed.

Lemma col_beyond (w : nat) (a : list vec) (j : nat) :
  rectangular w a -> (w <= j)%nat -> col a j = repeat 0 (length a).
Proof.
  intros H Hj. unfold col. induction H as [|r a Hr _ IH]; simpl; [reflexivity|].
  rewrite IH. f_equal. apply nth_overflow. lia.
Qed.

(** The loop over the agents returns only on an array that has a column
    for every agent, with a bootstrap value for every agent. *)
Lemma discount_columns_in_range (gamma : R) (final_value : vec) (w m : nat) :
  forall (k : nat) (a : list vec) (out : py_rewards),
    rectangular w a ->
    for_each
      (fun rewards agent_id =>
         match rewards with
         | PyList _ => Raise TypeError
         | NdArray a =>
             column_j <- get_column a agent_id ;;
             v <- py_index final_value agent_id ;;
             Ok (NdArray (set_column a agent_id (MAPPO._discount_reward gamma column_j v)))
         end)
      (seq k (S m)) (NdArray a) = Ok out ->
    a <> [] /\ (k + S m <= w)%nat /\ (k + S m <= length final_value)%nat.
Proof.
  induction m as [|m IH]; intros k a out Hrect H.
  - simpl in H. apply bind_ok in H. destruct H as (s' & H & _).
    apply bind_ok in H. destruct H as (c & Hc & H).
    apply bind_ok in H. destruct H as (v & Hv & _).
    destruct (get_column_in_range w a k c Hrect Hc) as [Hne Hk].
    apply py_index_in_range in Hv. repeat split; [exact Hne|lia|lia].
  - change (seq k (S (S m))) with (k :: seq (S k) (S m)) in H.
    cbn [for_each] in H. apply bind_ok in H. destruct H as (s' & H & Hrest).
    apply bind_ok in H. destruct H as (c & Hc & H).
    apply bind_ok in H. destruct H as (v & Hv & H).
    inversion H; subst s'; clear H.
    destruct (get_column_in_range w a k c Hrect Hc) as [Hne Hk].
    destruct (IH (S k) _ out (set_column_rectangular w a k _ Hrect) Hrest) as (_ & B1 & B2).
    repeat split; [exact Hne|lia|lia].
Qed.

(** What [interact] does to the rewards of a rollout when it gets as far as
    storing them: they were divided by a positive [reward_scale], and the
    column of every agent was discounted afterwards. *)
Lemma process_rewards_returns (c : MAPPO.config) (n : nat) (final_value : vec)
  (rewards stored : list vec) :
  MAPPO.process_rewards c n final_value rewards = Ok stored ->
  0 < MAPPO.reward_scale c /\
  MAPPO.scale_rewards (MAPPO.reward_scale c) rewards =
    Ok (NdArray (map (map (fun r => r / MAPPO.reward_scale c)) rewards)) /\
  length stored = length rewards /\
  (forall j, (j < n)%nat ->
     col stored j =
     MAPPO._discount_reward (MAPPO.reward_gamma c)
       (map (fun r => nth j r 0 / MAPPO.reward_scale c) rewards)
       (nth j final_value 0)) /\
  (forall j, (n <= j)%nat ->
     col stored j = map (fun r => nth j r 0 / MAPPO.reward_scale c) rewards).
Proof.
  intros H.
  destruct (process_rewards_length _ _ _ _ _ H) as [Hpos Hlen].
  split; [exact Hpos|].
  unfold MAPPO.process_rewards in H.
  apply bind_ok in H. destruct H as (scaled & Hs & H).
  apply bind_ok in H. destruct H as (discounted & Hd & H).
  unfold MAPPO.scale_rewards in Hs |- *.
  destruct (Rlt_dec 0 (MAPPO.reward_scale c)) as [_|Hn]; [|contradiction].
  apply bind_ok in Hs. destruct Hs as (a & Ha & Hs).
  destruct (np_array_rows _ _ Ha) as [-> Hrect]. rewrite Ha. simpl.
  split; [reflexivity|]. split; [exact Hlen|].
  inversion Hs; subst scaled; clear Hs.
  set (f := fun r => r / MAPPO.reward_scale c) in *.
  set (w := length (hd [] rewards)) in *.
  assert (Hf : f 0 = 0) by (unfold f, Rdiv; ring).
  assert (Hcol : forall j, col (map (map f) rewards) j = map (fun r => f (nth j r 0)) rewards).
  { intros j. unfold col. rewrite map_map. apply map_ext. intros r.
    rewrite <- Hf at 1. apply map_nth. }
  unfold MAPPO.discount_columns in Hd.
  destruct n as [|m].
  - simpl in Hd. inversion Hd; subst discounted; clear Hd.
    simpl in H. inversion H; subst stored; clear H.
    split; [intros j Hj; lia|]. intros j _. apply Hcol.
  - destruct (discount_columns_in_range _ _ w m 0 _ _
                (map_map_rectangular f w rewards Hrect) Hd) as (Hne & Hw & Hfv).
    destruct (discount_columns_from (MAPPO.reward_gamma c) final_value w (S m) 0
                (map (map f) rewards) Hne (map_map_rectangular f w rewards Hrect) Hw Hfv)
      as (a' & Hrun & Hlen' & Hrect' & Hcols).
    rewrite Hrun in Hd. inversion Hd; subst discounted; clear Hd.
    simpl in H. inversion H; subst stored; clear H.
    split.
    + intros j Hj. rewrite (Hcols j) by lia.
      replace ((0 <=? j) && (j <? 0 + S m))%nat with true.
      * rewrite Hcol. reflexivity.
      * symmetry. apply andb_true_intro. split;
          [apply Nat.leb_le; lia | apply Nat.ltb_lt; lia].
    + intros j Hj. destruct (Nat.lt_ge_cases j w) as [Hjw|Hjw].
      * rewrite (Hcols j Hjw).
        replace ((0 <=? j) && (j <? 0 + S m))%nat with false.
        -- apply Hcol.
        -- symmetry. apply andb_false_intro2. apply Nat.ltb_ge. lia.
      * rewrite (col_beyond w a' j Hrect' Hjw), Hlen', length_map.
        transitivity (col rewards j); [symmetry; exact (col_beyond w rewards j Hrect Hjw)|].
        unfold col.
        apply map_ext_in. intros r Hr.
        rewrite nth_overflow; [symmetry; exact Hf|].
        rewrite (proj1 (Forall_forall _ _) Hrect r Hr). exact Hjw.
Qed.

(** C7. A call of [interact] that returns had a [reward_scale] greater than
    0, divided every reward its rollout collected by it, and discounted the
    divided rewards: the column that the memory is given for agent j is the
    discounted return of that agent's divided rewards, and a column beyond
    the agents holds the divided rewards. Such a call returns whenever the
    collection of the rollout and the bootstrap do, on a rollout of at least
    one step with a reward for every agent. With [reward_scale] = 20 the raw
    rewards [20, 20] become [1.0, 1.0]. With [reward_scale] <= 0 the rewards
    are not stored unscaled: on the learner [learner_without_reward_scale]
    the call raises TypeError. *)
Theorem interact_scales_rewards_before_discounting :
  (forall (W : Collaborators) (self self' : MAPPO.learner) (g g' : Rng),
      MAPPO.interact self g = Ok (self', g') ->
      0 < MAPPO.reward_scale (MAPPO.cfg self) /\
      exists s1 g1 ro n s2 final_value stored,
        collected_rollout self g = Ok (s1, g1, ro) /\
        MAPPO.n_agents s1 = Some n /\
        MAPPO.bootstrap n s1 g1 ro = Ok (s2, g', final_value) /\
        MAPPO.scale_rewards (MAPPO.reward_scale (MAPPO.cfg self)) (MAPPO.rewards ro) =
          Ok (NdArray (map (map (fun r => r / MAPPO.reward_scale (MAPPO.cfg self)))
                         (MAPPO.rewards ro))) /\
        MAPPO.memory self' =
          memory_push (MAPPO.memory self) (MAPPO.states ro) (MAPPO.actions ro) stored /\
        length stored = length (MAPPO.rewards ro) /\
        (forall j, (j < n)%nat ->
           col stored j =
           MAPPO._discount_reward (MAPPO.reward_gamma (MAPPO.cfg self))
             (map (fun r => nth j r 0 / MAPPO.reward_scale (MAPPO.cfg self)) (MAPPO.rewards ro))
             (nth j final_value 0)) /\
        (forall j, (n <= j)%nat ->
           col stored j =
           map (fun r => nth j r 0 / MAPPO.reward_scale (MAPPO.cfg self)) (MAPPO.rewards ro))) /\
  (forall (W : Collaborators) (self s1 s2 : MAPPO.learner) (g g1 g2 : Rng)
          (ro : MAPPO.rollout) (n : nat) (final_value : vec),
      0 < MAPPO.reward_scale (MAPPO.cfg self) ->
      collected_rollout self g = Ok (s1, g1, ro) ->
      MAPPO.n_agents s1 = Some n ->
      MAPPO.bootstrap n s1 g1 ro = Ok (s2, g2, final_value) ->
      MAPPO.rewards ro <> [] -> rectangular n (MAPPO.rewards ro) ->
      length final_value = n ->
      exists self', MAPPO.interact self g = Ok (self', g2)) /\
  MAPPO.scale_rewards 20 [[20]; [20]] = Ok (NdArray [[1.0]; [1.0]]) /\
  MAPPO.interact learner_without_reward_scale (0 : @Rng Toy.collaborators) = Raise TypeError.
Proof.
  split; [|split; [|split]].
  - intros W self self' g g' H.
    unfold MAPPO.interact in H. unfold collected_rollout.
    set (start :=
           match MAPPO.max_steps (MAPPO.cfg self) with
           | Some m =>
               if (m <=? MAPPO.n_steps self)%nat
               then let '(e, g0, s) := env_reset (MAPPO.env self) g in
                    (MAPPO.set_n_steps 0 (MAPPO.set_env e s self), g0)
               else (self, g)
           | None => (self, g)
           end) in *.
    assert (Hstart : MAPPO.memory (fst start) = MAPPO.memory self /\
                     MAPPO.cfg (fst start) = MAPPO.cfg self).
    { unfold start. destruct (MAPPO.max_steps (MAPPO.cfg self)) as [m|]; [|simpl; auto].
      destruct (m <=? MAPPO.n_steps self)%nat; [|simpl; auto].
      destruct (env_reset (MAPPO.env self) g) as [[e g0] s]. simpl. auto. }
    destruct start as [s0 g0]. simpl in Hstart. destruct Hstart as [Hm Hc].
    apply bind_ok in H. destruct H as ([[s1 g1] ro] & Hsteps & H).
    apply bind_ok in H. destruct H as ([[s2 g2] fv] & Hboot & H).
    apply bind_ok in H. destruct H as (stored & Hproc & H).
    inversion H; subst; clear H.
    simpl MAPPO.cfg in Hsteps. 
    destruct (take_steps_spec _ _ _ _ _ _ _ _ Hsteps) as (C1 & _ & A1 & M1 & _).
    destruct (bootstrap_spec _ _ _ _ _ _ _ Hboot) as (C2 & _ & M2 & _).
    simpl in C1, A1, M1.
    assert (Hcfg : MAPPO.cfg s2 = MAPPO.cfg self) by (rewrite C2, C1; exact Hc).
    rewrite Hcfg in Hproc.
    destruct (process_rewards_returns _ _ _ _ _ Hproc) as (Hpos & Hscaled & Hlen & Hcols & Hrest).
    split; [exact Hpos|].
    exists s1, g1, ro, (controlled_vehicles (MAPPO.env s0)), s2, fv, stored.
    split; [exact Hsteps|]. split; [exact A1|]. split; [exact Hboot|].
    split; [exact Hscaled|]. split; [simpl; rewrite M2, M1, Hm; reflexivity|].
    split; [exact Hlen|]. split; [exact Hcols|exact Hrest].
  - intros W self s1 s2 g g1 g2 ro n fv Hpos Hcol Hn Hboot Hne Hrect Hfv.
    unfold MAPPO.interact. unfold collected_rollout in Hcol.
    set (start :=
           match MAPPO.max_steps (MAPPO.cfg self) with
           | Some m =>
               if (m <=? MAPPO.n_steps self)%nat
               then let '(e, g0, s) := env_reset (MAPPO.env self) g in
                    (MAPPO.set_n_steps 0 (MAPPO.set_env e s self), g0)
               else (self, g)
           | None => (self, g)
           end) in *.
    assert (Hc : MAPPO.cfg (fst start) = MAPPO.cfg self).
    { unfold start. destruct (MAPPO.max_steps (MAPPO.cfg self)) as [m|]; [|reflexivity].
      destruct (m <=? MAPPO.n_steps self)%nat; [|reflexivity].
      destruct (env_reset (MAPPO.env self) g) as [[e g0] s]. reflexivity. }
    destruct start as [s0 g0]. simpl in Hc.
    simpl MAPPO.cfg. rewrite Hcol. cbn [bind].
    destruct (take_steps_spec _ _ _ _ _ _ _ _ Hcol) as (C1 & _ & A1 & _).
    simpl in C1, A1.
    assert (En : n = controlled_vehicles (MAPPO.env s0)) by congruence.
    rewrite En in Hboot, Hrect, Hfv. clear En Hn.
    rewrite Hboot. cbn [bind].
    destruct (bootstrap_spec _ _ _ _ _ _ _ Hboot) as (C2 & _).
    assert (Hpos' : 0 < MAPPO.reward_scale (MAPPO.cfg s2)) by (rewrite C2, C1, Hc; exact Hpos).
    destruct (process_rewards_columns (MAPPO.cfg s2) _ fv (MAPPO.rewards ro) Hpos' Hne Hrect Hfv)
      as (stored & Hrun & _).
    rewrite Hrun. cbn [bind]. eexists. reflexivity.
  - unfold MAPPO.scale_rewards.
    destruct (Rlt_dec 0 20) as [_|Hn]; [|lra].
    simpl. repeat (f_equal; try lra).
  - unfold MAPPO.interact. simpl.
    unfold MAPPO.process_rewards, MAPPO.scale_rewards. simpl.
    destruct (Rlt_dec 0 0) as [Hpos|_]; [lra|]. reflexivity.
Qed.

(** A rollout of two steps with one agent and the raw rewards [20, 20],
    scaled by 20 and discounted with gamma = 0.5 from the bootstrap value 0
    of a finished episode. *)
Lemma interact_scales_rewards_before_discounting_witness :
  exists collected stored states actions,
    MAPPO.interact learner_of_two_steps (0 : @Rng Toy.collaborators) = Ok (collected, 0) /\
    MAPPO.memory collected = Toy.push [] states actions stored /\
    length stored = 2%nat /\
    col stored 0 = MAPPO._discount_reward 0.5 [20 / 20; 20 / 20] 0.
Proof.
  destruct interact_scales_rewards_before_discounting as (Hstored & Hreturns & _).
  assert (Hpos : 0 < MAPPO.reward_scale (MAPPO.cfg learner_of_two_steps)) by (simpl; lra).
  assert (Hcol : exists s1 ro,
             collected_rollout learner_of_two_steps (0 : @Rng Toy.collaborators) =
               Ok (s1, 0, ro) /\
             MAPPO.n_agents s1 = Some 1%nat /\
             MAPPO.rewards ro = [[20]; [20]] /\
             exists s2, MAPPO.bootstrap 1 s1 (0 : @Rng Toy.collaborators) ro = Ok (s2, 0, [0])).
  { eexists. eexists. split; [reflexivity|]. split; [reflexivity|].
    split; [reflexivity|]. eexists. reflexivity. }
  destruct Hcol as (s1 & ro & Hcol & Hn & Hrew & s2 & Hboot).
  assert (Hne : MAPPO.rewards ro <> []) by (rewrite Hrew; discriminate).
  assert (Hrect : rectangular 1 (MAPPO.rewards ro)) by (rewrite Hrew; repeat constructor).
  assert (Hfv : length [0] = 1%nat) by reflexivity.
  destruct (Hreturns Toy.collaborators learner_of_two_steps s1 s2 0 0 0 ro 1%nat [0]
              Hpos Hcol Hn Hboot Hne Hrect Hfv) as (collected & Hrun).
  destruct (Hstored Toy.collaborators learner_of_two_steps collected 0 0 Hrun)
    as (_ & s1' & g1' & ro' & n' & s2' & fv' & stored & Hcol' & Hn' & Hboot' & _ & Hmem &
        Hlen & Hcols & _).
  rewrite Hcol in Hcol'. inversion Hcol'; subst s1' g1' ro'; clear Hcol'.
  rewrite Hn in Hn'. inversion Hn'; subst n'; clear Hn'.
  rewrite Hboot in Hboot'. inversion Hboot'; subst s2' fv'; clear Hboot'.
  exists collected, stored, (MAPPO.states ro), (MAPPO.actions ro).
  split; [exact Hrun|]. split; [exact Hmem|].
  split; [rewrite Hlen, Hrew; reflexivity|].
  rewrite (Hcols 0%nat Nat.lt_0_1), Hrew. reflexivity.
Defined.

(** A learner whose [reward_scale] is 0. *)
Lemma interact_raises_without_reward_scale_witness :
  0 <= 0 /\
  exists e,
    MAPPO.interact
      (Toy.learner (Toy.configuration 1 0 0.5 5 0 1)
         {| Toy.script := [(20, true)]; Toy.agents := 1 |}
         (Toy.networks [[1]] [[0]; [0]] [[0]] [[0]; [0]]) 0 None [])
      (0 : @Rng Toy.collaborators) = Raise e.
Proof.
  assert (H : 0 <= 0) by lra.
  split; [exact H|].
  exact (@interact_raises_without_reward_scale Toy.collaborators
           (Toy.learner (Toy.configuration 1 0 0.5 5 0 1)
              {| Toy.script := [(20, true)]; Toy.agents := 1 |}
              (Toy.networks [[1]] [[0]; [0]] [[0]] [[0]; [0]]) 0 None []) 0 H).
Defined.

(** The rollout of one step that ends the first episode. *)
Lemma interact_counts_finished_episodes_witness :
  exists collected,
    MAPPO.interact (learner_at_start 0) (0 : @Rng Toy.collaborators) = Ok (collected, 0) /\
    MAPPO.episode_done collected = Some true /\
    MAPPO.n_episodes collected = 1%nat.
Proof.
  destruct (interact_at_start 0) as (collected & Hrun & Hn).
  exists collected. split; [exact Hrun|].
  destruct (@interact_counts_finished_episodes Toy.collaborators _ _ _ _ Hrun)
    as (_ & _ & [[Hd Hs]|[Hd Hs]]).
  - split; [exact Hd|exact Hn].
  - rewrite Hn in Hs. discriminate.
Defined.

(** The same rollout: one rollout of at most one step is pushed. *)
Lemma interact_stores_one_rollout_witness :
  exists collected states actions rewards,
    MAPPO.interact (learner_at_start 0) (0 : @Rng Toy.collaborators) = Ok (collected, 0) /\
    MAPPO.memory collected = Toy.push [] states actions rewards /\
    length actions = length states /\ length rewards = length states /\
    (length states <= 1)%nat.
Proof.
  destruct (interact_at_start 0) as (collected & Hrun & _).
  destruct (@interact_stores_one_rollout Toy.collaborators _ _ _ _ Hrun)
    as (states & actions & rewards & Hm & Ha & Hr & Hle & _).
  exists collected, states, actions, rewards.
  split; [exact Hrun|]. split; [exact Hm|]. split; [exact Ha|]. split; [exact Hr|exact Hle].
Defined.

(** The same rollout keeps the three lists aligned. *)
Lemma history_keeps_one_entry_per_episode_witness :
  history_aligned (learner_at_start 0) /\
  exists collected,
    MAPPO.interact (learner_at_start 0) (0 : @Rng Toy.collaborators) = Ok (collected, 0) /\
    history_aligned collected.
Proof.
  assert (H0 : history_aligned (learner_at_start 0)) by (repeat split).
  split; [exact H0|].
  destruct (interact_at_start 0) as (collected & Hrun & _).
  exists collected. split; [exact Hrun|].
  exact (proj1 (proj2 (@history_keeps_one_entry_per_episode Toy.collaborators))
           _ _ _ _ H0 Hrun).
Defined.

(** The constructor with [roll_out_n_steps] = 0, then [interact]. *)
Lemma interact_without_steps_divides_by_zero_witness :
  exists self,
    MAPPO.__init__ ({| Toy.script := []; Toy.agents := 1 |} : @Env Toy.collaborators)
      (Toy.configuration 1 20 0.5 5 0 0) (0 : @Rng Toy.collaborators) = Ok (self, 0) /\
    MAPPO.roll_out_n_steps (Toy.configuration 1 20 0.5 5 0 0) = 0%nat /\
    MAPPO.interact self 0 = Raise ZeroDivisionError.
Proof.
  eexists. split; [reflexivity|]. split; [reflexivity|].
  exact (@interact_without_steps_divides_by_zero Toy.collaborators
           {| Toy.script := []; Toy.agents := 1 |} (Toy.configuration 1 20 0.5 5 0 0)
           0 0 _ eq_refl eq_refl).
Defined.

(** The rollout of one step that ends the first episode. *)
Lemma average_speed_divides_the_last_rollout_by_the_whole_episode_witness :
  (0 < MAPPO.roll_out_n_steps (MAPPO.cfg (learner_at_start 0)))%nat /\
  exists collected,
    MAPPO.interact (learner_at_start 0) (0 : @Rng Toy.collaborators) = Ok (collected, 0) /\
    MAPPO.episode_done collected = Some true /\
    exists ro before k,
      MAPPO.epoch_steps (MAPPO.hist (learner_at_start 0)) = before ++ [k] /\
      MAPPO.epoch_steps (MAPPO.hist collected) =
        before ++ [(k + length (MAPPO.states ro))%nat; 0%nat].
Proof.
  assert (Hpos : (0 < MAPPO.roll_out_n_steps (MAPPO.cfg (learner_at_start 0)))%nat)
    by (simpl; lia).
  split; [exact Hpos|].
  destruct (interact_at_start 0) as (collected & Hrun & Hn).
  assert (Hd : MAPPO.episode_done collected = Some true).
  { destruct (@interact_spec Toy.collaborators _ _ _ _ Hrun) as (_ & _ & d & D & N & _).
    rewrite Hn in N. destruct d; [exact D|discriminate]. }
  exists collected. split; [exact Hrun|]. split; [exact Hd|].
  destruct (@average_speed_divides_the_last_rollout_by_the_whole_episode Toy.collaborators
              _ _ _ _ Hrun Hd Hpos) as (s1 & g1 & ro & before & k & speeds & x & _ & E0 & _ & E1 & _).
  exists ro, before, k. split; [exact E0|exact E1].
Defined.

(** One pass of the loop during a warm-up of 100 episodes. *)
Lemma training_pass_finishes_at_most_one_episode_witness :
  exists collected,
    run_mappo.loop_body 100 (learner_at_start 100) (0 : @Rng Toy.collaborators) =
      Ok (collected, 0) /\
    MAPPO.cfg collected = MAPPO.cfg (learner_at_start 100) /\
    MAPPO.episode_done collected = Some true /\
    MAPPO.n_episodes collected = 1%nat.
Proof.
  destruct (interact_at_start 100) as (collected & Hrun & Hn).
  assert (Hloop : run_mappo.loop_body 100 (learner_at_start 100)
                    (0 : @Rng Toy.collaborators) = Ok (collected, 0)).
  { unfold run_mappo.loop_body. rewrite Hrun. cbn [bind]. rewrite Hn. reflexivity. }
  exists collected. split; [exact Hloop|].
  destruct (@training_pass_finishes_at_most_one_episode Toy.collaborators 100%Z _ _ _ _ Hloop)
    as (Hc & [[Hd Hs]|[Hd Hs]]).
  - split; [exact Hc|]. split; [exact Hd|exact Hn].
  - rewrite Hn in Hs. discriminate.
Defined.

(** ** Training: missing optimizers, the update period, hard copies *)

Section Training.
Context {W : Collaborators}.

Lemma train_raises_without_optimizer :
  forall (self : MAPPO.learner) (g : Rng) (k : nat),
    MAPPO.actor_optimizer (MAPPO.optims self) = None ->
    MAPPO.n_agents self = Some (S k) ->
    (exists e, MAPPO.train self g = Raise e) /\
    (forall tensors,
        MAPPO.batch_tensors self
          (fst (memory_sample (MAPPO.memory self) (MAPPO.batch_size (MAPPO.cfg self)) g)) =
          Ok tensors ->
        MAPPO.train self g = Raise AttributeError).
Proof.
  intros self g k Hnone Hn.
  assert (Hopt : forall t, MAPPO.optimize self t = Raise AttributeError).
  { intros [[sv av] rv]. unfold MAPPO.optimize. rewrite Hn. simpl.
    rewrite Hnone. reflexivity. }
  unfold MAPPO.train.
  destruct (memory_sample _ _ _) as [b g1]. simpl fst.
  split.
  - destruct (MAPPO.batch_tensors self b) as [t|e]; [|exists e; reflexivity]. simpl.
    rewrite Hopt. eexists; reflexivity.
  - intros t Ht. rewrite Ht. simpl. rewrite Hopt. reflexivity.
Qed.

Lemma init_without_optimizer (e : Env) (c : MAPPO.config) (g g' : Rng) (self : MAPPO.learner) :
  MAPPO.optimizer_type c <> "adam"%string ->
  MAPPO.optimizer_type c <> "rmsprop"%string ->
  MAPPO.__init__ e c g = Ok (self, g') ->
  MAPPO.actor_optimizer (MAPPO.optims self) = None /\
  MAPPO.critic_optimizer (MAPPO.optims self) = None.
Proof.
  intros Ha Hr H. unfold MAPPO.__init__ in H.
  destruct (negb _); [discriminate|].
  destruct (negb _); [discriminate|].
  destruct (env_reset e g) as [[e' g1] s].
  inversion H; subst; clear H. simpl. unfold MAPPO.make_optimizer.
  apply String.eqb_neq in Ha, Hr. rewrite Ha, Hr. auto.
Qed.

(** X10. The constructor accepts an [optimizer_type] other than "adam" and
    "rmsprop" and creates no optimizer; after a rollout with at least one
    agent, [train] then raises, with AttributeError at the first
    [self.actor_optimizer] if the batch could be reshaped. *)
Theorem unknown_optimizer_type_fails_in_train :
  forall (e : Env) (c : MAPPO.config) (g g1 g2 g3 : Rng)
         (self collected : MAPPO.learner) (k : nat),
    MAPPO.optimizer_type c <> "adam"%string ->
    MAPPO.optimizer_type c <> "rmsprop"%string ->
    MAPPO.__init__ e c g = Ok (self, g1) ->
    MAPPO.interact self g1 = Ok (collected, g2) ->
    MAPPO.n_agents collected = Some (S k) ->
    (exists ex, MAPPO.train collected g3 = Raise ex) /\
    (forall tensors,
        MAPPO.batch_tensors collected
          (fst (memory_sample (MAPPO.memory collected)
                  (MAPPO.batch_size (MAPPO.cfg collected)) g3)) = Ok tensors ->
        MAPPO.train collected g3 = Raise AttributeError).
Proof.
  intros e c g g1 g2 g3 self collected k Ha Hr Hinit Hrun Hn.
  destruct (init_without_optimizer _ _ _ _ _ Ha Hr Hinit) as [Hnone _].
  destruct (interact_frame _ _ _ _ Hrun) as [_ Hopt].
  apply (train_raises_without_optimizer collected g3 k); [|exact Hn].
  rewrite Hopt. exact Hnone.
Qed.

(** X11. With [target_update_steps] = 0 no call of [train] returns; when the
    batch is reshaped and the networks are optimized without error, the
    exception is the ZeroDivisionError of [n_episodes % target_update_steps]. *)
Theorem train_raises_on_zero_update_steps :
  forall (self : MAPPO.learner) (g : Rng),
    MAPPO.target_update_steps (MAPPO.cfg self) = 0%Z ->
    (exists e, MAPPO.train self g = Raise e) /\
    (forall tensors optimized,
        MAPPO.batch_tensors self
          (fst (memory_sample (MAPPO.memory self) (MAPPO.batch_size (MAPPO.cfg self)) g)) =
          Ok tensors ->
        MAPPO.optimize self tensors = Ok optimized ->
        MAPPO.train self g = Raise ZeroDivisionError).
Proof.
  intros self g Hz.
  assert (Hupd : forall mid, MAPPO.cfg mid = MAPPO.cfg self ->
            MAPPO.update_targets mid = Raise ZeroDivisionError).
  { intros mid Hc. unfold MAPPO.update_targets. rewrite Hc, Hz. reflexivity. }
  unfold MAPPO.train.
  destruct (memory_sample _ _ _) as [b g1]. simpl fst.
  split.
  - destruct (MAPPO.batch_tensors self b) as [t|e]; [|exists e; reflexivity]. simpl.
    destruct (MAPPO.optimize self t) as [mid|e] eqn:Eo; [|exists e; reflexivity]. simpl.
    rewrite (Hupd mid (proj1 (optimize_counters _ _ _ Eo))).
    eexists; reflexivity.
  - intros t mid Ht Ho. rewrite Ht. simpl. rewrite Ho. simpl.
    rewrite (Hupd mid (proj1 (optimize_counters _ _ _ Ho))). reflexivity.
Qed.

(** X12. With [target_tau] = 1 (the constructor's default) a call of
    [train] in which the target update is due leaves both target networks
    equal to the live networks it has just optimized. *)
Theorem train_copies_targets_when_tau_is_one :
  forall (self self' : MAPPO.learner) (g g' : Rng),
    optimizers_over_live (MAPPO.optims self) ->
    MAPPO.train self g = Ok (self', g') ->
    target_update_due self = true ->
    MAPPO.target_tau (MAPPO.cfg self) = 1 ->
    same_shape (MAPPO.actor_target (MAPPO.nets self)) (MAPPO.actor (MAPPO.nets self')) ->
    same_shape (MAPPO.critic_target (MAPPO.nets self)) (MAPPO.critic (MAPPO.nets self')) ->
    MAPPO.actor_target (MAPPO.nets self') = MAPPO.actor (MAPPO.nets self') /\
    MAPPO.critic_target (MAPPO.nets self') = MAPPO.critic (MAPPO.nets self').
Proof.
  intros self self' g g' Hlive H Hdue Htau Ha Hq.
  destruct (train_targets _ _ _ _ Hlive H) as (_ & Hupd & _).
  destruct (Hupd Hdue) as [E1 E2]. rewrite Htau in E1, E2.
  rewrite (soft_update_params_same_shape _ _ _ Ha) in E1.
  rewrite (soft_update_params_same_shape _ _ _ Hq) in E2.
  rewrite (blend_one_replaces _ _ Ha) in E1. rewrite (blend_one_replaces _ _ Hq) in E2.
  inversion E1. inversion E2. auto.
Qed.

End Training.

(** The constructor and one rollout for the optimizer type "sgd". *)
Lemma interact_after_init_with_sgd :
  exists self collected,
    MAPPO.__init__ ({| Toy.script := [(20, true)]; Toy.agents := 1 |} : @Env Toy.collaborators)
      (Toy.with_optimizer_type "sgd" (Toy.configuration 1 20 0.5 5 0 1))
      (0 : @Rng Toy.collaborators) = Ok (self, 0) /\
    MAPPO.interact self 0 = Ok (collected, 0) /\
    MAPPO.n_agents collected = Some 1%nat.
Proof.
  eexists. eexists. split; [reflexivity|].
  unfold MAPPO.interact. simpl.
  unfold MAPPO.process_rewards, MAPPO.scale_rewards. simpl.
  destruct (Rlt_dec 0 20) as [_|Hn]; [|exfalso; lra].
  simpl. split; reflexivity.
Defined.

(** The optimizer type "sgd". *)
Lemma unknown_optimizer_type_fails_in_train_witness :
  "sgd"%string <> "adam"%string /\ "sgd"%string <> "rmsprop"%string /\
  exists self collected,
    MAPPO.__init__ ({| Toy.script := [(20, true)]; Toy.agents := 1 |} : @Env Toy.collaborators)
      (Toy.with_optimizer_type "sgd" (Toy.configuration 1 20 0.5 5 0 1))
      (0 : @Rng Toy.collaborators) = Ok (self, 0) /\
    MAPPO.interact self 0 = Ok (collected, 0) /\
    MAPPO.n_agents collected = Some 1%nat /\
    exists ex, MAPPO.train collected 0 = Raise ex.
Proof.
  assert (H1 : "sgd"%string <> "adam"%string) by discriminate.
  assert (H2 : "sgd"%string <> "rmsprop"%string) by discriminate.
  split; [exact H1|]. split; [exact H2|].
  destruct interact_after_init_with_sgd as (self & collected & Hinit & Hrun & Hn).
  exists self, collected. split; [exact Hinit|]. split; [exact Hrun|]. split; [exact Hn|].
  exact (proj1 (@unknown_optimizer_type_fails_in_train Toy.collaborators
                  {| Toy.script := [(20, true)]; Toy.agents := 1 |}
                  (Toy.with_optimizer_type "sgd" (Toy.configuration 1 20 0.5 5 0 1))
                  0 0 0 0 self collected 0%nat H1 H2 Hinit Hrun Hn)).
Defined.

(** A learner with [target_update_steps] = 0 and one experience. *)
Lemma train_raises_on_zero_update_steps_witness :
  MAPPO.target_update_steps (Toy.configuration 1 20 0.5 0 0 1) = 0%Z /\
  MAPPO.train
    (Toy.learner (Toy.configuration 1 20 0.5 0 0 1) {| Toy.script := []; Toy.agents := 1 |}
       (Toy.networks [[1]] [[0]; [0]] [[0]] [[0]; [0]]) 1 (Some 1%nat) one_experience)
    (0 : @Rng Toy.collaborators) = Raise ZeroDivisionError.
Proof.
  split; [reflexivity|].
  refine (proj2 (@train_raises_on_zero_update_steps Toy.collaborators
                   (Toy.learner (Toy.configuration 1 20 0.5 0 0 1)
                      {| Toy.script := []; Toy.agents := 1 |}
                      (Toy.networks [[1]] [[0]; [0]] [[0]] [[0]; [0]]) 1 (Some 1%nat)
                      one_experience) 0 eq_refl) _ _ eq_refl eq_refl).
Defined.

(** After five episodes, with [target_update_steps] = 5 and tau = 1. *)
Lemma train_copies_targets_when_tau_is_one_witness :
  optimizers_over_live (MAPPO.optims (learner_after 5 0)) /\
  target_update_due (learner_after 5 0) = true /\
  MAPPO.target_tau (MAPPO.cfg (learner_after 5 0)) = 1 /\
  exists self',
    MAPPO.train (learner_after 5 0) (0 : @Rng Toy.collaborators) = Ok (self', 0) /\
    same_shape (MAPPO.actor_target (MAPPO.nets (learner_after 5 0)))
      (MAPPO.actor (MAPPO.nets self')) /\
    same_shape (MAPPO.critic_target (MAPPO.nets (learner_after 5 0)))
      (MAPPO.critic (MAPPO.nets self')) /\
    MAPPO.actor_target (MAPPO.nets self') = MAPPO.actor (MAPPO.nets self') /\
    MAPPO.critic_target (MAPPO.nets self') = MAPPO.critic (MAPPO.nets self').
Proof.
  split; [apply learner_after_live|]. split; [reflexivity|]. split; [reflexivity|].
  eexists. split; [reflexivity|].
  assert (Ha : same_shape [[0]] [[1 - 0.5 * 1]]) by (repeat constructor).
  assert (Hq : same_shape [[0]; [0]] [[0 - 0.5 * 1]; [0 - 0.5 * 1]]) by (repeat constructor).
  split; [exact Ha|]. split; [exact Hq|].
  exact (@train_copies_targets_when_tau_is_one Toy.collaborators (learner_after 5 0) _ 0 0
           (learner_after_live 5 0) eq_refl eq_refl eq_refl Ha Hq).
Defined.

(** ** The two losses *)

Section Losses.
Context {W : Collaborators}.

(** X13. On a batch of B >= 1 samples the actor loss of [train] is minus
    the mean, over all B * B pairs of a sample's advantage and a sample's
    ratio, of min(ratio * advantage, clamp(ratio, 1 - eps, 1 + eps) *
    advantage). *)
Theorem actor_loss_averages_over_all_pairs :
  forall (c : MAPPO.config) (n : MAPPO.networks) (s a : mat) (r : vec)
         (theta : params) (ad : nat),
    r <> [] -> length s = length r -> length a = length r ->
    rectangular ad a ->
    Forall (fun x => length (ActorNetwork theta x) = ad) s ->
    Forall (fun x => length (ActorNetwork (MAPPO.actor_target n) x) = ad) s ->
    MAPPO.actor_loss c n s a (column r) theta =
      Ok (- (sum (concat (map (fun adv =>
                                 map (fun rho =>
                                        Rmin (rho * adv)
                                          (clamp (1 - MAPPO.clip_param c)
                                             (1 + MAPPO.clip_param c) rho * adv))
                                   (ratios n theta s a))
                            (advantages n s a r)))
             / INR (length r * length r))).
Proof.
  intros c n s a r theta ad Hr Hs Ha Hrect Hlive Htarget.
  rewrite (actor_loss_all_pairs c n s a r theta ad Hr Hs Ha Hrect Hlive Htarget).
  unfold pairwise_surrogate, mean. f_equal. f_equal. f_equal. f_equal.
  rewrite (length_concat_uniform (length r)).
  - rewrite length_map. unfold advantages.
    unfold mat, vec in *. rewrite (zip_with_length_eq _ _ _ (length r)); auto.
    apply zip_with_length_eq; assumption.
  - apply Forall_map. apply Forall_forall. intros adv _.
    rewrite length_map. unfold ratios.
    unfold mat, vec in *. apply zip_with_length_eq; assumption.
Qed.

(** X14. On a batch of B >= 1 samples the critic loss of [train] is the
    mean over the samples of the loss of each sample's own value against its
    own discounted reward: the smooth L1 loss for [critic_loss] = "huber",
    the squared error for every other value. *)
Theorem critic_loss_pairs_each_sample_with_itself :
  forall (c : MAPPO.config) (s a : mat) (r : vec) (theta : params),
    r <> [] -> length s = length r -> length a = length r ->
    MAPPO.critic_loss_value c s a (column r) theta =
    Ok (sum (zip_with
               (fun q t => if (MAPPO.critic_loss c =? "huber")%string
                           then MAPPO.smooth_l1 (q - t) else (q - t) * (q - t))
               (zip_with (CriticNetwork theta) s a) r)
        / INR (length r)).
Proof.
  intros c s a r theta Hr Hs Ha.
  unfold MAPPO.critic_loss_value, MAPPO.critic_forward.
  set (vals := zip_with (CriticNetwork theta) s a).
  assert (Hvals : length vals = length r).
  { unfold vals. unfold mat, vec in *. apply zip_with_length_eq; assumption. }
  assert (Hne : vals <> []) by (apply (nonempty_length vals (length r)); auto;
                                 destruct r; [contradiction|simpl; lia]).
  assert (Hb : forall f, broadcast f (column vals) (column r) =
                         Ok (column (zip_with f vals r))).
  { intros f. rewrite (broadcast_same_shape f 1 (column vals) (column r)).
    - rewrite zip_with_column. reflexivity.
    - apply column_nonempty; exact Hne.
    - unfold column. rewrite !length_map. exact Hvals.
    - apply rectangular_column.
    - apply rectangular_column. }
  assert (Hmean : forall v, length v = length r ->
            mean (column v) = sum v / INR (length r)).
  { intros v Hv. unfold mean. rewrite concat_column, Hv. reflexivity. }
  destruct (MAPPO.critic_loss c =? "huber")%string.
  - rewrite Hb. simpl. rewrite Hmean; [reflexivity|].
    unfold mat, vec in *. apply zip_with_length_eq; [exact Hvals|reflexivity].
  - rewrite Hb. simpl. rewrite Hmean; [reflexivity|].
    unfold mat, vec in *. apply zip_with_length_eq; [exact Hvals|reflexivity].
Qed.

End Losses.

(** A batch of two samples of one agent. *)
Lemma actor_loss_averages_over_all_pairs_witness :
  [1; -1] <> ([] : vec) /\
  length ([[0]; [0]] : mat) = length [1; -1] /\
  length ([[1]; [0]] : mat) = length [1; -1] /\
  rectangular 1 [[1]; [0]] /\
  Forall (fun x => length (@ActorNetwork Toy.collaborators [[0.5]] x) = 1%nat) [[0]; [0]] /\
  Forall (fun x => length (@ActorNetwork Toy.collaborators (MAPPO.actor_target drifted) x)
                   = 1%nat) [[0]; [0]] /\
  @MAPPO.actor_loss Toy.collaborators (Toy.configuration 1 20 0.5 5 0 1) drifted
    [[0]; [0]] [[1]; [0]] (column [1; -1]) [[0.5]] =
  Ok (- (sum (concat (map (fun adv =>
                             map (fun rho =>
                                    Rmin (rho * adv) (clamp (1 - 0.2) (1 + 0.2) rho * adv))
                               (@ratios Toy.collaborators drifted [[0.5]] [[0]; [0]] [[1]; [0]]))
                        (@advantages Toy.collaborators drifted [[0]; [0]] [[1]; [0]] [1; -1])))
         / INR (2 * 2))).
Proof.
  assert (H1 : [1; -1] <> ([] : vec)) by discriminate.
  assert (H2 : length ([[0]; [0]] : mat) = length [1; -1]) by reflexivity.
  assert (H3 : length ([[1]; [0]] : mat) = length [1; -1]) by reflexivity.
  assert (H4 : rectangular 1 [[1]; [0]]) by (repeat constructor).
  assert (H5 : Forall (fun x => length (@ActorNetwork Toy.collaborators [[0.5]] x) = 1%nat)
                 [[0]; [0]]) by (repeat constructor).
  assert (H6 : Forall (fun x => length (@ActorNetwork Toy.collaborators
                                          (MAPPO.actor_target drifted) x) = 1%nat)
                 [[0]; [0]]) by (repeat constructor).
  repeat (split; [assumption|]).
  exact (@actor_loss_averages_over_all_pairs Toy.collaborators
           (Toy.configuration 1 20 0.5 5 0 1) drifted [[0]; [0]] [[1]; [0]] [1; -1] [[0.5]] 1
           H1 H2 H3 H4 H5 H6).
Defined.

(** The same batch, with the squared error. *)
Lemma critic_loss_pairs_each_sample_with_itself_witness :
  [1; -1] <> ([] : vec) /\
  length ([[0]; [0]] : mat) = length [1; -1] /\
  length ([[1]; [0]] : mat) = length [1; -1] /\
  @MAPPO.critic_loss_value Toy.collaborators (Toy.configuration 1 20 0.5 5 0 1)
    [[0]; [0]] [[1]; [0]] (column [1; -1]) [[0]; [1]] =
  Ok (sum (zip_with (fun q t => (q - t) * (q - t))
             (zip_with (@CriticNetwork Toy.collaborators [[0]; [1]]) [[0]; [0]] [[1]; [0]])
             [1; -1])
      / INR 2).
Proof.
  assert (H1 : [1; -1] <> ([] : vec)) by discriminate.
  assert (H2 : length ([[0]; [0]] : mat) = length [1; -1]) by reflexivity.
  assert (H3 : length ([[1]; [0]] : mat) = length [1; -1]) by reflexivity.
  repeat (split; [assumption|]).
  exact (@critic_loss_pairs_each_sample_with_itself Toy.collaborators
           (Toy.configuration 1 20 0.5 5 0 1) [[0]; [0]] [[1]; [0]] [1; -1] [[0]; [1]]
           H1 H2 H3).
Defined.

(** ** Actions and the soft update at their bounds *)

Section Actions.
Context {W : Collaborators}.

Lemma continuous_action_from (self : MAPPO.learner) (state : obs) (m : nat) :
  forall k,
    ((k + m <= length state)%nat ->
     map_result (fun agent_id => s <- py_index state agent_id ;;
                                 Ok (ActorNetwork (MAPPO.actor (MAPPO.nets self)) s))
       (seq k m) =
     Ok (map (ActorNetwork (MAPPO.actor (MAPPO.nets self))) (firstn m (skipn k state)))) /\
    ((0 < m)%nat -> (length state < k + m)%nat ->
     map_result (fun agent_id => s <- py_index state agent_id ;;
                                 Ok (ActorNetwork (MAPPO.actor (MAPPO.nets self)) s))
       (seq k m) = Raise IndexError).
Proof.
  induction m as [|m IH]; intros k.
  - split; [reflexivity|]. intros H; lia.
  - destruct (IH (S k)) as [IHok IHbad]. split.
    + intros H. simpl.
      rewrite (py_index_nth state k []) by lia. simpl.
      rewrite IHok by lia. simpl.
      rewrite (skipn_nth_cons state k []) by lia. reflexivity.
    + intros _ H. simpl.
      destruct (Nat.lt_ge_cases k (length state)) as [Hk|Hk].
      * rewrite (py_index_nth state k []) by lia. simpl.
        rewrite IHbad by lia. reflexivity.
      * unfold py_index.
        rewrite (proj2 (nth_error_None state k) Hk). reflexivity.
Qed.

(** X15. [_continuous_action] returns the actor's output on the first
    [n_agents] rows of the state; when the state has fewer rows, it raises
    IndexError, and so do [exploration_action] and [action]. *)
Theorem continuous_action_needs_a_row_per_agent :
  forall (self : MAPPO.learner) (state : obs) (n : nat) (g : Rng),
    ((n <= length state)%nat ->
     MAPPO._continuous_action self state n =
     Ok (map (ActorNetwork (MAPPO.actor (MAPPO.nets self))) (firstn n state))) /\
    ((length state < n)%nat ->
     MAPPO._continuous_action self state n = Raise IndexError /\
     MAPPO.exploration_action self state n g = Raise IndexError /\
     MAPPO.action self state n g = Raise IndexError).
Proof.
  intros self state n g.
  destruct (continuous_action_from self state n 0) as [Hok Hbad]. split.
  - intros H. exact (Hok H).
  - intros H.
    assert (E : MAPPO._continuous_action self state n = Raise IndexError)
      by (apply Hbad; lia).
    unfold MAPPO.exploration_action, MAPPO.action. rewrite E. auto.
Qed.

Lemma value_from (self : MAPPO.learner) (state : obs) (act : list vec) (m : nat) :
  forall k,
    ((k + m <= length state)%nat -> (k + m <= length act)%nat ->
     map_result
       (fun agent_id =>
          s <- py_index state agent_id ;;
          a <- py_index act agent_id ;;
          Ok (CriticNetwork (MAPPO.critic (MAPPO.nets self)) s a))
       (seq k m) =
     Ok (zip_with (CriticNetwork (MAPPO.critic (MAPPO.nets self)))
           (firstn m (skipn k state)) (firstn m (skipn k act)))) /\
    ((0 < m)%nat -> (length state < k + m \/ length act < k + m)%nat ->
     map_result
       (fun agent_id =>
          s <- py_index state agent_id ;;
          a <- py_index act agent_id ;;
          Ok (CriticNetwork (MAPPO.critic (MAPPO.nets self)) s a))
       (seq k m) = Raise IndexError).
Proof.
  induction m as [|m IH]; intros k.
  - split; [reflexivity|]. intros H; lia.
  - destruct (IH (S k)) as [IHok IHbad]. split.
    + intros Hs Ha. simpl.
      rewrite (py_index_nth state k []) by lia. simpl.
      rewrite (py_index_nth act k []) by lia. simpl.
      rewrite IHok by lia. simpl.
      rewrite (skipn_nth_cons state k []) by lia.
      rewrite (skipn_nth_cons act k []) by lia. reflexivity.
    + intros _ H. simpl.
      destruct (Nat.lt_ge_cases k (length state)) as [Hk|Hk].
      * rewrite (py_index_nth state k []) by lia. simpl.
        destruct (Nat.lt_ge_cases k (length act)) as [Hk'|Hk'].
        -- rewrite (py_index_nth act k []) by lia. simpl.
           rewrite IHbad by lia. reflexivity.
        -- unfold py_index at 1.
           rewrite (proj2 (nth_error_None act k) Hk'). reflexivity.
      * unfold py_index at 1.
        rewrite (proj2 (nth_error_None state k) Hk). reflexivity.
Qed.

(** X16. [value] raises AttributeError as long as no [interact] has set
    [n_agents]; afterwards it returns the live critic's value of each of the
    first [n_agents] rows of the state and of the action, and raises
    IndexError when either has fewer rows. *)
Theorem value_needs_the_agent_count_and_a_row_per_agent :
  forall (self : MAPPO.learner) (state : obs) (act : list vec),
    (MAPPO.n_agents self = None -> MAPPO.value self state act = Raise AttributeError) /\
    (forall n, MAPPO.n_agents self = Some n ->
       ((n <= length state)%nat -> (n <= length act)%nat ->
        MAPPO.value self state act =
        Ok (zip_with (CriticNetwork (MAPPO.critic (MAPPO.nets self)))
              (firstn n state) (firstn n act))) /\
       ((length state < n \/ length act < n)%nat ->
        MAPPO.value self state act = Raise IndexError)).
Proof.
  intros self state act. split.
  - intros H. unfold MAPPO.value. rewrite H. reflexivity.
  - intros n H. unfold MAPPO.value. rewrite H. simpl.
    destruct (value_from self state act n 0) as [Hok Hbad]. split.
    + intros Hs Ha. exact (Hok Hs Ha).
    + intros Hlt. apply Hbad; lia.
Qed.

End Actions.

(** A state of one row, for one agent and for two. *)
Lemma continuous_action_needs_a_row_per_agent_witness :
  ((1 <= length ([[0%R]] : obs))%nat /\
   MAPPO._continuous_action fresh_learner [[0]] 1 = Ok [[0.5]]) /\
  ((length ([[0%R]] : obs) < 2)%nat /\
   MAPPO.exploration_action fresh_learner [[0]] 2 (1 : @Rng Toy.collaborators) =
     Raise IndexError).
Proof.
  assert (H1 : (1 <= length ([[0%R]] : obs))%nat) by (simpl; lia).
  assert (H2 : (length ([[0%R]] : obs) < 2)%nat) by (simpl; lia).
  split.
  - split; [exact H1|].
    exact (proj1 (@continuous_action_needs_a_row_per_agent Toy.collaborators fresh_learner
                    [[0]] 1 1) H1).
  - split; [exact H2|].
    exact (proj1 (proj2 (proj2 (@continuous_action_needs_a_row_per_agent Toy.collaborators
                                  fresh_learner [[0]] 2 1) H2))).
Defined.

(** Before the first rollout; one agent; a state without rows. *)
Lemma value_needs_the_agent_count_and_a_row_per_agent_witness :
  (MAPPO.n_agents (learner_at_start 0) = None /\
   MAPPO.value (learner_at_start 0) [[0]] [[0.5]] = Raise AttributeError) /\
  (MAPPO.n_agents fresh_learner = Some 1%nat /\
   (1 <= length ([[0%R]] : obs))%nat /\ (1 <= length ([[0.5%R]] : list vec))%nat /\
   MAPPO.value fresh_learner [[0]] [[0.5]] =
     Ok [@CriticNetwork Toy.collaborators [[0]; [1]] [0] [0.5]]) /\
  (MAPPO.n_agents fresh_learner = Some 1%nat /\
   ((length ([] : obs) < 1)%nat \/ (length ([[0.5%R]] : list vec) < 1)%nat) /\
   MAPPO.value fresh_learner [] [[0.5]] = Raise IndexError).
Proof.
  split; [|split].
  - split; [reflexivity|].
    exact (proj1 (@value_needs_the_agent_count_and_a_row_per_agent Toy.collaborators
                    (learner_at_start 0) [[0]] [[0.5]]) eq_refl).
  - assert (H1 : (1 <= length ([[0%R]] : obs))%nat) by (simpl; lia).
    assert (H2 : (1 <= length ([[0.5%R]] : list vec))%nat) by (simpl; lia).
    split; [reflexivity|]. split; [exact H1|]. split; [exact H2|].
    exact (proj1 (proj2 (@value_needs_the_agent_count_and_a_row_per_agent Toy.collaborators
                           fresh_learner [[0]] [[0.5]]) 1%nat eq_refl) H1 H2).
  - assert (H1 : (length ([] : obs) < 1)%nat \/ (length ([[0.5%R]] : list vec) < 1)%nat)
      by (left; simpl; lia).
    split; [reflexivity|]. split; [exact H1|].
    exact (proj2 (proj2 (@value_needs_the_agent_count_and_a_row_per_agent Toy.collaborators
                           fresh_learner [] [[0.5]]) 1%nat eq_refl) H1).
Defined.




(** ** Checkpoints *)

Section Checkpoints.
Context {W : Collaborators} {D : Storage}.

Lemma scan_file_step (save_file : option string) (save_step : Z) (file : string) :
  MAPPO.scan_file (save_file, save_step) file =
  match checkpoint_step file with
  | None => Ok (save_file, save_step)
  | Some (Raise e) => Raise e
  | Some (Ok cur_step) =>
      if (save_step <? cur_step)%Z then Ok (Some file, cur_step)
      else Ok (save_file, save_step)
  end.
Proof.
  unfold MAPPO.scan_file, checkpoint_step.
  destruct (String.prefix "checkpoint" file); [|reflexivity].
  destruct (length _ =? 2)%nat; simpl; [|reflexivity].
  destruct (int _); reflexivity.
Qed.

Lemma scan_files_spec (files : list string) :
  forall (sf0 : option string) (st0 : Z) (sf : option string) (st : Z),
    for_each MAPPO.scan_file files (sf0, st0) = Ok (sf, st) ->
    (st0 <= st)%Z /\
    (forall f k, In f files -> checkpoint_step f = Some (Ok k) -> (k <= st)%Z) /\
    ((sf = sf0 /\ st = st0) \/
     (exists f, sf = Some f /\ In f files /\ checkpoint_step f = Some (Ok st) /\
                (st0 < st)%Z)).
Proof.
  induction files as [|file files IH]; intros sf0 st0 sf st H; cbn [for_each] in H.
  - inversion H; subst; clear H.
    split; [lia|]. split; [intros f k []|]. left; auto.
  - apply bind_ok in H. destruct H as ([sf1 st1] & Hscan & H).
    rewrite scan_file_step in Hscan.
    destruct (IH _ _ _ _ H) as (Hle & Hmax & Hsel).
    destruct (checkpoint_step file) as [[k|e]|] eqn:Estep; [| discriminate |].
    + destruct (st0 <? k)%Z eqn:Elt.
      * apply Z.ltb_lt in Elt. inversion Hscan; subst; clear Hscan.
        split; [lia|]. split.
        -- intros f k' [<-|Hin] Hk.
           ++ rewrite Estep in Hk. inversion Hk; subst. exact Hle.
           ++ exact (Hmax f k' Hin Hk).
        -- right. destruct Hsel as [[-> ->]|(f & -> & Hin & Hf & Hlt)].
           ++ exists file. simpl. auto.
           ++ exists f. simpl. repeat split; auto. lia.
      * apply Z.ltb_ge in Elt. inversion Hscan; subst; clear Hscan.
        split; [exact Hle|]. split.
        -- intros f k' [<-|Hin] Hk.
           ++ rewrite Estep in Hk. inversion Hk; subst. lia.
           ++ exact (Hmax f k' Hin Hk).
        -- destruct Hsel as [[-> ->]|(f & -> & Hin & Hf & Hlt)]; [left; auto|].
           right. exists f. simpl. auto.
    + inversion Hscan; subst; clear Hscan.
      split; [exact Hle|]. split.
      * intros f k' [<-|Hin] Hk.
        -- rewrite Estep in Hk. discriminate.
        -- exact (Hmax f k' Hin Hk).
      * destruct Hsel as [[-> ->]|(f & -> & Hin & Hf & Hlt)]; [left; auto|].
        right. exists f. simpl. auto.
Qed.

(** What [load] has done when it returns. *)
Lemma load_unfold (self : MAPPO.learner) (fs : FileSystem) (model_dir : string)
  (global_step : option Z) (train_mode : bool) (self' : MAPPO.learner) (b : bool) :
  MAPPO.load self fs model_dir global_step train_mode = Ok (self', b) ->
  (b = false /\ self' = self) \/
  (b = true /\
   exists save_file cp,
     th_load fs (model_dir ++ save_file) = Ok cp /\
     MAPPO.load_state_dict (MAPPO.actor (MAPPO.nets self)) (model_state_dict cp) =
       Ok (MAPPO.actor (MAPPO.nets self')) /\
     MAPPO.critic (MAPPO.nets self') = MAPPO.critic (MAPPO.nets self) /\
     MAPPO.actor_target (MAPPO.nets self') = MAPPO.actor_target (MAPPO.nets self) /\
     MAPPO.critic_target (MAPPO.nets self') = MAPPO.critic_target (MAPPO.nets self) /\
     MAPPO.critic_optimizer (MAPPO.optims self') = MAPPO.critic_optimizer (MAPPO.optims self) /\
     (train_mode = false -> MAPPO.optims self' = MAPPO.optims self) /\
     MAPPO.cfg self' = MAPPO.cfg self /\
     MAPPO.memory self' = MAPPO.memory self /\
     MAPPO.n_episodes self' = MAPPO.n_episodes self /\
     path_exists fs model_dir = true /\
     match global_step with
     | Some k => save_file = ("checkpoint-" ++ format_d k ++ ".pt")%string
     | None =>
         exists files st, listdir fs model_dir = Ok files /\
                          for_each MAPPO.scan_file files (None, 0%Z) = Ok (Some save_file, st)
     end).
Proof.
  intros H. unfold MAPPO.load in H.
  apply bind_ok in H. destruct H as (sf & Hsf & H).
  destruct sf as [save_file|]; [|inversion H; subst; left; auto].
  right.
  apply bind_ok in H. destruct H as (cp & Hcp & H).
  apply bind_ok in H. destruct H as (a & Ha & H).
  assert (Hsel : path_exists fs model_dir = true /\
     match global_step with
     | Some k => save_file = ("checkpoint-" ++ format_d k ++ ".pt")%string
     | None =>
         exists files st, listdir fs model_dir = Ok files /\
                          for_each MAPPO.scan_file files (None, 0%Z) = Ok (Some save_file, st)
     end).
  { destruct (path_exists fs model_dir); [|discriminate]. split; [reflexivity|].
    destruct global_step as [k|].
    - inversion Hsf; reflexivity.
    - apply bind_ok in Hsf. destruct Hsf as (files & Hfiles & Hsf).
      apply bind_ok in Hsf. destruct Hsf as ([sf st] & Hscan & Hsf).
      inversion Hsf; subst. exists files, st. auto. }
  destruct train_mode.
  - apply bind_ok in H. destruct H as (o & Ho & H).
    apply bind_ok in H. destruct H as (st & Hst & H).
    inversion H; subst; clear H. split; [reflexivity|].
    exists save_file, cp. simpl.
    split; [exact Hcp|]. split; [exact Ha|].
    do 4 (split; [reflexivity|]). split; [intros; discriminate|].
    do 3 (split; [reflexivity|]). exact Hsel.
  - inversion H; subst; clear H. split; [reflexivity|].
    exists save_file, cp. simpl.
    split; [exact Hcp|]. split; [exact Ha|].
    do 4 (split; [reflexivity|]). split; [reflexivity|].
    do 3 (split; [reflexivity|]). exact Hsel.
Qed.

(** X18. A call of [load] that returns has written at most the live actor
    and, in train mode, the state of its optimizer: the critic, both target
    networks, the critic's optimizer, the memory and the episode count are
    as before. When it returns False, which it does without a model
    directory, the learner is unchanged. *)
Theorem load_restores_the_actor_only :
  forall (self self' : MAPPO.learner) (fs : FileSystem) (model_dir : string)
         (global_step : option Z) (train_mode b : bool),
    MAPPO.load self fs model_dir global_step train_mode = Ok (self', b) ->
    MAPPO.critic (MAPPO.nets self') = MAPPO.critic (MAPPO.nets self) /\
    MAPPO.actor_target (MAPPO.nets self') = MAPPO.actor_target (MAPPO.nets self) /\
    MAPPO.critic_target (MAPPO.nets self') = MAPPO.critic_target (MAPPO.nets self) /\
    MAPPO.critic_optimizer (MAPPO.optims self') = MAPPO.critic_optimizer (MAPPO.optims self) /\
    (train_mode = false -> MAPPO.optims self' = MAPPO.optims self) /\
    MAPPO.memory self' = MAPPO.memory self /\
    MAPPO.n_episodes self' = MAPPO.n_episodes self /\
    (b = false -> self' = self) /\
    (path_exists fs model_dir = false -> b = false).
Proof.
  intros self self' fs model_dir global_step train_mode b H.
  destruct (load_unfold _ _ _ _ _ _ _ H)
    as [[-> ->]|(-> & sf & cp & _ & _ & H1 & H2 & H3 & H4 & H5 & _ & H7 & H8 & H9 & _)].
  - repeat (split; [reflexivity|]). split; reflexivity.
  - repeat (split; [assumption|]). split; [discriminate|].
    intros Hf. rewrite Hf in H9. discriminate.
Qed.

(** X19. Without a [global_step], [load] reads the checkpoint of the
    greatest step among the file names "checkpoint..." of the model
    directory with exactly two "-"-separated tokens before the first ".",
    provided that step is positive; it returns False, and leaves the learner
    as it is, when no such file has a positive step. *)
Theorem load_picks_the_greatest_positive_step :
  forall (self self' : MAPPO.learner) (fs : FileSystem) (model_dir : string)
         (train_mode b : bool) (files : list string),
    path_exists fs model_dir = true ->
    listdir fs model_dir = Ok files ->
    MAPPO.load self fs model_dir None train_mode = Ok (self', b) ->
    (b = true ->
     exists file step cp,
       In file files /\ checkpoint_step file = Some (Ok step) /\ (0 < step)%Z /\
       (forall f k, In f files -> checkpoint_step f = Some (Ok k) -> (k <= step)%Z) /\
       th_load fs (model_dir ++ file) = Ok cp /\
       MAPPO.actor (MAPPO.nets self') = model_state_dict cp) /\
    (b = false ->
     self' = self /\
     forall f k, In f files -> checkpoint_step f = Some (Ok k) -> (k <= 0)%Z).
Proof.
  intros self self' fs model_dir train_mode b files Hex Hls H. split.
  - intros ->.
    destruct (load_unfold _ _ _ _ _ _ _ H)
      as [[Hb _]|(_ & sf & cp & Hcp & Ha & _ & _ & _ & _ & _ & _ & _ & _ & _ & Hsel)];
      [discriminate|].
    destruct Hsel as (files' & st & Hls' & Hscan).
    rewrite Hls in Hls'. inversion Hls'; subst files'; clear Hls'.
    destruct (scan_files_spec _ _ _ _ _ Hscan) as (_ & Hmax & [[Hn _]|(f & Hf & Hin & Hstep & Hpos)]);
      [discriminate|].
    inversion Hf; subst f; clear Hf.
    exists sf, st, cp. repeat (split; [assumption|]).
    unfold MAPPO.load_state_dict in Ha.
    destruct (list_eq_dec _ _ _); [|discriminate]. inversion Ha; reflexivity.
  - intros ->. unfold MAPPO.load in H. rewrite Hex, Hls in H. simpl in H.
    destruct (for_each MAPPO.scan_file files (None, 0%Z)) as [[sf st]|e] eqn:Hscan;
      [|discriminate].
    simpl in H. destruct sf as [f|].
    + apply bind_ok in H. destruct H as (cp & _ & H).
      apply bind_ok in H. destruct H as (a & _ & H).
      destruct train_mode.
      * apply bind_ok in H. destruct H as (o & _ & H).
        apply bind_ok in H. destruct H as (st' & _ & H). inversion H.
      * inversion H.
    + inversion H; subst. split; [reflexivity|].
      destruct (scan_files_spec _ _ _ _ _ Hscan) as (_ & Hmax & [[_ ->]|(f & Hf & _)]);
        [exact Hmax|discriminate].
Qed.

(** X20. Without a [global_step], [load] raises whenever the model
    directory holds a file name "checkpoint-<x>..." whose step <x> is
    rejected by [int]: the file is not passed over. *)
Theorem load_raises_on_unreadable_step :
  forall (self : MAPPO.learner) (fs : FileSystem) (model_dir : string)
         (train_mode : bool) (files : list string) (file : string) (e : exn),
    path_exists fs model_dir = true ->
    listdir fs model_dir = Ok files ->
    In file files ->
    checkpoint_step file = Some (Raise e) ->
    exists e', MAPPO.load self fs model_dir None train_mode = Raise e'.
Proof.
  intros self fs model_dir train_mode files file e Hex Hls Hin Hstep.
  assert (Hscan : forall st, exists e', for_each MAPPO.scan_file files st = Raise e').
  { clear Hls. induction files as [|f files IH]; [destruct Hin|].
    intros [sf st]. cbn [for_each]. rewrite scan_file_step.
    destruct Hin as [->|Hin].
    - rewrite Hstep. exists e. reflexivity.
    - destruct (checkpoint_step f) as [[k|e1]|].
      + destruct (st <? k)%Z; simpl; apply (IH Hin).
      + exists e1. reflexivity.
      + simpl. apply (IH Hin). }
  destruct (Hscan (None, 0%Z)) as (e' & He').
  exists e'. unfold MAPPO.load. rewrite Hex, Hls. simpl. rewrite He'. reflexivity.
Qed.

(** X21. On a storage where [th.load] returns what [th.save] wrote, [load]
    with the [global_step] of an earlier [save] into the same existing
    directory returns True and gives a learner of the same actor shape the
    saved actor; its critic and its target actor are not touched. *)
Theorem load_reads_back_what_save_wrote :
  forall (self other : MAPPO.learner) (fs fs' : FileSystem) (model_dir : string)
         (global_step : Z),
    (forall path cp, th_save fs path cp = Ok fs' -> th_load fs' path = Ok cp) ->
    MAPPO.save self fs model_dir global_step = Ok fs' ->
    path_exists fs' model_dir = true ->
    map (@length R) (MAPPO.actor (MAPPO.nets other)) =
      map (@length R) (MAPPO.actor (MAPPO.nets self)) ->
    exists restored,
      MAPPO.load other fs' model_dir (Some global_step) false = Ok (restored, true) /\
      MAPPO.actor (MAPPO.nets restored) = MAPPO.actor (MAPPO.nets self) /\
      MAPPO.critic (MAPPO.nets restored) = MAPPO.critic (MAPPO.nets other) /\
      MAPPO.actor_target (MAPPO.nets restored) = MAPPO.actor_target (MAPPO.nets other).
Proof.
  intros self other fs fs' model_dir global_step Hfs Hsave Hex Hshape.
  unfold MAPPO.save in Hsave.
  apply bind_ok in Hsave. destruct Hsave as (o & _ & Hsave).
  pose proof (Hfs _ _ Hsave) as Hload.
  unfold MAPPO.load. rewrite Hex. cbn [bind]. rewrite Hload. cbn [bind].
  unfold MAPPO.load_state_dict. cbn [model_state_dict].
  destruct (list_eq_dec _ _ _) as [_|Hn]; [|contradiction].
  cbn [bind]. eexists. split; [reflexivity|]. simpl. auto.
Qed.

End Checkpoints.

(** The latest checkpoint of the model directory, step 12, holds the actor
    0.25; loading it leaves the target actor at 0. *)
Lemma load_restores_the_actor_only_witness :
  exists self',
    @MAPPO.load Toy.collaborators Toy.storage (learner_after 5 0) model_disk "models/" None
      false = Ok (self', true) /\
    MAPPO.actor (MAPPO.nets self') = [[0.25]] /\
    MAPPO.actor_target (MAPPO.nets self') = [[0]] /\
    MAPPO.critic (MAPPO.nets self') = MAPPO.critic (MAPPO.nets (learner_after 5 0)) /\
    MAPPO.optims self' = MAPPO.optims (learner_after 5 0).
Proof.
  eexists. split; [reflexivity|]. split; [reflexivity|].
  destruct (@load_restores_the_actor_only Toy.collaborators Toy.storage (learner_after 5 0) _
              model_disk "models/" None false true eq_refl)
    as (Hq & Ha & _ & _ & Ho & _).
  split; [exact Ha|]. split; [exact Hq|]. exact (Ho eq_refl).
Defined.

(** The same directory in train mode. *)
Lemma load_picks_the_greatest_positive_step_witness :
  @path_exists Toy.collaborators Toy.storage model_disk "models/" = true /\
  @listdir Toy.collaborators Toy.storage model_disk "models/" =
    Ok ["checkpoint-5.pt"; "checkpoint-12.pt"; "checkpoint-0.pt"; "checkpoint-3-1.pt";
        "notes.txt"]%string /\
  exists self' file step cp,
    @MAPPO.load Toy.collaborators Toy.storage (learner_after 5 0) model_disk "models/" None
      true = Ok (self', true) /\
    @checkpoint_step Toy.collaborators Toy.storage file = Some (Ok step) /\
    (0 < step)%Z /\
    (5 <= step)%Z /\ (12 <= step)%Z /\
    @th_load Toy.collaborators Toy.storage model_disk ("models/" ++ file) = Ok cp /\
    MAPPO.actor (MAPPO.nets self') = model_state_dict cp.
Proof.
  split; [reflexivity|]. split; [reflexivity|].
  destruct (proj1 (@load_picks_the_greatest_positive_step Toy.collaborators Toy.storage
                     (learner_after 5 0) _ model_disk "models/" true true _
                     eq_refl eq_refl eq_refl) eq_refl)
    as (file & step & cp & _ & Hstep & Hpos & Hmax & Hcp & Ha).
  eexists. exists file, step, cp.
  split; [reflexivity|]. split; [exact Hstep|]. split; [exact Hpos|].
  split; [apply (Hmax "checkpoint-5.pt"%string); [simpl; auto|reflexivity]|].
  split; [apply (Hmax "checkpoint-12.pt"%string); [simpl; auto|reflexivity]|].
  split; [exact Hcp|exact Ha].
Defined.

(** The directory with the file "checkpoint-final.pt". *)
Lemma load_raises_on_unreadable_step_witness :
  @path_exists Toy.collaborators Toy.storage disk_with_final "models/" = true /\
  In "checkpoint-final.pt"%string (Toy.names disk_with_final "models/") /\
  @checkpoint_step Toy.collaborators Toy.storage "checkpoint-final.pt" =
    Some (Raise ValueError) /\
  exists e,
    @MAPPO.load Toy.collaborators Toy.storage (learner_after 5 0) disk_with_final "models/"
      None false = Raise e.
Proof.
  assert (H1 : @path_exists Toy.collaborators Toy.storage disk_with_final "models/" = true)
    by reflexivity.
  assert (H2 : In "checkpoint-final.pt"%string (Toy.names disk_with_final "models/"))
    by (left; reflexivity).
  assert (H3 : @checkpoint_step Toy.collaborators Toy.storage "checkpoint-final.pt" =
               Some (Raise ValueError)) by reflexivity.
  repeat (split; [assumption|]).
  exact (@load_raises_on_unreadable_step Toy.collaborators Toy.storage (learner_after 5 0)
           disk_with_final "models/" false _ "checkpoint-final.pt" ValueError
           H1 eq_refl H2 H3).
Defined.

(** Saving step 7, then loading it into another learner. *)
Lemma load_reads_back_what_save_wrote_witness :
  exists fs' restored,
    @MAPPO.save Toy.collaborators Toy.storage (learner_after 5 0) model_disk "models/" 7 =
      Ok fs' /\
    @path_exists Toy.collaborators Toy.storage fs' "models/" = true /\
    @MAPPO.load Toy.collaborators Toy.storage fresh_learner fs' "models/" (Some 7%Z) false =
      Ok (restored, true) /\
    MAPPO.actor (MAPPO.nets restored) = [[1]].
Proof.
  eexists.
  assert (Hlaw : forall path cp,
             @th_save Toy.collaborators Toy.storage model_disk path cp =
               Ok (("models/checkpoint-7.pt"%string, @Build_checkpoint Toy.collaborators 7
                                                       [[1]] (0.5 : R)) :: model_disk) ->
             @th_load Toy.collaborators Toy.storage
               (("models/checkpoint-7.pt"%string, @Build_checkpoint Toy.collaborators 7
                                                    [[1]] (0.5 : R)) :: model_disk) path =
               Ok cp).
  { intros path cp H. simpl in H. inversion H; subst. simpl.
    reflexivity. }
  destruct (@load_reads_back_what_save_wrote Toy.collaborators Toy.storage
              (learner_after 5 0) fresh_learner model_disk _ "models/" 7 Hlaw
              eq_refl eq_refl eq_refl) as (restored & Hrun & Ha & _).
  exists restored. split; [reflexivity|]. split; [reflexivity|].
  split; [exact Hrun|exact Ha].
Defined.

(** ** The environment: road test, termination, cost and reward *)

Lemma existsb_map {A B : Type} (f : A -> B) (p : B -> bool) (l : list A) :
  existsb p (map f l) = existsb (fun x => p (f x)) l.
Proof. induction l as [|x l IH]; simpl; [reflexivity|]. rewrite IH; reflexivity. Qed.

Lemma fold_np_add_num (xs : vec) (acc : R) :
  fold_left LaneChnageMARL.np_add (map LaneChnageMARL.Num xs) (LaneChnageMARL.Num acc) =
  LaneChnageMARL.Num (acc + sum xs).
Proof.
  revert acc; induction xs as [|x xs IH]; intros acc; simpl.
  - f_equal. lra.
  - rewrite IH. f_equal. lra.
Qed.

Lemma fold_np_add_nan (l : list LaneChnageMARL.np_float) :
  fold_left LaneChnageMARL.np_add l LaneChnageMARL.NaN = LaneChnageMARL.NaN.
Proof. induction l as [|x l IH]; simpl; [reflexivity|exact IH]. Qed.

Lemma fold_np_add_with_nan (l : list LaneChnageMARL.np_float) :
  forall acc, In LaneChnageMARL.NaN l ->
    fold_left LaneChnageMARL.np_add l acc = LaneChnageMARL.NaN.
Proof.
  induction l as [|x l IH]; intros acc Hin; [destruct Hin|].
  simpl. destruct Hin as [->|Hin].
  - destruct acc; simpl; apply fold_np_add_nan.
  - apply IH; exact Hin.
Qed.

Lemma sum_bounds (lo hi : R) (xs : vec) :
  Forall (fun x => lo <= x <= hi) xs ->
  INR (length xs) * lo <= sum xs <= INR (length xs) * hi.
Proof.
  induction 1 as [|x xs Hx _ IH].
  - simpl. lra.
  - rewrite length_cons, S_INR. simpl sum. lra.
Qed.

Section Episode.
Variable BaseInfo : Type.
Variables duration policy_frequency : Z.
Variable _agent_reward : LaneChnageMARL.Vehicle -> LaneChnageMARL.np_float.
Variable DEFAULT_WIDTH : R.

(** X22. [is_vehicle_on_road] is True exactly when the longitudinal
    position is positive or NaN and the lateral position is strictly between
    -0.5 and 1.5 lane widths or NaN: a NaN coordinate passes the test. *)
Theorem vehicle_on_road_bounds :
  forall (vehicle : LaneChnageMARL.Vehicle),
    LaneChnageMARL.is_vehicle_on_road DEFAULT_WIDTH vehicle = true <->
    match fst (LaneChnageMARL.position vehicle) with
    | LaneChnageMARL.Num x => 0 < x
    | LaneChnageMARL.NaN => True
    end /\
    match snd (LaneChnageMARL.position vehicle) with
    | LaneChnageMARL.Num y => -0.5 * DEFAULT_WIDTH < y /\ y < 1.5 * DEFAULT_WIDTH
    | LaneChnageMARL.NaN => True
    end.
Proof.
  intros vehicle. unfold LaneChnageMARL.is_vehicle_on_road, LaneChnageMARL.np_le.
  destruct (fst (LaneChnageMARL.position vehicle)) as [x|],
           (snd (LaneChnageMARL.position vehicle)) as [y|];
    repeat (destruct (Rle_dec _ _)); intuition (try discriminate; try lra).
Qed.

Lemma existsb_agent_terminal (e : LaneChnageMARL.stepped BaseInfo)
  (vs : list LaneChnageMARL.Vehicle) :
  vs <> [] ->
  existsb (LaneChnageMARL._agent_is_terminal BaseInfo duration policy_frequency e) vs =
  existsb LaneChnageMARL.crashed vs
  || (duration * policy_frequency <=? LaneChnageMARL.steps e)%Z.
Proof.
  unfold LaneChnageMARL._agent_is_terminal.
  induction vs as [|v vs IH]; intros Hne; [contradiction|].
  simpl. destruct vs as [|v' vs].
  - simpl. rewrite !orb_false_r. reflexivity.
  - rewrite IH by discriminate.
    destruct (LaneChnageMARL.crashed v), (existsb LaneChnageMARL.crashed (v' :: vs)),
      (duration * policy_frequency <=? LaneChnageMARL.steps e)%Z; reflexivity.
Qed.

(** X23. With at least one controlled vehicle, [_is_terminal] holds exactly
    when [_agent_is_terminal] holds of some controlled vehicle, which is
    what the tuple [agents_dones] of [step] records; once the step count has
    reached duration * policy_frequency, every agent is terminal. *)
Theorem episode_ends_when_an_agent_is_terminal :
  forall (e : LaneChnageMARL.stepped BaseInfo),
    LaneChnageMARL.controlled_vehicles e <> [] ->
    LaneChnageMARL._is_terminal BaseInfo duration policy_frequency e =
      existsb (LaneChnageMARL._agent_is_terminal BaseInfo duration policy_frequency e)
        (LaneChnageMARL.controlled_vehicles e) /\
    ((duration * policy_frequency <= LaneChnageMARL.steps e)%Z ->
     forallb (LaneChnageMARL._agent_is_terminal BaseInfo duration policy_frequency e)
       (LaneChnageMARL.controlled_vehicles e) = true) /\
    (forall o r d i,
        LaneChnageMARL.step BaseInfo duration policy_frequency _agent_reward e =
          Ok (o, r, d, i) ->
        existsb (fun x => x) (LaneChnageMARL.agents_dones i) =
        LaneChnageMARL._is_terminal BaseInfo duration policy_frequency e).
Proof.
  intros e Hne. split; [|split].
  - unfold LaneChnageMARL._is_terminal. symmetry. apply existsb_agent_terminal. exact Hne.
  - intros Ht. apply forallb_forall. intros v _. unfold LaneChnageMARL._agent_is_terminal.
    apply Z.leb_le in Ht. rewrite Ht. apply orb_true_r.
  - intros o r d i H. unfold LaneChnageMARL.step in H.
    apply bind_ok in H. destruct H as ([ai li] & _ & H).
    apply bind_ok in H. destruct H as (o' & _ & H).
    inversion H; subst; clear H. simpl.
    rewrite existsb_map. unfold LaneChnageMARL._is_terminal.
    apply existsb_agent_terminal. exact Hne.
Qed.

(** X24. [_cost] is 0 exactly when every controlled vehicle has crashed
    (or there is none) and 1 exactly when some controlled vehicle has not
    crashed; in particular it is 1 in every state that is not terminal. *)
Theorem cost_is_zero_only_when_all_crashed :
  forall (e : LaneChnageMARL.stepped BaseInfo),
    (LaneChnageMARL._cost BaseInfo e = 0 <->
     forall v, In v (LaneChnageMARL.controlled_vehicles e) ->
               LaneChnageMARL.crashed v = true) /\
    (LaneChnageMARL._cost BaseInfo e = 1 <->
     exists v, In v (LaneChnageMARL.controlled_vehicles e) /\
               LaneChnageMARL.crashed v = false) /\
    (LaneChnageMARL.controlled_vehicles e <> [] ->
     LaneChnageMARL._is_terminal BaseInfo duration policy_frequency e = false ->
     LaneChnageMARL._cost BaseInfo e = 1).
Proof.
  intros e. unfold LaneChnageMARL._cost.
  destruct (existsb _ (LaneChnageMARL.controlled_vehicles e)) eqn:E.
  - apply existsb_exists in E. destruct E as (v & Hin & Hv).
    assert (Hc : LaneChnageMARL.crashed v = false)
      by (destruct (LaneChnageMARL.crashed v); [discriminate|reflexivity]).
    split; [|split].
    + split; [intros H; lra|]. intros H. rewrite (H v Hin) in Hc. discriminate.
    + split; [|reflexivity]. intros _. exists v. auto.
    + reflexivity.
  - assert (Hall : forall v, In v (LaneChnageMARL.controlled_vehicles e) ->
                             LaneChnageMARL.crashed v = true).
    { intros v Hin. destruct (LaneChnageMARL.crashed v) eqn:Ec; [reflexivity|].
      assert (Hex : existsb (fun vehicle => Bool.eqb (LaneChnageMARL.crashed vehicle) false)
                      (LaneChnageMARL.controlled_vehicles e) = true).
      { apply existsb_exists. exists v. rewrite Ec. auto. }
      rewrite Hex in E. discriminate. }
    split; [|split].
    + split; [intros _; exact Hall|reflexivity].
    + split; [intros H; lra|]. intros (v & Hin & Hv). rewrite (Hall v Hin) in Hv.
      discriminate.
    + intros Hne Ht. unfold LaneChnageMARL._is_terminal in Ht.
      destruct (LaneChnageMARL.controlled_vehicles e) as [|v vs]; [contradiction|].
      simpl in Ht. rewrite (Hall v (or_introl eq_refl)) in Ht. discriminate.
Qed.

(** X25. [_reward] raises ZeroDivisionError without controlled vehicles;
    it is NaN as soon as one agent's reward is NaN; and when every agent's
    reward is a number between lo and hi, so is the reward. *)
Theorem reward_is_the_mean_of_the_agent_rewards :
  forall (e : LaneChnageMARL.stepped BaseInfo),
    (LaneChnageMARL.controlled_vehicles e = [] ->
     LaneChnageMARL._reward BaseInfo _agent_reward e = Raise ZeroDivisionError) /\
    (forall v, In v (LaneChnageMARL.controlled_vehicles e) ->
               _agent_reward v = LaneChnageMARL.NaN ->
     LaneChnageMARL._reward BaseInfo _agent_reward e = Ok LaneChnageMARL.NaN) /\
    (forall lo hi,
        LaneChnageMARL.controlled_vehicles e <> [] ->
        (forall v, In v (LaneChnageMARL.controlled_vehicles e) ->
                   exists x, _agent_reward v = LaneChnageMARL.Num x /\ lo <= x <= hi) ->
        exists m, LaneChnageMARL._reward BaseInfo _agent_reward e = Ok (LaneChnageMARL.Num m) /\
                  lo <= m <= hi).
Proof.
  intros e. unfold LaneChnageMARL._reward.
  set (vs := LaneChnageMARL.controlled_vehicles e).
  split; [|split].
  - intros ->. reflexivity.
  - intros v Hin Hnan.
    destruct vs as [|v0 vs'] eqn:Evs; [destruct Hin|].
    cbn [length Nat.eqb].
    rewrite fold_np_add_with_nan; [reflexivity|].
    rewrite <- Hnan. apply in_map. exact Hin.
  - intros lo hi Hne Hall.
    assert (Hxs : exists xs, map _agent_reward vs = map LaneChnageMARL.Num xs /\
                             Forall (fun x => lo <= x <= hi) xs /\ length xs = length vs).
    { clear Hne. induction vs as [|v vs' IH]; [exists []; repeat split; constructor|].
      destruct (Hall v (or_introl eq_refl)) as (x & Hx & Hb).
      destruct IH as (xs & E & F & L); [intros v' Hin; apply Hall; right; exact Hin|].
      exists (x :: xs). simpl. rewrite Hx, E, L. repeat split. constructor; assumption. }
    destruct Hxs as (xs & E & F & L).
    destruct vs as [|v0 vs'] eqn:Evs; [contradiction|].
    cbn [length Nat.eqb]. rewrite E, fold_np_add_num. cbn [LaneChnageMARL.np_div].
    eexists. split; [reflexivity|].
    pose proof (sum_bounds lo hi xs F) as Hs. rewrite L in Hs. cbn [length] in Hs.
    assert (Hpos : 0 < INR (S (length vs'))) by (apply lt_0_INR; lia).
    set (n := INR (S (length vs'))) in *.
    split.
    + apply (Rmult_le_reg_r n); [exact Hpos|]. field_simplify; lra.
    + apply (Rmult_le_reg_r n); [exact Hpos|]. field_simplify; lra.
Qed.

Lemma collect_info_spec (vs : list LaneChnageMARL.Vehicle) :
  forall agent_info local_info agent_info' local_info',
    LaneChnageMARL.collect_info vs agent_info local_info = Ok (agent_info', local_info') ->
    agent_info' =
      agent_info ++
      map (fun v => [fst (LaneChnageMARL.position v); snd (LaneChnageMARL.position v);
                     LaneChnageMARL.speed v]) vs /\
    local_info' =
      local_info ++
      map (fun v => [fst (LaneChnageMARL.local_coordinates v);
                     snd (LaneChnageMARL.local_coordinates v);
                     LaneChnageMARL.speed v]) vs /\
    existsb LaneChnageMARL.position_isnan vs = false.
Proof.
  induction vs as [|v vs IH]; intros ai li ai' li' H; simpl in H.
  - inversion H; subst. rewrite !app_nil_r. auto.
  - destruct (LaneChnageMARL.position_isnan v) eqn:E; [discriminate|].
    destruct (IH _ _ _ _ H) as (E1 & E2 & E3).
    simpl. rewrite E, E3, E1, E2, <- !app_assoc. auto.
Qed.

(** X26. When [step] returns, the entries "agents_info", "hdv_info",
    "agents_dones" and "agents_rewards" of [info] hold one element per
    controlled vehicle, in order: its position and speed, its lane
    coordinates and speed, its terminal flag and its reward; the observation
    has one row per row of the base observation, reward and done are the
    base step's, and no controlled vehicle has a NaN position. *)
Theorem step_reports_every_controlled_vehicle :
  forall (e : LaneChnageMARL.stepped BaseInfo) o r d i,
    LaneChnageMARL.step BaseInfo duration policy_frequency _agent_reward e =
      Ok (o, r, d, i) ->
    LaneChnageMARL.agents_info i =
      map (fun v => [fst (LaneChnageMARL.position v); snd (LaneChnageMARL.position v);
                     LaneChnageMARL.speed v])
        (LaneChnageMARL.controlled_vehicles e) /\
    LaneChnageMARL.hdv_info i =
      map (fun v => [fst (LaneChnageMARL.local_coordinates v);
                     snd (LaneChnageMARL.local_coordinates v);
                     LaneChnageMARL.speed v])
        (LaneChnageMARL.controlled_vehicles e) /\
    LaneChnageMARL.agents_dones i =
      map (LaneChnageMARL._agent_is_terminal BaseInfo duration policy_frequency e)
        (LaneChnageMARL.controlled_vehicles e) /\
    LaneChnageMARL.agents_rewards i =
      map _agent_reward (LaneChnageMARL.controlled_vehicles e) /\
    length o = length (LaneChnageMARL.s_obs e) /\
    r = LaneChnageMARL.s_reward e /\ d = LaneChnageMARL.s_done e /\
    LaneChnageMARL.base i = LaneChnageMARL.s_info e /\
    (forall v, In v (LaneChnageMARL.controlled_vehicles e) ->
               LaneChnageMARL.position_isnan v = false).
Proof.
  intros e o r d i H. unfold LaneChnageMARL.step in H.
  apply bind_ok in H. destruct H as ([ai li] & Hc & H).
  apply bind_ok in H. destruct H as (o' & Ho & H).
  inversion H; subst; clear H. simpl.
  destruct (collect_info_spec _ _ _ _ _ Hc) as (E1 & E2 & E3).
  simpl in E1, E2.
  repeat (split; [assumption || reflexivity|]).
  split.
  - unfold LaneChnageMARL.reshape_obs in Ho.
    destruct (LaneChnageMARL.s_obs e); [discriminate|].
    inversion Ho; subst. simpl. rewrite length_map. reflexivity.
  - repeat (split; [reflexivity|]).
    intros v Hin. destruct (LaneChnageMARL.position_isnan v) eqn:E; [|reflexivity].
    assert (Hex : existsb LaneChnageMARL.position_isnan (LaneChnageMARL.controlled_vehicles e)
                  = true) by (apply existsb_exists; exists v; auto).
    rewrite Hex in E3. discriminate.
Qed.

End Episode.

(** One crashed vehicle. *)
Lemma episode_ends_when_an_agent_is_terminal_witness :
  LaneChnageMARL.controlled_vehicles (after_super_step crashed_vehicle (LaneChnageMARL.Num 0))
    <> [] /\
  LaneChnageMARL._is_terminal unit 20 5
    (after_super_step crashed_vehicle (LaneChnageMARL.Num 0)) =
  existsb (LaneChnageMARL._agent_is_terminal unit 20 5
             (after_super_step crashed_vehicle (LaneChnageMARL.Num 0)))
    [crashed_vehicle].
Proof.
  assert (H : LaneChnageMARL.controlled_vehicles
                (after_super_step crashed_vehicle (LaneChnageMARL.Num 0)) <> [])
    by discriminate.
  split; [exact H|].
  exact (proj1 (episode_ends_when_an_agent_is_terminal unit 20 5
                  (fun _ => LaneChnageMARL.Num 0)
                  (after_super_step crashed_vehicle (LaneChnageMARL.Num 0)) H)).
Defined.

(** One sound vehicle after one step: the cost is 1; one crashed vehicle:
    the cost is 0. *)
Lemma cost_is_zero_only_when_all_crashed_witness :
  (LaneChnageMARL.controlled_vehicles (after_super_step sound_vehicle (LaneChnageMARL.Num 0))
     <> [] /\
   LaneChnageMARL._is_terminal unit 20 5
     (after_super_step sound_vehicle (LaneChnageMARL.Num 0)) = false /\
   LaneChnageMARL._cost unit (after_super_step sound_vehicle (LaneChnageMARL.Num 0)) = 1) /\
  ((forall v, In v [crashed_vehicle] -> LaneChnageMARL.crashed v = true) /\
   LaneChnageMARL._cost unit (after_super_step crashed_vehicle (LaneChnageMARL.Num 0)) = 0).
Proof.
  split.
  - assert (H1 : LaneChnageMARL.controlled_vehicles
                   (after_super_step sound_vehicle (LaneChnageMARL.Num 0)) <> [])
      by discriminate.
    assert (H2 : LaneChnageMARL._is_terminal unit 20 5
                   (after_super_step sound_vehicle (LaneChnageMARL.Num 0)) = false)
      by reflexivity.
    split; [exact H1|]. split; [exact H2|].
    exact (proj2 (proj2 (cost_is_zero_only_when_all_crashed unit 20 5
                           (after_super_step sound_vehicle (LaneChnageMARL.Num 0)))) H1 H2).
  - assert (H : forall v, In v [crashed_vehicle] -> LaneChnageMARL.crashed v = true).
    { intros v [<-|[]]. reflexivity. }
    split; [exact H|].
    exact (proj2 (proj1 (cost_is_zero_only_when_all_crashed unit 20 5
                           (after_super_step crashed_vehicle (LaneChnageMARL.Num 0)))) H).
Defined.

(** One vehicle, rewarded with its speed. *)
Lemma reward_is_the_mean_of_the_agent_rewards_witness :
  LaneChnageMARL.controlled_vehicles (after_super_step sound_vehicle (LaneChnageMARL.Num 0))
    <> [] /\
  (forall v, In v [sound_vehicle] ->
             exists x, LaneChnageMARL.speed v = LaneChnageMARL.Num x /\ 25 <= x <= 25) /\
  exists m,
    LaneChnageMARL._reward unit LaneChnageMARL.speed
      (after_super_step sound_vehicle (LaneChnageMARL.Num 0)) = Ok (LaneChnageMARL.Num m) /\
    25 <= m <= 25.
Proof.
  assert (H1 : LaneChnageMARL.controlled_vehicles
                 (after_super_step sound_vehicle (LaneChnageMARL.Num 0)) <> [])
    by discriminate.
  assert (H2 : forall v, In v [sound_vehicle] ->
                 exists x, LaneChnageMARL.speed v = LaneChnageMARL.Num x /\ 25 <= x <= 25).
  { intros v [<-|[]]. exists 25. split; [reflexivity|lra]. }
  split; [exact H1|]. split; [exact H2|].
  exact (proj2 (proj2 (reward_is_the_mean_of_the_agent_rewards unit LaneChnageMARL.speed
                         (after_super_step sound_vehicle (LaneChnageMARL.Num 0))))
           25 25 H1 H2).
Defined.

(** One sound vehicle. *)
Lemma step_reports_every_controlled_vehicle_witness :
  exists o r d i,
    LaneChnageMARL.step unit 20 5 (fun _ => LaneChnageMARL.Num 0)
      (after_super_step sound_vehicle (LaneChnageMARL.Num 0)) = Ok (o, r, d, i) /\
    LaneChnageMARL.agents_info i =
      [[LaneChnageMARL.Num 10; LaneChnageMARL.Num 4; LaneChnageMARL.Num 25]] /\
    LaneChnageMARL.agents_dones i = [false].
Proof.
  eexists. eexists. eexists. eexists. split; [reflexivity|].
  destruct (step_reports_every_controlled_vehicle unit 20 5 (fun _ => LaneChnageMARL.Num 0)
              (after_super_step sound_vehicle (LaneChnageMARL.Num 0)) _ _ _ _ eq_refl)
    as (H1 & _ & H3 & _).
  split; [exact H1|exact H3].
Defined.

(** ** The initial vehicles *)

Lemma nth_map_in_range {A B : Type} (f : A -> B) (l : list A) (i : nat) (da : A) (db : B) :
  (i < length l)%nat -> nth i (map f l) db = f (nth i l da).
Proof.
  intros H. rewrite (nth_indep _ db (f da)) by (rewrite length_map; exact H).
  apply map_nth.
Qed.

Lemma nth_behind_front (f h : R -> R) (sp : vec) (i : nat) :
  (i < length sp)%nat ->
  nth i (map f (firstn 2 sp) ++ map h (skipn 2 sp)) 0 =
  if (i <? 2)%nat then f (nth i sp 0) else h (nth i sp 0).
Proof.
  intros Hi. destruct sp as [|a [|b rest]]; simpl in Hi; [lia| |].
  - destruct i; [reflexivity|lia].
  - destruct i as [|[|i]]; [reflexivity|reflexivity|].
    simpl. apply nth_map_in_range. lia.
Qed.

Lemma length_behind_front (f h : R -> R) (sp : vec) :
  length (map f (firstn 2 sp) ++ map h (skipn 2 sp)) = length sp.
Proof.
  rewrite length_app, !length_map, <- length_app, firstn_skipn. reflexivity.
Qed.

Section CreateVehicles.
Variable Generator : Type.
Variable rand : Generator -> nat -> vec * Generator.
Variables Lane Position : Type.
Variable get_lane : Z -> result Lane.
Variable lane_position : Lane -> R -> Position.
Variable LENGTH : R.

(** The loop over the following vehicles, started at the index [k] with
    the vehicles [lc :: fs] created. *)
Lemma follow_loop (lane_count : Z) (lc : LaneChnageMARL.created Position) (m : nat) :
  forall (k : nat) (fs : list (LaneChnageMARL.created Position)) (pts speeds : list R) out,
    for_each
      (fun '(vehicles, spawn_points, initial_speed) idx =>
         let lane_id := (Z.of_nat idx mod lane_count)%Z in
         lane <- get_lane lane_id ;;
         ' (s, spawn_points) <- LaneChnageMARL.pop0 spawn_points ;;
         ' (speed, initial_speed) <- LaneChnageMARL.pop0 initial_speed ;;
         let lane_follow_vehicle :=
           {| LaneChnageMARL.lane_id := lane_id; LaneChnageMARL.longitudinal := s;
              LaneChnageMARL.created_position := lane_position lane s;
              LaneChnageMARL.created_speed := speed |} in
         Ok (vehicles ++ [lane_follow_vehicle], spawn_points, initial_speed))
      (seq k m) (lc :: fs, pts, speeds) = Ok out ->
    exists fs',
      out = (lc :: fs ++ fs', skipn m pts, skipn m speeds) /\
      length fs' = m /\ (m <= length pts)%nat /\ (m <= length speeds)%nat /\
      forall i, (i < m)%nat ->
        LaneChnageMARL.lane_id (nth i fs' lc) = (Z.of_nat (k + i) mod lane_count)%Z /\
        LaneChnageMARL.longitudinal (nth i fs' lc) = nth i pts 0 /\
        LaneChnageMARL.created_speed (nth i fs' lc) = nth i speeds 0.
Proof.
  induction m as [|m IH]; intros k fs pts speeds out H.
  - simpl in H. inversion H; subst; clear H. exists []. rewrite app_nil_r.
    repeat split; try reflexivity; try lia. 
  - cbn [seq for_each] in H.
    apply bind_ok in H. destruct H as ([[vs1 pts1] speeds1] & Hbody & H).
    apply bind_ok in Hbody. destruct Hbody as (lane & _ & Hbody).
    apply bind_ok in Hbody. destruct Hbody as ([s pts'] & Hs & Hbody).
    apply bind_ok in Hbody. destruct Hbody as ([v speeds'] & Hv & Hbody).
    inversion Hbody; subst; clear Hbody.
    destruct pts as [|s0 pts0]; [discriminate|]. inversion Hs; subst; clear Hs.
    destruct speeds as [|v0 speeds0]; [discriminate|]. inversion Hv; subst; clear Hv.
    change ((lc :: fs) ++ [?x]) with (lc :: (fs ++ [x])) in H.
    destruct (IH _ _ _ _ _ H) as (fs' & -> & L & Lp & Ls & Hi).
    eexists (_ :: fs'). rewrite <- app_assoc. simpl.
    split; [reflexivity|]. split; [rewrite L; reflexivity|].
    split; [lia|]. split; [lia|].
    intros [|i] Hlt.
    + simpl. rewrite Nat.add_0_r. auto.
    + simpl. destruct (Hi i ltac:(lia)) as (A1 & A2 & A3).
      rewrite A1, A2, A3. replace (S k + i)%nat with (k + S i)%nat by lia. auto.
Qed.

(** What [_create_vehicles] has done when it returns. *)
Lemma create_vehicles_spec (c : LaneChnageMARL.config) (g g' : Generator)
  (vs : list (LaneChnageMARL.created Position)) :
  LaneChnageMARL._create_vehicles Generator rand Lane Position get_lane lane_position
    LENGTH c g = Ok (vs, g') ->
  exists draws g1 speed0 speeds lc fs spawn_points,
    rand g (Z.to_nat (LaneChnageMARL.config_controlled_vehicles c)) = (draws, g1) /\
    map (fun x => x * 2 + 25) draws = speed0 :: speeds /\
    (1 <= LaneChnageMARL.config_controlled_vehicles c)%Z /\
    LaneChnageMARL.lanes_count c <> 0%Z /\
    spawn_points =
      fst (rand g1 (Z.to_nat (LaneChnageMARL.config_controlled_vehicles c - 1))) /\
    vs = lc :: fs /\
    LaneChnageMARL.lane_id lc =
      ((LaneChnageMARL.target_lane c + 1) mod LaneChnageMARL.lanes_count c)%Z /\
    LaneChnageMARL.longitudinal lc = LaneChnageMARL.config_length c / 3 / 2 /\
    LaneChnageMARL.created_speed lc = speed0 /\
    length fs = Z.to_nat (LaneChnageMARL.config_controlled_vehicles c - 1) /\
    (length fs <= length spawn_points)%nat /\
    (length fs <= length speeds)%nat /\
    forall i, (i < length fs)%nat ->
      LaneChnageMARL.lane_id (nth i fs lc) =
        (Z.of_nat i mod LaneChnageMARL.lanes_count c)%Z /\
      LaneChnageMARL.longitudinal (nth i fs lc) =
        (if (i <? 2)%nat
         then nth i spawn_points 0 * (LaneChnageMARL.config_length c / 3 / 2) - 2 * LENGTH
         else 2 * LENGTH + LaneChnageMARL.config_length c / 3 / 2
              + nth i spawn_points 0
                * (LaneChnageMARL.config_length c / 3
                   - LaneChnageMARL.config_length c / 3 / 2)) /\
      LaneChnageMARL.created_speed (nth i fs lc) = nth i speeds 0.
Proof.
  intros H. unfold LaneChnageMARL._create_vehicles in H.
  destruct (LaneChnageMARL.config_controlled_vehicles c <? 0)%Z eqn:En; [discriminate|].
  apply Z.ltb_ge in En.
  destruct (rand g _) as [draws g1] eqn:Er.
  destruct (LaneChnageMARL.lanes_count c =? 0)%Z eqn:El; [discriminate|].
  apply Z.eqb_neq in El.
  apply bind_ok in H. destruct H as (lane & _ & H).
  apply bind_ok in H. destruct H as ([speed0 speeds] & Hpop & H).
  destruct (map (fun x => x * 2 + 25) draws) as [|v0 rest] eqn:Es; [discriminate|].
  inversion Hpop; subst; clear Hpop.
  destruct (LaneChnageMARL.config_controlled_vehicles c - 1 <? 0)%Z eqn:Ef; [discriminate|].
  apply Z.ltb_ge in Ef.
  destruct (rand g1 _) as [sp g2] eqn:Er2.
  apply bind_ok in H. destruct H as ([[vehicles pts'] speeds'] & Hloop & H).
  inversion H; subst; clear H.
  apply (follow_loop _ _ _ 0%nat []) in Hloop.
  destruct Hloop as (fs & E & L & Lp & Ls & Hi).
  inversion E; subst; clear E. simpl app.
  rewrite length_behind_front in Lp.
  exists draws, g1, speed0, speeds. eexists. exists fs, sp.
  split; [first [reflexivity|exact Er]|]. split; [first [reflexivity|exact Es]|].
  split; [lia|]. split; [exact El|].
  split; [first [reflexivity|rewrite Er2; reflexivity]|]. split; [reflexivity|]. simpl.
  split; [reflexivity|]. split; [reflexivity|]. split; [reflexivity|].
  split; [exact L|]. split; [lia|]. split; [lia|].
  intros i Hlt. destruct (Hi i ltac:(lia)) as (A1 & A2 & A3).
  rewrite A1, A2, A3. rewrite nth_behind_front by lia.
  split; [reflexivity|]. split; [|reflexivity].
  destruct (i <? 2)%nat; reflexivity.
Qed.

(** X27. On a road of at least two lanes, with the target lane among them,
    the first controlled vehicle is created in the lane after the target
    lane (lane 0 after the last one), never in the target lane, at one sixth
    of the road's length; the k-th following vehicle is created in lane
    k mod lanes_count. *)
Theorem lane_change_vehicle_spawns_beside_its_target_lane :
  forall (c : LaneChnageMARL.config) (g g' : Generator)
         (vs : list (LaneChnageMARL.created Position)),
    LaneChnageMARL._create_vehicles Generator rand Lane Position get_lane lane_position
      LENGTH c g = Ok (vs, g') ->
    (2 <= LaneChnageMARL.lanes_count c)%Z ->
    (0 <= LaneChnageMARL.target_lane c < LaneChnageMARL.lanes_count c)%Z ->
    exists lc fs,
      vs = lc :: fs /\
      LaneChnageMARL.lane_id lc <> LaneChnageMARL.target_lane c /\
      (0 <= LaneChnageMARL.lane_id lc < LaneChnageMARL.lanes_count c)%Z /\
      LaneChnageMARL.lane_id lc =
        (if (LaneChnageMARL.target_lane c + 1 =? LaneChnageMARL.lanes_count c)%Z
         then 0%Z else (LaneChnageMARL.target_lane c + 1)%Z) /\
      LaneChnageMARL.longitudinal lc = LaneChnageMARL.config_length c / 6 /\
      forall i, (i < length fs)%nat ->
        LaneChnageMARL.lane_id (nth i fs lc) =
        (Z.of_nat i mod LaneChnageMARL.lanes_count c)%Z.
Proof.
  intros c g g' vs H Hl Ht.
  destruct (create_vehicles_spec c g g' vs H)
    as (draws & g1 & speed0 & speeds & lc & fs & sp & _ & _ & _ & _ & _ & -> & Hlane & Hlon
        & _ & _ & _ & _ & Hfs).
  exists lc, fs. split; [reflexivity|].
  assert (Hcase : LaneChnageMARL.lane_id lc =
            (if (LaneChnageMARL.target_lane c + 1 =? LaneChnageMARL.lanes_count c)%Z
             then 0%Z else (LaneChnageMARL.target_lane c + 1)%Z)).
  { rewrite Hlane.
    destruct (LaneChnageMARL.target_lane c + 1 =? LaneChnageMARL.lanes_count c)%Z eqn:E.
    - apply Z.eqb_eq in E. rewrite E. apply Z_mod_same_full.
    - apply Z.eqb_neq in E. apply Z.mod_small. lia. }
  split; [|split; [|split; [exact Hcase|split]]].
  - rewrite Hcase. destruct (_ =? _)%Z eqn:E; [apply Z.eqb_eq in E|]; lia.
  - rewrite Hcase. destruct (_ =? _)%Z eqn:E; [|apply Z.eqb_neq in E]; lia.
  - rewrite Hlon. lra.
  - intros i Hi. apply (Hfs i Hi).
Qed.

(** X28. [_create_vehicles], when it returns, has created as many vehicles
    as config["controlled_vehicles"]; with no or a negative number of
    vehicles it raises, with IndexError at the first [initial_speed.pop(0)]
    when the number is 0. *)
Theorem create_vehicles_makes_one_vehicle_per_agent :
  forall (c : LaneChnageMARL.config) (g : Generator),
    (forall vs g',
        LaneChnageMARL._create_vehicles Generator rand Lane Position get_lane lane_position
          LENGTH c g = Ok (vs, g') ->
        Z.of_nat (length vs) = LaneChnageMARL.config_controlled_vehicles c) /\
    ((LaneChnageMARL.config_controlled_vehicles c <= 0)%Z ->
     exists e,
       LaneChnageMARL._create_vehicles Generator rand Lane Position get_lane lane_position
         LENGTH c g = Raise e) /\
    (forall lane,
        LaneChnageMARL.config_controlled_vehicles c = 0%Z ->
        LaneChnageMARL.lanes_count c <> 0%Z ->
        fst (rand g 0) = [] ->
        get_lane ((LaneChnageMARL.target_lane c + 1) mod LaneChnageMARL.lanes_count c)%Z =
          Ok lane ->
        LaneChnageMARL._create_vehicles Generator rand Lane Position get_lane lane_position
          LENGTH c g = Raise IndexError).
Proof.
  intros c g. split; [|split].
  - intros vs g' H.
    destruct (create_vehicles_spec c g g' vs H)
      as (draws & g1 & speed0 & speeds & lc & fs & sp & _ & _ & Hn & _ & _ & -> & _ & _
          & _ & L & _).
    simpl. rewrite L. lia.
  - intros Hn.
    destruct (LaneChnageMARL._create_vehicles Generator rand Lane Position get_lane
                lane_position LENGTH c g) as [[vs g']|e] eqn:E; [|exists e; reflexivity].
    destruct (create_vehicles_spec c g g' vs E)
      as (draws & g1 & speed0 & speeds & lc & fs & sp & _ & _ & Hn' & _).
    lia.
  - intros lane Hn Hl Hr Hlane. unfold LaneChnageMARL._create_vehicles.
    rewrite Hn. simpl Z.ltb. cbv iota. simpl Z.to_nat.
    destruct (rand g 0) as [draws g1]. simpl in Hr. subst draws.
    apply Z.eqb_neq in Hl. rewrite Hl, Hlane. reflexivity.
Qed.

(** X29. With uniform draws in [0, 1) and a road of non-negative length,
    every created vehicle has a speed in [25, 27), the first two following
    vehicles are created at least two vehicle lengths behind the
    lane-changing vehicle and all others at least two vehicle lengths in
    front of it. *)
Theorem followers_keep_clear_of_the_lane_change_vehicle :
  forall (c : LaneChnageMARL.config) (g g' : Generator)
         (vs : list (LaneChnageMARL.created Position)),
    (forall g k, Forall (fun x => 0 <= x < 1) (fst (rand g k))) ->
    0 <= LaneChnageMARL.config_length c ->
    LaneChnageMARL._create_vehicles Generator rand Lane Position get_lane lane_position
      LENGTH c g = Ok (vs, g') ->
    exists lc fs,
      vs = lc :: fs /\
      (forall v, In v vs ->
         25 <= LaneChnageMARL.created_speed v < 27) /\
      forall i, (i < length fs)%nat ->
        ((i < 2)%nat ->
         LaneChnageMARL.longitudinal (nth i fs lc) <=
         LaneChnageMARL.longitudinal lc - 2 * LENGTH) /\
        ((2 <= i)%nat ->
         LaneChnageMARL.longitudinal lc + 2 * LENGTH <=
         LaneChnageMARL.longitudinal (nth i fs lc)).
Proof.
  intros c g g' vs Hrand Hlen H.
  destruct (create_vehicles_spec c g g' vs H)
    as (draws & g1 & speed0 & speeds & lc & fs & sp & Er & Es & _ & _ & Esp & -> & _ & Hlon
        & Hv0 & _ & Lp & Ls & Hfs).
  exists lc, fs. split; [reflexivity|].
  assert (Hdraws : Forall (fun x => 0 <= x < 1) draws).
  { pose proof (Hrand g (Z.to_nat (LaneChnageMARL.config_controlled_vehicles c))) as Hd.
    rewrite Er in Hd. exact Hd. }
  assert (Hspeeds : Forall (fun v => 25 <= v < 27) (speed0 :: speeds)).
  { rewrite <- Es. apply Forall_map.
    eapply Forall_impl; [|exact Hdraws]. simpl. intros x Hx. lra. }
  assert (Hsp : Forall (fun x => 0 <= x < 1) sp) by (rewrite Esp; apply Hrand).
  split.
  - intros v [<-|Hin].
    + rewrite Hv0. inversion Hspeeds; assumption.
    + destruct (In_nth _ _ lc Hin) as (i & Hi & <-).
      destruct (Hfs i Hi) as (_ & _ & ->).
      inversion Hspeeds as [|? ? _ Hrest]; subst.
      rewrite Forall_forall in Hrest. apply Hrest. apply nth_In. lia.
  - intros i Hi. destruct (Hfs i Hi) as (_ & -> & _).
    assert (Hx : 0 <= nth i sp 0 < 1).
    { rewrite Forall_forall in Hsp. apply Hsp. apply nth_In. lia. }
    rewrite Hlon. set (L := LaneChnageMARL.config_length c) in *.
    split; intros Hb.
    + apply Nat.ltb_lt in Hb. rewrite Hb. nra.
    + apply Nat.ltb_ge in Hb. rewrite Hb. nra.
Qed.

End CreateVehicles.

(** Every draw of [half] lies in [0, 1). *)
Lemma half_in_unit_interval :
  forall (g : unit) (k : nat), Forall (fun x => 0 <= x < 1) (fst (half g k)).
Proof.
  intros g k. apply Forall_forall. intros x Hx.
  apply repeat_spec in Hx. subst x. lra.
Defined.

(** The default configuration: the target lane 0 of two lanes. *)
Lemma lane_change_vehicle_spawns_beside_its_target_lane_witness :
  (2 <= LaneChnageMARL.lanes_count default_config)%Z /\
  (0 <= LaneChnageMARL.target_lane default_config
   < LaneChnageMARL.lanes_count default_config)%Z /\
  exists lc fs,
    LaneChnageMARL._create_vehicles unit half Z (R * R) lane_of_index position_on_lane 5
      default_config tt = Ok (lc :: fs, tt) /\
    LaneChnageMARL.lane_id lc <> LaneChnageMARL.target_lane default_config /\
    LaneChnageMARL.lane_id lc = 1%Z.
Proof.
  assert (H1 : (2 <= LaneChnageMARL.lanes_count default_config)%Z) by (simpl; lia).
  assert (H2 : (0 <= LaneChnageMARL.target_lane default_config
                < LaneChnageMARL.lanes_count default_config)%Z) by (simpl; lia).
  split; [exact H1|]. split; [exact H2|].
  eexists. eexists. split; [reflexivity|].
  destruct (lane_change_vehicle_spawns_beside_its_target_lane unit half Z (R * R)
              lane_of_index position_on_lane 5 default_config tt tt _ eq_refl H1 H2)
    as (lc & fs & E & Hne & _ & Hl & _).
  inversion E; subst lc fs. split; [exact Hne|exact Hl].
Defined.

(** Five vehicles in the default configuration, none in the empty one. *)
Lemma create_vehicles_makes_one_vehicle_per_agent_witness :
  (exists vs,
      LaneChnageMARL._create_vehicles unit half Z (R * R) lane_of_index position_on_lane 5
        default_config tt = Ok (vs, tt) /\
      Z.of_nat (length vs) = 5%Z) /\
  (LaneChnageMARL.config_controlled_vehicles empty_config = 0%Z /\
   LaneChnageMARL.lanes_count empty_config <> 0%Z /\
   fst (half tt 0) = [] /\
   lane_of_index ((LaneChnageMARL.target_lane empty_config + 1)
                  mod LaneChnageMARL.lanes_count empty_config)%Z = Ok 1%Z /\
   LaneChnageMARL._create_vehicles unit half Z (R * R) lane_of_index position_on_lane 5
     empty_config tt = Raise IndexError).
Proof.
  split.
  - eexists. split; [reflexivity|].
    exact (proj1 (create_vehicles_makes_one_vehicle_per_agent unit half Z (R * R)
                    lane_of_index position_on_lane 5 default_config tt) _ tt eq_refl).
  - assert (H1 : LaneChnageMARL.config_controlled_vehicles empty_config = 0%Z)
      by reflexivity.
    assert (H2 : LaneChnageMARL.lanes_count empty_config <> 0%Z) by discriminate.
    assert (H3 : fst (half tt 0) = []) by reflexivity.
    assert (H4 : lane_of_index ((LaneChnageMARL.target_lane empty_config + 1)
                                mod LaneChnageMARL.lanes_count empty_config)%Z = Ok 1%Z)
      by reflexivity.
    repeat (split; [assumption|]).
    exact (proj2 (proj2 (create_vehicles_makes_one_vehicle_per_agent unit half Z (R * R)
                           lane_of_index position_on_lane 5 empty_config tt))
             1%Z H1 H2 H3 H4).
Defined.

(** The default configuration with every draw equal to 1/2. *)
Lemma followers_keep_clear_of_the_lane_change_vehicle_witness :
  (forall g k, Forall (fun x => 0 <= x < 1) (fst (half g k))) /\
  0 <= LaneChnageMARL.config_length default_config /\
  exists lc fs,
    LaneChnageMARL._create_vehicles unit half Z (R * R) lane_of_index position_on_lane 5
      default_config tt = Ok (lc :: fs, tt) /\
    25 <= LaneChnageMARL.created_speed lc < 27 /\
    LaneChnageMARL.longitudinal (nth 0 fs lc) <= LaneChnageMARL.longitudinal lc - 2 * 5 /\
    LaneChnageMARL.longitudinal lc + 2 * 5 <= LaneChnageMARL.longitudinal (nth 2 fs lc).
Proof.
  assert (H2 : 0 <= LaneChnageMARL.config_length default_config) by (simpl; lra).
  split; [exact half_in_unit_interval|]. split; [exact H2|].
  eexists. eexists. split; [reflexivity|].
  destruct (followers_keep_clear_of_the_lane_change_vehicle unit half Z (R * R)
              lane_of_index position_on_lane 5 default_config tt tt _
              half_in_unit_interval H2 eq_refl)
    as (lc & fs & E & Hv & Hclear).
  inversion E; subst lc fs.
  split; [apply Hv; left; reflexivity|].
  split.
  - apply (proj1 (Hclear 0%nat ltac:(simpl; lia))). lia.
  - apply (proj2 (Hclear 2%nat ltac:(simpl; lia))). lia.
Defined.

